(** * Diode edge protocol (RLP_V2): dispatch, ticket replies, request encoding

    A shallow embedding of the edge package's RLP_V2 protocol engine
    (parseResponse, parseInboundRequest, the typed response parsers,
    parseError, ResponseID, NewMessage) together with a model of the rlp
    wire format it encodes requests in and decodes responses from. *)

From Stdlib Require Import List NArith ZArith Lia Bool.
From Stdlib Require Import Strings.Byte Strings.String Strings.Ascii.
Import ListNotations.

Local Open Scope N_scope.

(** ** Byte slices *)

(** Go's [[]byte]; a nil slice and an empty slice are both the empty list. *)
Definition bytes := list byte.

(** The conversion [[]byte("...")] of a string constant. *)
Definition bytesOf (s : string) : bytes := list_byte_of_string s.

(** bytes.HasPrefix *)
Fixpoint hasPrefix (s prefix : bytes) : bool :=
  match prefix, s with
  | [], _ => true
  | _ :: _, [] => false
  | p :: prefix', c :: s' => Byte.eqb c p && hasPrefix s' prefix'
  end.

(** bytes.Contains(b, subslice): some suffix of [b] starts with [subslice]. *)
Fixpoint contains (b subslice : bytes) : bool :=
  hasPrefix b subslice
  || match b with
     | [] => false
     | _ :: b' => contains b' subslice
     end.

(** bytes.Equal *)
Fixpoint bytesEqual (a b : bytes) : bool :=
  match a, b with
  | [], [] => true
  | x :: a', y :: b' => Byte.eqb x y && bytesEqual a' b'
  | _, _ => false
  end.

Lemma byte_eqb_refl (x : byte) : Byte.eqb x x = true.
Proof. now apply byte_dec_lb. Qed.

Lemma bytesEqual_eq (a b : bytes) : bytesEqual a b = true <-> a = b.
Proof.
  revert b; induction a as [|x a IH]; intros [|y b]; cbn [bytesEqual]; split; try easy.
  - intros H; apply andb_true_iff in H as [Hx Hab].
    apply byte_dec_bl in Hx; apply IH in Hab; congruence.
  - intros H; injection H as -> ->.
    rewrite byte_eqb_refl; cbn [andb]; now apply IH.
Qed.

Lemma bytesEqual_neq (a b : bytes) : bytesEqual a b = false <-> a <> b.
Proof.
  split.
  - intros H E; apply bytesEqual_eq in E; congruence.
  - intros H; destruct (bytesEqual a b) eqn:E; [|reflexivity].
    apply bytesEqual_eq in E; contradiction.
Qed.

Lemma contains_nil (q : bytes) : contains [] q = hasPrefix [] q.
Proof. unfold contains; apply orb_false_r. Qed.

Lemma contains_cons (c : byte) (s q : bytes) :
  contains (c :: s) q = hasPrefix (c :: s) q || contains s q.
Proof. reflexivity. Qed.

Lemma hasPrefix_app (s p q : bytes) :
  hasPrefix s (p ++ q) = true -> hasPrefix (skipn (List.length p) s) q = true.
Proof.
  revert s; induction p as [|x p IH]; intros s; cbn [hasPrefix app List.length skipn].
  - now destruct s.
  - destruct s as [|c s]; [discriminate|]; cbn [hasPrefix skipn].
    intros H; apply andb_true_iff in H as [_ H]; now apply IH.
Qed.

Lemma contains_skipn (n : nat) (s q : bytes) :
  contains (skipn n s) q = true -> contains s q = true.
Proof.
  revert s; induction n as [|n IH]; intros s; simpl; [easy|].
  destruct s as [|c s]; [easy|].
  intros H; apply IH in H.
  rewrite contains_cons, H; apply orb_true_r.
Qed.

Lemma hasPrefix_contains (s q : bytes) : hasPrefix s q = true -> contains s q = true.
Proof. intros H; destruct s; simpl in *; rewrite H; reflexivity. Qed.

(** A buffer that contains [p ++ q] contains [q]: a marker that ends in
    another marker can never match without the shorter one matching. *)
Lemma contains_suffix (s p q : bytes) :
  contains s (p ++ q) = true -> contains s q = true.
Proof.
  induction s as [|c s IH].
  - rewrite !contains_nil; intros H.
    apply hasPrefix_app in H; now rewrite skipn_nil in H.
  - rewrite !contains_cons.
    intros H; apply orb_true_iff in H as [H|H].
    + apply hasPrefix_app, hasPrefix_contains in H.
      apply contains_skipn in H; now rewrite contains_cons in H.
    + rewrite (IH H); apply orb_true_r.
Qed.

Lemma hasPrefix_prefix (s p q : bytes) :
  hasPrefix s (p ++ q) = true -> hasPrefix s p = true.
Proof.
  revert s; induction p as [|x p IH]; intros s; cbn [hasPrefix app]; [now destruct s|].
  destruct s as [|c s]; [discriminate|]; cbn [hasPrefix].
  intros H; apply andb_true_iff in H as [Hc H].
  rewrite Hc; cbn [andb]; now apply IH.
Qed.

(** A buffer that contains [p ++ q] contains [p]: a marker that extends
    another one ("getblockheader" extends "getblock") implies it. *)
Lemma contains_prefix (s p q : bytes) :
  contains s (p ++ q) = true -> contains s p = true.
Proof.
  induction s as [|c s IH].
  - rewrite !contains_nil; apply hasPrefix_prefix.
  - rewrite !contains_cons.
    intros H; apply orb_true_iff in H as [H|H].
    + apply hasPrefix_prefix in H; rewrite H; reflexivity.
    + rewrite (IH H); apply orb_true_r.
Qed.

(** ** The rlp wire format *)

Module rlp.

(** Modelled from the spec: the rlp package (rlp.EncodeToBytes, rlp.NewStream
    and Stream.Decode) is imported by the protocol file but is not among the
    sources.  The spec describes the wire unit as an untyped, length-prefixed,
    nested binary envelope whose values are byte strings, unsigned integers and
    ordered lists; an unsigned integer travels as the byte string of its
    big-endian digits without leading zeros.  [item] is that nested value. *)
#[warnings="-register-all"]
Inductive item : Type :=
| Str (content : bytes)
| Lst (elems : list item).

(** Modelled from the spec: the digit [byte(n)], the low eight bits of [n]. *)
Definition byteOfN (n : N) : byte :=
  match Byte.of_N (n mod 256) with
  | Some b => b
  | None => x00
  end.

(** Modelled from the spec: [width] big-endian digits of [n]. *)
Fixpoint bigEndian (width : nat) (n : N) : bytes :=
  match width with
  | O => []
  | S w => bigEndian w (n / 256) ++ [byteOfN n]
  end.

(** Modelled from the spec: the digits without their leading zeros. *)
Fixpoint dropZeros (l : bytes) : bytes :=
  match l with
  | [] => []
  | b :: l' => if Byte.to_N b =? 0 then dropZeros l' else l
  end.

(** Modelled from the spec: a 64-bit unsigned integer as its big-endian
    digits without leading zeros (zero is the empty string). *)
Definition putUint (n : N) : bytes := dropZeros (bigEndian 8 n).

(** Modelled from the spec: the unsigned integer of big-endian digits. *)
Definition fromBigEndian (l : bytes) : N :=
  fold_left (fun acc b => acc * 256 + Byte.to_N b) l 0.

(** Modelled from the spec: the length prefix.  A payload shorter than 56
    bytes has its size folded into the tag byte; a longer one is announced by
    the count of size digits, followed by the size. *)
Definition header (base size : N) : bytes :=
  if size <? 56 then [byteOfN (base + size)]
  else let digits := putUint size in
       byteOfN (base + 55 + N.of_nat (List.length digits)) :: digits.

(** Modelled from the spec: a byte string; one byte below 0x80 is its own
    encoding. *)
Definition encodeString (content : bytes) : bytes :=
  match content with
  | [b] => if Byte.to_N b <? 128 then [b] else header 128 1 ++ content
  | _ => header 128 (N.of_nat (List.length content)) ++ content
  end.

(** Modelled from the spec: the encoding of a nested value. *)
Fixpoint encode (i : item) : bytes :=
  match i with
  | Str content => encodeString content
  | Lst elems =>
      let payload := flat_map encode elems in
      header 192 (N.of_nat (List.length payload)) ++ payload
  end.

(** Modelled from the spec: what a tag byte announces (a single byte, a
    byte string or a list, with the size of its payload). *)
Inductive kind : Type :=
| KByte (b : byte)
| KString (size : N)
| KList (size : N).

(** Modelled from the spec: a size of [ndigits] digits; a leading zero digit
    or a size that would have fitted the tag byte is a malformed length
    prefix. *)
Definition readSize (ndigits : N) (input : bytes) : option (N * bytes) :=
  if N.of_nat (List.length input) <? ndigits then None
  else
    let digits := firstn (N.to_nat ndigits) input in
    match digits with
    | [] => None
    | b :: _ =>
        if Byte.to_N b =? 0 then None
        else
          let size := fromBigEndian digits in
          if size <? 56 then None
          else Some (size, skipn (N.to_nat ndigits) input)
    end.

(** Modelled from the spec: the tag byte and length prefix at the front of
    the input. *)
Definition readKind (input : bytes) : option (kind * bytes) :=
  match input with
  | [] => None
  | b :: rest =>
      let n := Byte.to_N b in
      if n <? 128 then Some (KByte b, rest)
      else if n <? 184 then Some (KString (n - 128), rest)
      else if n <? 192 then
        match readSize (n - 183) rest with
        | Some (size, rest') => Some (KString size, rest')
        | None => None
        end
      else if n <? 248 then Some (KList (n - 192), rest)
      else
        match readSize (n - 247) rest with
        | Some (size, rest') => Some (KList size, rest')
        | None => None
        end
  end.

(** Modelled from the spec: the next [size] bytes and what follows them;
    truncated input fails. *)
Definition splitAt (size : N) (input : bytes) : option (bytes * bytes) :=
  if N.of_nat (List.length input) <? size then None
  else Some (firstn (N.to_nat size) input, skipn (N.to_nat size) input).

(** Modelled from the spec: the elements of a list payload, decoded one
    after the other until the payload is used up. *)
Fixpoint decodeAll (dec : bytes -> option (item * bytes)) (fuel : nat)
    (payload : bytes) : option (list item) :=
  match payload with
  | [] => Some []
  | _ :: _ =>
      match fuel with
      | O => None
      | S fuel' =>
          match dec payload with
          | Some (x, rest) =>
              match decodeAll dec fuel' rest with
              | Some xs => Some (x :: xs)
              | None => None
              end
          | None => None
          end
      end
  end.

(** Modelled from the spec: decoding one nested value from the front of the
    input, with what follows it.  [fuel] bounds the nesting depth; the length
    of the input is always enough. *)
Fixpoint decode (fuel : nat) (input : bytes) : option (item * bytes) :=
  match fuel with
  | O => None
  | S fuel' =>
      match readKind input with
      | None => None
      | Some (KByte b, rest) => Some (Str [b], rest)
      | Some (KString size, rest) =>
          match splitAt size rest with
          | None => None
          | Some (content, rest') =>
              match content with
              | [b] => if Byte.to_N b <? 128 then None else Some (Str content, rest')
              | _ => Some (Str content, rest')
              end
          end
      | Some (KList size, rest) =>
          match splitAt size rest with
          | None => None
          | Some (payload, rest') =>
              match decodeAll (decode fuel') (List.length payload) payload with
              | Some elems => Some (Lst elems, rest')
              | None => None
              end
          end
      end
  end.

(** *** Round trip of the untyped layer *)

Lemma to_N_byteOfN (n : N) : Byte.to_N (byteOfN n) = n mod 256.
Proof.
  unfold byteOfN.
  destruct (Byte.of_N (n mod 256)) as [b|] eqn:E.
  - now apply Byte.to_of_N.
  - apply Byte.of_N_None_iff in E.
    pose proof (N.mod_upper_bound n 256); lia.
Qed.

Lemma to_N_byteOfN_small (n : N) : n < 256 -> Byte.to_N (byteOfN n) = n.
Proof. intros H; rewrite to_N_byteOfN; now apply N.mod_small. Qed.

Lemma fromBigEndian_snoc (l : bytes) (b : byte) :
  fromBigEndian (l ++ [b]) = fromBigEndian l * 256 + Byte.to_N b.
Proof. unfold fromBigEndian; now rewrite fold_left_app. Qed.

Lemma fromBigEndian_bigEndian (w : nat) (n : N) :
  fromBigEndian (bigEndian w n) = n mod 256 ^ N.of_nat w.
Proof.
  revert n; induction w as [|w IH]; intros n.
  - simpl; now rewrite N.mod_1_r.
  - cbn [bigEndian]; rewrite fromBigEndian_snoc, IH, to_N_byteOfN.
    rewrite Nat2N.inj_succ, N.pow_succ_r'.
    rewrite N.Div0.mod_mul_r; lia.
Qed.

Lemma fromBigEndian_dropZeros (l : bytes) :
  fromBigEndian (dropZeros l) = fromBigEndian l.
Proof.
  induction l as [|b l IH]; [reflexivity|].
  cbn [dropZeros]; destruct (Byte.to_N b =? 0) eqn:E; [|reflexivity].
  apply N.eqb_eq in E; rewrite IH.
  unfold fromBigEndian; cbn [fold_left]; now rewrite E.
Qed.

Lemma length_bigEndian (w : nat) (n : N) : List.length (bigEndian w n) = w.
Proof.
  revert n; induction w as [|w IH]; intros n; [reflexivity|].
  cbn [bigEndian]; rewrite length_app, IH; simpl; lia.
Qed.

Lemma length_dropZeros (l : bytes) : (List.length (dropZeros l) <= List.length l)%nat.
Proof.
  induction l as [|b l IH]; [simpl; lia|].
  cbn [dropZeros]; destruct (Byte.to_N b =? 0); simpl in *; lia.
Qed.

Lemma dropZeros_head (l : bytes) (b : byte) (l' : bytes) :
  dropZeros l = b :: l' -> Byte.to_N b <> 0.
Proof.
  induction l as [|c l IH]; [discriminate|].
  cbn [dropZeros]; destruct (Byte.to_N c =? 0) eqn:E; [exact IH|].
  intros H; injection H as -> _; now apply N.eqb_neq.
Qed.

Lemma fromBigEndian_putUint (n : N) : n < 2 ^ 64 -> fromBigEndian (putUint n) = n.
Proof.
  intros H; unfold putUint.
  rewrite fromBigEndian_dropZeros, fromBigEndian_bigEndian.
  apply N.mod_small; exact H.
Qed.

Lemma length_putUint (n : N) : (List.length (putUint n) <= 8)%nat.
Proof.
  unfold putUint.
  pose proof (length_dropZeros (bigEndian 8 n)) as H.
  now rewrite length_bigEndian in H.
Qed.

Lemma putUint_nonzero (n : N) :
  0 < n -> n < 2 ^ 64 ->
  exists b l, putUint n = b :: l /\ Byte.to_N b <> 0.
Proof.
  intros Hpos Hlt.
  destruct (putUint n) as [|b l] eqn:E.
  - pose proof (fromBigEndian_putUint n Hlt) as H.
    rewrite E in H; cbn in H; lia.
  - exists b, l; split; [reflexivity|].
    unfold putUint in E; now apply dropZeros_head in E.
Qed.

(** Induction over nested values, with the hypothesis on every element of a
    list. *)
Lemma item_nested_ind (P : item -> Prop)
  (HStr : forall content, P (Str content))
  (HLst : forall elems, Forall P elems -> P (Lst elems)) :
  forall i, P i.
Proof.
  fix IH 1; intros [content|elems].
  - apply HStr.
  - apply HLst.
    induction elems as [|x xs IHxs]; constructor; [apply IH|exact IHxs].
Qed.

Lemma header_nonempty (base size : N) : (1 <= List.length (header base size))%nat.
Proof. unfold header; destruct (size <? 56); simpl; lia. Qed.

Lemma encode_nonempty (i : item) : (1 <= List.length (encode i))%nat.
Proof.
  destruct i as [content|elems]; cbn [encode].
  - unfold encodeString.
    destruct content as [|b [|c l]];
      [|destruct (Byte.to_N b <? 128); [simpl; lia|]|];
      rewrite length_app;
      match goal with
      | |- context [header ?a ?b] => pose proof (header_nonempty a b)
      end; lia.
  - rewrite length_app.
    pose proof (header_nonempty 192 (N.of_nat (List.length (flat_map encode elems)))); lia.
Qed.

Lemma readSize_putUint (size : N) (tail : bytes) :
  56 <= size -> size < 2 ^ 64 ->
  readSize (N.of_nat (List.length (putUint size))) (putUint size ++ tail)
  = Some (size, tail).
Proof.
  intros Hge Hlt; unfold readSize.
  rewrite length_app, Nat2N.id.
  replace (N.of_nat (List.length (putUint size) + List.length tail)
           <? N.of_nat (List.length (putUint size))) with false
    by (symmetry; apply N.ltb_ge; lia).
  rewrite firstn_app, Nat.sub_diag, firstn_all, firstn_O, app_nil_r.
  rewrite skipn_app, Nat.sub_diag, skipn_all, skipn_O; cbn [app].
  destruct (putUint_nonzero size) as (b & l & E & Hb); [lia|exact Hlt|].
  pose proof (fromBigEndian_putUint size Hlt) as Hv.
  rewrite E in *.
  apply N.eqb_neq in Hb; rewrite Hb, Hv.
  now replace (size <? 56) with false by (symmetry; apply N.ltb_ge; lia).
Qed.

Lemma readKind_header_string (size : N) (tail : bytes) :
  size < 2 ^ 64 ->
  readKind (header 128 size ++ tail) = Some (KString size, tail).
Proof.
  intros Hlt; unfold header.
  destruct (size <? 56) eqn:E.
  - apply N.ltb_lt in E.
    cbn [app readKind]; rewrite to_N_byteOfN_small by lia.
    replace (128 + size <? 128) with false by (symmetry; apply N.ltb_ge; lia).
    replace (128 + size <? 184) with true by (symmetry; apply N.ltb_lt; lia).
    f_equal; f_equal; f_equal; lia.
  - apply N.ltb_ge in E.
    pose proof (length_putUint size) as Hlen.
    destruct (putUint_nonzero size) as (b & l & Eq & _); [lia|exact Hlt|].
    assert (1 <= List.length (putUint size))%nat by (rewrite Eq; simpl; lia).
    cbn [app readKind]; rewrite to_N_byteOfN_small by lia.
    set (d := N.of_nat (List.length (putUint size))) in *.
    replace (128 + 55 + d <? 128) with false by (symmetry; apply N.ltb_ge; lia).
    replace (128 + 55 + d <? 184) with false by (symmetry; apply N.ltb_ge; lia).
    replace (128 + 55 + d <? 192) with true by (symmetry; apply N.ltb_lt; lia).
    replace (128 + 55 + d - 183) with d by lia.
    subst d; now rewrite readSize_putUint.
Qed.

Lemma readKind_header_list (size : N) (tail : bytes) :
  size < 2 ^ 64 ->
  readKind (header 192 size ++ tail) = Some (KList size, tail).
Proof.
  intros Hlt; unfold header.
  destruct (size <? 56) eqn:E.
  - apply N.ltb_lt in E.
    cbn [app readKind]; rewrite to_N_byteOfN_small by lia.
    replace (192 + size <? 128) with false by (symmetry; apply N.ltb_ge; lia).
    replace (192 + size <? 184) with false by (symmetry; apply N.ltb_ge; lia).
    replace (192 + size <? 192) with false by (symmetry; apply N.ltb_ge; lia).
    replace (192 + size <? 248) with true by (symmetry; apply N.ltb_lt; lia).
    f_equal; f_equal; f_equal; lia.
  - apply N.ltb_ge in E.
    pose proof (length_putUint size) as Hlen.
    destruct (putUint_nonzero size) as (b & l & Eq & _); [lia|exact Hlt|].
    assert (1 <= List.length (putUint size))%nat by (rewrite Eq; simpl; lia).
    cbn [app readKind]; rewrite to_N_byteOfN_small by lia.
    set (d := N.of_nat (List.length (putUint size))) in *.
    replace (192 + 55 + d <? 128) with false by (symmetry; apply N.ltb_ge; lia).
    replace (192 + 55 + d <? 184) with false by (symmetry; apply N.ltb_ge; lia).
    replace (192 + 55 + d <? 192) with false by (symmetry; apply N.ltb_ge; lia).
    replace (192 + 55 + d <? 248) with false by (symmetry; apply N.ltb_ge; lia).
    replace (192 + 55 + d - 247) with d by lia.
    subst d; now rewrite readSize_putUint.
Qed.

Lemma splitAt_app (content tail : bytes) :
  splitAt (N.of_nat (List.length content)) (content ++ tail) = Some (content, tail).
Proof.
  unfold splitAt; rewrite length_app, Nat2N.id.
  replace (N.of_nat (List.length content + List.length tail)
           <? N.of_nat (List.length content)) with false
    by (symmetry; apply N.ltb_ge; lia).
  rewrite firstn_app, Nat.sub_diag, firstn_all, firstn_O, app_nil_r.
  now rewrite skipn_app, Nat.sub_diag, skipn_all, skipn_O.
Qed.

Lemma length_flat_map_encode (x : item) (elems : list item) :
  In x elems -> (List.length (encode x) <= List.length (flat_map encode elems))%nat.
Proof.
  induction elems as [|y ys IH]; [contradiction|].
  cbn [flat_map]; rewrite length_app; intros [->|H]; [lia|].
  specialize (IH H); lia.
Qed.

Lemma decodeAll_flat_map (dec : bytes -> option (item * bytes))
    (elems : list item) (fuel : nat) :
  Forall (fun x => forall tail, dec (encode x ++ tail) = Some (x, tail)) elems ->
  (List.length (flat_map encode elems) <= fuel)%nat ->
  decodeAll dec fuel (flat_map encode elems) = Some elems.
Proof.
  intros Hall; revert fuel.
  induction Hall as [|x xs Hx _ IH]; intros fuel Hfuel; [now destruct fuel|].
  cbn [flat_map] in *.
  pose proof (encode_nonempty x) as Hne.
  rewrite length_app in Hfuel.
  destruct (encode x ++ flat_map encode xs) as [|c r] eqn:E.
  - apply (f_equal (@List.length byte)) in E; rewrite length_app in E; simpl in E; lia.
  - destruct fuel as [|fuel]; [lia|].
    cbn [decodeAll]; rewrite <- E, Hx, IH by lia; reflexivity.
Qed.

(** Decoding the encoding of a nested value gives the value back and leaves
    what followed it, whenever the fuel covers the encoding and its length
    fits the eight size digits of the format. *)
Lemma decode_encode (i : item) :
  forall (fuel : nat) (tail : bytes),
    (List.length (encode i) <= fuel)%nat ->
    N.of_nat (List.length (encode i)) < 2 ^ 64 ->
    decode fuel (encode i ++ tail) = Some (i, tail).
Proof.
  induction i as [content|elems IH] using item_nested_ind; intros fuel tail Hfuel Hsize.
  - pose proof (encode_nonempty (Str content)) as Hne.
    destruct fuel as [|fuel]; [lia|].
    cbn [encode decode] in *; unfold encodeString in *.
    destruct content as [|b [|c l]].
    + rewrite <- app_assoc, readKind_header_string by (simpl; lia).
      now rewrite (splitAt_app [] tail).
    + destruct (Byte.to_N b <? 128) eqn:E.
      * cbn [app readKind]; now rewrite E.
      * rewrite <- app_assoc, readKind_header_string by lia.
        change 1 with (N.of_nat (List.length [b])) at 1.
        rewrite (splitAt_app [b] tail); now rewrite E.
    + rewrite length_app in Hsize.
      rewrite <- app_assoc, readKind_header_string by lia.
      now rewrite splitAt_app.
  - pose proof (encode_nonempty (Lst elems)) as Hne.
    destruct fuel as [|fuel]; [lia|].
    cbn [encode decode] in *.
    rewrite length_app in Hsize, Hfuel.
    pose proof (header_nonempty 192 (N.of_nat (List.length (flat_map encode elems)))) as Hh.
    rewrite <- app_assoc, readKind_header_list by lia.
    rewrite splitAt_app, decodeAll_flat_map; [reflexivity| |lia].
    rewrite Forall_forall in IH |- *; intros x Hin tl.
    pose proof (length_flat_map_encode x elems Hin) as Hx.
    apply IH; [exact Hin|lia|lia].
Qed.

(** *** The typed layer *)

(** Modelled from the spec: the shape descriptor of a record type, that is
    how a value of the type is laid out as a nested value and read back from
    one.  [inRange] is what the Go type guarantees of the value (a uint64 is
    below 2^64). *)
Class Codec (T : Type) : Type := {
  toItem : T -> item;
  fromItem : item -> option T;
  inRange : T -> Prop;
  fromItem_toItem : forall x, inRange x -> fromItem (toItem x) = Some x
}.

(** Modelled from the spec: the fields of a struct, in declaration order. *)
Class Fields (T : Type) : Type := {
  toFields : T -> list item;
  fromFields : list item -> option T;
  fieldsInRange : T -> Prop;
  fromFields_toFields : forall x, fieldsInRange x -> fromFields (toFields x) = Some x
}.

(** Modelled from the spec: a uint64 field, at most eight digits and no
    leading zero. *)
Definition uintFromItem (i : item) : option N :=
  match i with
  | Str digits =>
      if (8 <? List.length digits)%nat then None
      else match digits with
           | [] => Some 0
           | b :: _ => if Byte.to_N b =? 0 then None else Some (fromBigEndian digits)
           end
  | Lst _ => None
  end.

Lemma uintFromItem_putUint (n : N) : n < 2 ^ 64 -> uintFromItem (Str (putUint n)) = Some n.
Proof.
  intros H; unfold uintFromItem.
  pose proof (length_putUint n) as Hlen.
  pose proof (fromBigEndian_putUint n H) as Hv.
  replace (8 <? List.length (putUint n))%nat with false
    by (symmetry; apply Nat.ltb_ge; exact Hlen).
  destruct (putUint n) as [|b l] eqn:E.
  - cbn in Hv; now subst n.
  - unfold putUint in E; apply dropZeros_head in E.
    apply N.eqb_neq in E; now rewrite E, Hv.
Qed.

#[global] Instance uint64Codec : Codec N := {|
  toItem n := Str (putUint n);
  fromItem := uintFromItem;
  inRange n := n < 2 ^ 64;
  fromItem_toItem := uintFromItem_putUint
|}.

(** Modelled from the spec: a []byte field is a byte string. *)
Definition bytesFromItem (i : item) : option bytes :=
  match i with
  | Str content => Some content
  | Lst _ => None
  end.

#[global] Instance bytesCodec : Codec bytes := {|
  toItem := Str;
  fromItem := bytesFromItem;
  inRange _ := True;
  fromItem_toItem _ _ := eq_refl
|}.

(** Modelled from the spec: a string field is the byte string of its
    bytes. *)
Definition stringFromItem (i : item) : option string :=
  match i with
  | Str content => Some (string_of_list_byte content)
  | Lst _ => None
  end.

Lemma stringFromItem_bytesOf (s : string) : True -> stringFromItem (Str (bytesOf s)) = Some s.
Proof. intros _; unfold bytesOf; cbn; now rewrite string_of_list_byte_of_string. Qed.

#[global] Instance stringCodec : Codec string := {|
  toItem s := Str (bytesOf s);
  fromItem := stringFromItem;
  inRange _ := True;
  fromItem_toItem := stringFromItem_bytesOf
|}.

(** Modelled from the spec: a field of type interface{} or rlp.RawValue
    keeps the nested value. *)
#[global] Instance rawCodec : Codec item := {|
  toItem i := i;
  fromItem := Some;
  inRange _ := True;
  fromItem_toItem _ _ := eq_refl
|}.

(** Modelled from the spec: a slice is the list of its elements. *)
Fixpoint allFromItems {T : Type} (f : item -> option T) (l : list item) : option (list T) :=
  match l with
  | [] => Some []
  | i :: l' =>
      match f i, allFromItems f l' with
      | Some x, Some xs => Some (x :: xs)
      | _, _ => None
      end
  end.

(** Modelled from the spec: a slice field. *)
Definition sliceFromItem {T : Type} `{Codec T} (i : item) : option (list T) :=
  match i with
  | Str _ => None
  | Lst elems => allFromItems fromItem elems
  end.

Lemma sliceFromItem_map {T : Type} `{Codec T} (l : list T) :
  Forall inRange l -> sliceFromItem (Lst (map toItem l)) = Some l.
Proof.
  intros Hall; cbn [sliceFromItem].
  induction Hall as [|x xs Hx _ IH]; [reflexivity|].
  cbn [map allFromItems]; now rewrite (fromItem_toItem x Hx), IH.
Qed.

#[global] Instance sliceCodec {T : Type} `{Codec T} : Codec (list T) | 10 := {|
  toItem l := Lst (map toItem l);
  fromItem := sliceFromItem;
  inRange := Forall inRange;
  fromItem_toItem := sliceFromItem_map
|}.

(** Modelled from the spec: a struct is the list of its fields; a list with
    fewer or more elements than the struct has fields does not decode. *)
Definition unitFromFields (l : list item) : option unit :=
  match l with
  | [] => Some tt
  | _ :: _ => None
  end.

#[global] Instance noFields : Fields unit := {|
  toFields _ := [];
  fromFields := unitFromFields;
  fieldsInRange _ := True;
  fromFields_toFields x _ := match x with tt => eq_refl end
|}.

(** Modelled from the spec: the first field and the fields after it. *)
Definition consFromFields {A B : Type} `{Codec A} `{Fields B} (l : list item) : option (A * B) :=
  match l with
  | [] => None
  | i :: l' =>
      match fromItem i, fromFields l' with
      | Some a, Some b => Some (a, b)
      | _, _ => None
      end
  end.

Lemma consFromFields_ok {A B : Type} `{Codec A} `{Fields B} (x : A * B) :
  inRange (fst x) /\ fieldsInRange (snd x) ->
  consFromFields (toItem (fst x) :: toFields (snd x)) = Some x.
Proof.
  destruct x as [a b]; intros [Ha Hb]; cbn [consFromFields fst snd].
  now rewrite (fromItem_toItem a Ha), (fromFields_toFields b Hb).
Qed.

#[global] Instance consFields {A B : Type} `{Codec A} `{Fields B} : Fields (A * B) := {|
  toFields x := toItem (fst x) :: toFields (snd x);
  fromFields := consFromFields;
  fieldsInRange x := inRange (fst x) /\ fieldsInRange (snd x);
  fromFields_toFields := consFromFields_ok
|}.

(** Modelled from the spec: a Go struct type [R] whose fields, in order, are
    the components of [T]. *)
Definition structFromItem {R T : Type} `{Fields T} (build : T -> R) (i : item) : option R :=
  match i with
  | Str _ => None
  | Lst fields => option_map build (fromFields fields)
  end.

Lemma structFromItem_ok {R T : Type} `{Fields T} (fields : R -> T) (build : T -> R)
    (Hiso : forall r, build (fields r) = r) (r : R) :
  fieldsInRange (fields r) ->
  structFromItem build (Lst (toFields (fields r))) = Some r.
Proof.
  intros Hr; cbn [structFromItem].
  now rewrite (fromFields_toFields _ Hr); cbn; rewrite Hiso.
Qed.

(** Modelled from the spec: the shape descriptor of the struct type [R]. *)
Definition structCodec {R T : Type} `{Fields T} (fields : R -> T) (build : T -> R)
    (Hiso : forall r, build (fields r) = r) : Codec R := {|
  toItem r := Lst (toFields (fields r));
  fromItem := structFromItem build;
  inRange r := fieldsInRange (fields r);
  fromItem_toItem := structFromItem_ok fields build Hiso
|}.

(** Modelled from the spec: an anonymous struct nested in a field, such as
    [Payload]. *)
Record Struct (T : Type) : Type := Fieldwise { fieldsOf : T }.
Arguments Fieldwise {T} fieldsOf.
Arguments fieldsOf {T} s.

#[global] Instance nestedCodec {T : Type} `{Fields T} : Codec (Struct T) :=
  structCodec fieldsOf Fieldwise (fun r => match r with Fieldwise _ => eq_refl end).

(** Modelled from the spec: rlp.EncodeToBytes, [encode(record) -> bytes]. *)
Definition EncodeToBytes {T : Type} `{Codec T} (val : T) : bytes :=
  encode (toItem val).

(** Modelled from the spec: rlp.NewStream(bytes.NewReader(buffer), 0) followed
    by Stream.Decode, [decode(bytes) -> record]: the first nested value of the
    buffer is read and laid into the target type; bytes after it stay unread
    in the stream. *)
Definition Decode {T : Type} `{Codec T} (buffer : bytes) : option T :=
  match decode (List.length buffer) buffer with
  | Some (i, _) => fromItem i
  | None => None
  end.

(** Bytes that follow the encoded record do not disturb the decoder. *)
Lemma Decode_EncodeToBytes_app {T : Type} `{Codec T} (val : T) (tail : bytes) :
  inRange val ->
  N.of_nat (List.length (EncodeToBytes val)) < 2 ^ 64 ->
  Decode (EncodeToBytes val ++ tail) = Some val.
Proof.
  intros Hr Hsize; unfold Decode, EncodeToBytes in *.
  rewrite decode_encode; [now apply fromItem_toItem| |exact Hsize].
  rewrite length_app; lia.
Qed.

(** *** Decoding in place *)

(** Modelled from the spec: Stream.Decode, which is not among the sources,
    seen from a caller that reads its target after a failed decode.  The
    spec has a failed decode name the offending field and forbids callers
    to recover the part read before it: the decoder fills its target field
    by field, in wire order, and what it stored before the offending field
    stays stored.  [progress] is what reading one value at the front of a
    list payload comes to. *)
Inductive progress : Type :=
| Read (rest : bytes)   (* the value is stored; [rest] follows it in the payload *)
| EndOfList             (* the payload is used up and nothing was read *)
| Broken.               (* malformed, cut short or of another kind: the decoder stops *)

(** Modelled from the spec: a type the decoder can fill, with the value a
    fresh slot of that type holds. *)
Class Filler (T : Type) : Type := {
  blank : T;
  fill : T -> bytes -> T * progress
}.

(** Modelled from the spec: a value without parts (an integer, a string, a
    byte slice, a raw nested value) is stored whole or not at all. *)
Definition fillValue {T : Type} `{Codec T} (target : T) (payload : bytes) : T * progress :=
  match payload with
  | [] => (target, EndOfList)
  | _ :: _ =>
      match decode (List.length payload) payload with
      | Some (i, rest) =>
          match fromItem i with
          | Some value => (value, Read rest)
          | None => (target, Broken)
          end
      | None => (target, Broken)
      end
  end.

#[global] Instance uint64Filler : Filler N := {| blank := 0; fill := fillValue |}.
#[global] Instance bytesFiller : Filler bytes := {| blank := []; fill := fillValue |}.
#[global] Instance stringFiller : Filler string :=
  {| blank := EmptyString; fill := fillValue |}.
#[global] Instance rawFiller : Filler item := {| blank := Str []; fill := fillValue |}.

(** Modelled from the spec: the elements of a slice are filled one after the
    other.  The slot of an element is made before the element is read: when
    the payload ends there the slot is taken back, and when the element is
    the offending one the slot stays, holding what the element's decoder
    left in it.  [stored] are the elements read so far and [pending] what
    the target held from this index on. *)
Fixpoint fillElems {T : Type} `{Filler T} (fuel : nat) (stored pending : list T)
    (payload : bytes) : list T * bool :=
  match fuel with
  | O => (stored ++ pending, false)
  | S fuel' =>
      match fill (hd blank pending) payload with
      | (_, EndOfList) => (stored, true)
      | (value, Read rest) => fillElems fuel' (stored ++ [value]) (tl pending) rest
      | (value, Broken) => (stored ++ value :: tl pending, false)
      end
  end.

(** Modelled from the spec: a slice field; every element uses up at least
    one byte of the payload, so its length and one is fuel enough. *)
Definition fillSlice {T : Type} `{Filler T} (target : list T) (payload : bytes)
  : list T * progress :=
  match payload with
  | [] => (target, EndOfList)
  | _ :: _ =>
      match readKind payload with
      | Some (KList size, rest) =>
          match splitAt size rest with
          | None => (target, Broken)
          | Some (elems, rest') =>
              let (stored, complete) :=
                fillElems (S (List.length elems)) [] target elems in
              (stored, if complete then Read rest' else Broken)
          end
      | _ => (target, Broken)
      end
  end.

#[global] Instance sliceFiller {T : Type} `{Filler T} : Filler (list T) :=
  {| blank := []; fill := fillSlice |}.

(** Modelled from the spec: the fields of a struct, filled in declaration
    order from the payload of its list; false when a field is missing or
    offending, or when elements are left over after the last field. *)
Class FieldsFiller (T : Type) : Type := {
  blankFields : T;
  fillFields : T -> bytes -> T * bool
}.

#[global] Instance noFieldsFiller : FieldsFiller unit := {|
  blankFields := tt;
  fillFields target payload :=
    (target, match payload with [] => true | _ :: _ => false end)
|}.

Definition fillCons {A B : Type} `{Filler A} `{FieldsFiller B} (target : A * B)
    (payload : bytes) : (A * B) * bool :=
  match fill (fst target) payload with
  | (first, Read rest) =>
      let (others, complete) := fillFields (snd target) rest in
      ((first, others), complete)
  | (first, _) => ((first, snd target), false)
  end.

#[global] Instance consFieldsFiller {A B : Type} `{Filler A} `{FieldsFiller B}
  : FieldsFiller (A * B) := {| blankFields := (blank, blankFields); fillFields := fillCons |}.

(** Modelled from the spec: a struct is entered only when its list header is
    well formed and its payload is all there. *)
Definition fillStruct {T : Type} `{FieldsFiller T} (target : Struct T) (payload : bytes)
  : Struct T * progress :=
  match payload with
  | [] => (target, EndOfList)
  | _ :: _ =>
      match readKind payload with
      | Some (KList size, rest) =>
          match splitAt size rest with
          | None => (target, Broken)
          | Some (fields, rest') =>
              let (filled, complete) := fillFields (fieldsOf target) fields in
              (Fieldwise filled, if complete then Read rest' else Broken)
          end
      | _ => (target, Broken)
      end
  end.

#[global] Instance structFiller {T : Type} `{FieldsFiller T} : Filler (Struct T) :=
  {| blank := Fieldwise blankFields; fill := fillStruct |}.

(** Modelled from the spec: rlp.NewStream(bytes.NewReader(buffer), 0)
    followed by Stream.Decode(&target): the target after the call, and
    whether the decoder reported no error. *)
Definition DecodeInPlace {T : Type} `{Filler T} (target : T) (buffer : bytes) : T * bool :=
  match fill target buffer with
  | (filled, Read _) => (filled, true)
  | (filled, _) => (filled, false)
  end.

End rlp.

(** ** The edge package: errors, markers and records *)

Local Open Scope string_scope.
Local Open Scope list_scope.
Local Open Scope N_scope.

Inductive error : Type :=
| errWrongTypeForItems          (* "items should be array or slice" *)
| errKeyNotFoundInItems         (* "key not found" *)
| ErrFailedToParseTicket        (* "failed to parse ticket" *)
| ErrResponseHandlerNotFound    (* "couldn't find handler for response" *)
| ErrRPCNotSupport              (* "rpc method not support" *)
| ErrTicketTooLow               (* declared elsewhere in the package *)
| ErrTicketTooOld               (* declared elsewhere in the package *)
| ErrBlockhashMismatch (blockHash : bytes)
                                (* fmt.Errorf("Blockhash != real hash %v %v", ...) *)
| ErrForeign (msg : string).    (* an error of rlp, blockquick or the merkle tree parser *)

(** Go's [(value, error)] result pair; [None] is nil. *)
Definition result (A : Type) : Type := (option A * option error)%type.

(** A call that either returns or panics (a failed type assertion, an index
    out of range). *)
Inductive outcome (A : Type) : Type :=
| Returns (a : A)
| Panics.
Arguments Returns {A} a.
Arguments Panics {A}.

Definition bind {A B : Type} (o : outcome A) (k : A -> outcome B) : outcome B :=
  match o with
  | Returns a => k a
  | Panics => Panics
  end.

Notation "x <- e ;; k" := (bind e (fun x => k))
  (at level 61, e at next level, right associativity).

Definition responsePivot : bytes := bytesOf "response".
Definition errorPivot : bytes := bytesOf "error".
Definition ticketTooOldPivot : bytes := bytesOf "too_old".
Definition ticketTooLowPivot : bytes := bytesOf "too_low".
Definition ticketThanksPivot : bytes := bytesOf "thanks!".
Definition portOpenPivot : bytes := bytesOf "portopen".
Definition portSendPivot : bytes := bytesOf "portsend".
Definition portClosePivot : bytes := bytesOf "portclose".
Definition goodbyePivot : bytes := bytesOf "goodbye".
Definition blockPivot : bytes := bytesOf "getblock".
Definition block2Pivot : bytes := bytesOf "getblock2".
Definition blockHeaderPivot : bytes := bytesOf "getblockheader".
Definition blockHeader2Pivot : bytes := bytesOf "getblockheader2".
Definition blockquickPivot : bytes := bytesOf "getblockquick".
Definition blockquick2Pivot : bytes := bytesOf "getblockquick2".
Definition blockPeakPivot : bytes := bytesOf "getblockpeak".
Definition accountRootsPivot : bytes := bytesOf "getaccountroots".
Definition accountValuePivot : bytes := bytesOf "getaccountvalue".
Definition accountPivot : bytes := bytesOf "getaccount".
Definition stateRootsPivot : bytes := bytesOf "getstateroots".
Definition objectPivot : bytes := bytesOf "getobject".
Definition nodePivot : bytes := bytesOf "getnode".
Definition ticketPivot : bytes := bytesOf "getticket".
Definition helloPivot : bytes := bytesOf "hello".
Definition okPivot : bytes := bytesOf "ok".

(** The method tokens of the wire-format interface, as the spec lists them. *)
Definition methodTokens : list string :=
  [ "hello"; "portopen"; "portsend"; "portclose"; "goodbye";
    "getblock"; "getblock2"; "getblockheader"; "getblockheader2";
    "getblockquick"; "getblockquick2"; "getblockpeak";
    "getaccount"; "getaccountvalue"; "getaccountroots"; "getstateroots";
    "getobject"; "getnode"; "ticket" ].

(** *** Request records

    The struct declarations are in another file of the package; the fields
    are those NewMessage and NewResponseMessage assign, in the order they
    assign them, [RequestID] first and the fields of [Payload] after it. *)

Record helloRequest := {
  hello_RequestID : N; hello_Method : string; hello_Flag : N }.
Record portSendRequest := {
  portSend_RequestID : N; portSend_Method : string;
  portSend_Ref : N; portSend_Data : bytes }.
Record portCloseRequest := {
  portClose_RequestID : N; portClose_Method : string; portClose_Ref : N }.
Record blockRequest := {
  block_RequestID : N; block_Method : string; block_BlockNumber : N }.
Record blockPeakRequest := {
  blockPeak_RequestID : N; blockPeak_Method : string }.
Record blockHeaderRequest := {
  blockHeader_RequestID : N; blockHeader_Method : string; blockHeader_BlockNumber : N }.
Record blockquickRequest := {
  blockquick_RequestID : N; blockquick_Method : string;
  blockquick_LastValid : N; blockquick_WindowSize : N }.
Record accountRequest := {
  account_RequestID : N; account_Method : string;
  account_BlockNumber : N; account_Address : bytes }.
Record accountRootsRequest := {
  accountRoots_RequestID : N; accountRoots_Method : string;
  accountRoots_BlockNumber : N; accountRoots_Address : bytes }.
Record accountValueRequest := {
  accountValue_RequestID : N; accountValue_Method : string;
  accountValue_BlockNumber : N; accountValue_Address : bytes; accountValue_Key : bytes }.
Record ticketRequest := {
  ticket_RequestID : N; ticket_Method : string;
  ticket_BlockNumber : N; ticket_FleetAddr : bytes;
  ticket_TotalConnections : N; ticket_TotalBytes : N;
  ticket_LocalAddr : bytes; ticket_DeviceSig : bytes }.
Record portOpenRequest := {
  portOpen_RequestID : N; portOpen_Method : string;
  portOpen_DeviceID : bytes; portOpen_Port : N; portOpen_Mode : string }.
Record objectRequest := {
  object_RequestID : N; object_Method : string; object_DeviceID : bytes }.
Record serverObjectRequest := {
  serverObject_RequestID : N; serverObject_Method : string; serverObject_ServerID : bytes }.
Record stateRootsRequest := {
  stateRoots_RequestID : N; stateRoots_Method : string; stateRoots_BlockNumber : N }.
Record portOpenOutboundResponse := {
  portOpenOut_RequestID : N; portOpenOut_ResponseType : string;
  portOpenOut_Ref : N; portOpenOut_Result : string }.

(** The shape descriptors of the request records (modelled from the spec,
    as the rlp layer is: a struct is the list of its fields). *)

#[global] Instance helloRequestCodec : rlp.Codec helloRequest :=
  rlp.structCodec
    (fun r => (hello_RequestID r, (rlp.Fieldwise (hello_Method r, (hello_Flag r, tt)), tt)))
    (fun '(id, (rlp.Fieldwise (m, (flag, tt)), tt)) => Build_helloRequest id m flag)
    (fun r => match r with Build_helloRequest _ _ _ => eq_refl end).

#[global] Instance portSendRequestCodec : rlp.Codec portSendRequest :=
  rlp.structCodec
    (fun r => (portSend_RequestID r,
               (rlp.Fieldwise (portSend_Method r, (portSend_Ref r, (portSend_Data r, tt))), tt)))
    (fun '(id, (rlp.Fieldwise (m, (ref, (data, tt))), tt)) => Build_portSendRequest id m ref data)
    (fun r => match r with Build_portSendRequest _ _ _ _ => eq_refl end).

#[global] Instance portCloseRequestCodec : rlp.Codec portCloseRequest :=
  rlp.structCodec
    (fun r => (portClose_RequestID r, (rlp.Fieldwise (portClose_Method r, (portClose_Ref r, tt)), tt)))
    (fun '(id, (rlp.Fieldwise (m, (ref, tt)), tt)) => Build_portCloseRequest id m ref)
    (fun r => match r with Build_portCloseRequest _ _ _ => eq_refl end).

#[global] Instance blockRequestCodec : rlp.Codec blockRequest :=
  rlp.structCodec
    (fun r => (block_RequestID r, (rlp.Fieldwise (block_Method r, (block_BlockNumber r, tt)), tt)))
    (fun '(id, (rlp.Fieldwise (m, (n, tt)), tt)) => Build_blockRequest id m n)
    (fun r => match r with Build_blockRequest _ _ _ => eq_refl end).

#[global] Instance blockPeakRequestCodec : rlp.Codec blockPeakRequest :=
  rlp.structCodec
    (fun r => (blockPeak_RequestID r, (rlp.Fieldwise (blockPeak_Method r, tt), tt)))
    (fun '(id, (rlp.Fieldwise (m, tt), tt)) => Build_blockPeakRequest id m)
    (fun r => match r with Build_blockPeakRequest _ _ => eq_refl end).

#[global] Instance blockHeaderRequestCodec : rlp.Codec blockHeaderRequest :=
  rlp.structCodec
    (fun r => (blockHeader_RequestID r,
               (rlp.Fieldwise (blockHeader_Method r, (blockHeader_BlockNumber r, tt)), tt)))
    (fun '(id, (rlp.Fieldwise (m, (n, tt)), tt)) => Build_blockHeaderRequest id m n)
    (fun r => match r with Build_blockHeaderRequest _ _ _ => eq_refl end).

#[global] Instance blockquickRequestCodec : rlp.Codec blockquickRequest :=
  rlp.structCodec
    (fun r => (blockquick_RequestID r,
               (rlp.Fieldwise (blockquick_Method r,
                               (blockquick_LastValid r, (blockquick_WindowSize r, tt))), tt)))
    (fun '(id, (rlp.Fieldwise (m, (lv, (ws, tt))), tt)) => Build_blockquickRequest id m lv ws)
    (fun r => match r with Build_blockquickRequest _ _ _ _ => eq_refl end).

#[global] Instance accountRequestCodec : rlp.Codec accountRequest :=
  rlp.structCodec
    (fun r => (account_RequestID r,
               (rlp.Fieldwise (account_Method r,
                               (account_BlockNumber r, (account_Address r, tt))), tt)))
    (fun '(id, (rlp.Fieldwise (m, (n, (a, tt))), tt)) => Build_accountRequest id m n a)
    (fun r => match r with Build_accountRequest _ _ _ _ => eq_refl end).

#[global] Instance accountRootsRequestCodec : rlp.Codec accountRootsRequest :=
  rlp.structCodec
    (fun r => (accountRoots_RequestID r,
               (rlp.Fieldwise (accountRoots_Method r,
                               (accountRoots_BlockNumber r, (accountRoots_Address r, tt))), tt)))
    (fun '(id, (rlp.Fieldwise (m, (n, (a, tt))), tt)) => Build_accountRootsRequest id m n a)
    (fun r => match r with Build_accountRootsRequest _ _ _ _ => eq_refl end).

#[global] Instance accountValueRequestCodec : rlp.Codec accountValueRequest :=
  rlp.structCodec
    (fun r => (accountValue_RequestID r,
               (rlp.Fieldwise (accountValue_Method r,
                               (accountValue_BlockNumber r,
                                (accountValue_Address r, (accountValue_Key r, tt)))), tt)))
    (fun '(id, (rlp.Fieldwise (m, (n, (a, (k, tt)))), tt)) =>
       Build_accountValueRequest id m n a k)
    (fun r => match r with Build_accountValueRequest _ _ _ _ _ => eq_refl end).

#[global] Instance ticketRequestCodec : rlp.Codec ticketRequest :=
  rlp.structCodec
    (fun r => (ticket_RequestID r,
               (rlp.Fieldwise (ticket_Method r,
                               (ticket_BlockNumber r,
                                (ticket_FleetAddr r,
                                 (ticket_TotalConnections r,
                                  (ticket_TotalBytes r,
                                   (ticket_LocalAddr r, (ticket_DeviceSig r, tt))))))), tt)))
    (fun '(id, (rlp.Fieldwise (m, (n, (fa, (tc, (tb, (la, (ds, tt))))))), tt)) =>
       Build_ticketRequest id m n fa tc tb la ds)
    (fun r => match r with Build_ticketRequest _ _ _ _ _ _ _ _ => eq_refl end).

#[global] Instance portOpenRequestCodec : rlp.Codec portOpenRequest :=
  rlp.structCodec
    (fun r => (portOpen_RequestID r,
               (rlp.Fieldwise (portOpen_Method r,
                               (portOpen_DeviceID r, (portOpen_Port r, (portOpen_Mode r, tt)))), tt)))
    (fun '(id, (rlp.Fieldwise (m, (d, (port, (mode, tt)))), tt)) =>
       Build_portOpenRequest id m d port mode)
    (fun r => match r with Build_portOpenRequest _ _ _ _ _ => eq_refl end).

#[global] Instance objectRequestCodec : rlp.Codec objectRequest :=
  rlp.structCodec
    (fun r => (object_RequestID r, (rlp.Fieldwise (object_Method r, (object_DeviceID r, tt)), tt)))
    (fun '(id, (rlp.Fieldwise (m, (d, tt)), tt)) => Build_objectRequest id m d)
    (fun r => match r with Build_objectRequest _ _ _ => eq_refl end).

#[global] Instance serverObjectRequestCodec : rlp.Codec serverObjectRequest :=
  rlp.structCodec
    (fun r => (serverObject_RequestID r,
               (rlp.Fieldwise (serverObject_Method r, (serverObject_ServerID r, tt)), tt)))
    (fun '(id, (rlp.Fieldwise (m, (sid, tt)), tt)) => Build_serverObjectRequest id m sid)
    (fun r => match r with Build_serverObjectRequest _ _ _ => eq_refl end).

#[global] Instance stateRootsRequestCodec : rlp.Codec stateRootsRequest :=
  rlp.structCodec
    (fun r => (stateRoots_RequestID r,
               (rlp.Fieldwise (stateRoots_Method r, (stateRoots_BlockNumber r, tt)), tt)))
    (fun '(id, (rlp.Fieldwise (m, (n, tt)), tt)) => Build_stateRootsRequest id m n)
    (fun r => match r with Build_stateRootsRequest _ _ _ => eq_refl end).

#[global] Instance portOpenOutboundResponseCodec : rlp.Codec portOpenOutboundResponse :=
  rlp.structCodec
    (fun r => (portOpenOut_RequestID r,
               (rlp.Fieldwise (portOpenOut_ResponseType r,
                               (portOpenOut_Ref r, (portOpenOut_Result r, tt))), tt)))
    (fun '(id, (rlp.Fieldwise (ty, (ref, (res, tt))), tt)) =>
       Build_portOpenOutboundResponse id ty ref res)
    (fun r => match r with Build_portOpenOutboundResponse _ _ _ _ => eq_refl end).

(** *** Response records and parser results

    Of a response struct, which is declared in another file of the package,
    the records keep the fields the parsers read ([Payload.] is left out of
    the names). *)

Record Item := { Item_Key : string; Item_Value : bytes }.

(** The zero [Item] that findItemInItems returns with an error. *)
Definition zeroItem : Item := {| Item_Key := ""; Item_Value := [] |}.

Record blockPeakResponse := { blockPeak_BlockNumber : N }.
Record blockHeaderResponse := {
  blockHeader_Items : list Item; blockHeader_MinerPubkey : bytes }.
Record ticketTooLowResponse := {
  tooLow_BlockHash : bytes; tooLow_TotalConnections : N; tooLow_TotalBytes : N;
  tooLow_LocalAddr : bytes; tooLow_DeviceSig : bytes }.
Record objectResponse := {
  object_ServerID : bytes; object_PeakBlock : N; object_FleetAddr : bytes;
  object_TotalConnections : N; object_TotalBytes : N;
  object_DeviceSig : bytes; object_ServerSig : bytes; object_LocalAddr : bytes }.
Record accountResponse := {
  account_Items : list Item; account_MerkleProof : list rlp.item }.
Record accountRootsResponse := { accountRoots_AccountRoots : list bytes }.
Record accountValueResponse := { accountValue_MerkleProof : list rlp.item }.
Record portOpenResponse := { portOpen_Result : string; portOpen_Ref : N }.
Record serverObjectResponse := {
  serverObject_Host : bytes; serverObject_EdgePort : N;
  serverObject_ServerPort : N; serverObject_ServerSig : bytes }.
Record stateRootsResponse := { stateRoots_StateRoots : list bytes }.
Record portOpenInboundRequest := {
  portOpenIn_DeviceID : bytes; portOpenIn_Port : N; portOpenIn_Ref : N }.
Record portSendInboundRequest := { portSendIn_Ref : N; portSendIn_Data : bytes }.
Record portCloseInboundRequest := { portCloseIn_Ref : N }.
Record goodbyeInboundRequest := { goodbyeIn_Reason : string }.
Record errorResponse := { errorResponse_Payload : list string }.
Record responseID := { responseID_RequestID : N }.

Record blockquickResponse (Items : Type) := { blockquick_Items : Items }.
Arguments blockquick_Items {Items} b.

(** The zero values of [var response errorResponse] and [var response responseID]. *)
Definition zeroErrorResponse : errorResponse := {| errorResponse_Payload := [] |}.
Definition zeroResponseID : responseID := {| responseID_RequestID := 0 |}.

Record DeviceTicket := {
  ServerID : bytes;            (* [20]byte *)
  BlockNumber : Z;             (* int *)
  BlockHash : bytes;
  FleetAddr : bytes;           (* [20]byte *)
  TotalConnections : N;
  TotalBytes : N;
  LocalAddr : bytes;
  DeviceSig : bytes;
  ServerSig : bytes;
  Err : option error }.

(** The value of [[20]byte{}]. *)
Definition zero20 : bytes := repeat x00 20.

(** [DeviceTicket{}] *)
Definition zeroDeviceTicket : DeviceTicket := {|
  ServerID := zero20; BlockNumber := 0%Z; BlockHash := []; FleetAddr := zero20;
  TotalConnections := 0; TotalBytes := 0; LocalAddr := []; DeviceSig := [];
  ServerSig := []; Err := None |}.

(** [dst := [20]byte{}; copy(dst[:], src)] *)
Definition copy20 (src : bytes) : bytes :=
  firstn 20 src ++ repeat x00 (20 - List.length (firstn 20 src)).

(** The conversion [int(n)] of a uint64 on a 64-bit platform. *)
Definition intOfUint64 (n : N) : Z :=
  let z := Z.of_N (n mod 2 ^ 64) in
  if (z <? 2 ^ 63)%Z then z else (z - 2 ^ 64)%Z.

Record MerkleTreeLeave := { Leave_Key : bytes; Leave_Value : bytes }.

Record MerkleTree := {
  RawTree : list rlp.item;
  RootHash : bytes;
  Module : N;
  Leaves : list MerkleTreeLeave }.

Record Account := {
  StorageRoot : bytes; Nonce : Z; Code : bytes; Balance : Z; stateTree : MerkleTree }.
Record AccountRoots := { AccountRoots_AccountRoots : list bytes }.
Record AccountValue := { accountTree : MerkleTree }.
Record StateRoots := { StateRoots_StateRoots : list bytes }.
Record PortOpen := {
  PortOpen_Port : N; PortOpen_Ref : N; PortOpen_RawDeviceID : bytes;
  PortOpen_DeviceID : string; PortOpen_Ok : bool }.
Record PortSend := { PortSend_Ref : N; PortSend_Data : bytes; PortSend_Ok : bool }.
Record PortClose := { PortClose_Ref : N; PortClose_Ok : bool }.
Record Goodbye := { Goodbye_Reason : string }.
Record ServerObj := {
  ServerObj_Host : bytes; ServerObj_EdgePort : N;
  ServerObj_ServerPort : N; ServerObj_Sig : bytes }.
Record Error := { Error_Message : string }.

(** [decodeStream := rlp.NewStream(bytes.NewReader(buffer), 0)] followed by
    [decodeStream.Decode(&response)], for a target of type [T], in a
    function that returns at once when the decoder reports an error and so
    never reads the target of a failed decode.  The rlp package is not among
    the sources: a decoder is any function that yields the decoded record or
    the error. *)
Class Decoder (T : Type) : Type := Decode : bytes -> error + T.

(** The same two statements in a function that drops the error and reads the
    target all the same.  The decoder writes the target it is handed as it
    reads the stream, so a decoder is any function from the target before
    the call and the buffer to the target after the call and the error:
    after a failed decode the target holds whatever the decoder had stored
    in it. *)
Class InPlaceDecoder (T : Type) : Type :=
  DecodeInPlace : T -> bytes -> T * option error.

(** [_ = decodeStream.Decode(&response)] on a target declared at [zero]: the
    target after the call. *)
Definition decodeInto {T : Type} {decoder : InPlaceDecoder T} (zero : T) (buffer : bytes)
  : T :=
  fst (DecodeInPlace zero buffer).

(** util.EncodeToString: ["0x" + hex.EncodeToString(src)]. *)
Definition hexDigit (n : N) : ascii :=
  match String.get (N.to_nat n) "0123456789abcdef" with
  | Some c => c
  | None => "0"%char
  end.

Fixpoint hexEncode (src : bytes) : string :=
  match src with
  | [] => ""
  | b :: src' =>
      String (hexDigit (Byte.to_N b / 16))
        (String (hexDigit (Byte.to_N b mod 16)) (hexEncode src'))
  end.

Definition EncodeToString (src : bytes) : string := String.append "0x" (hexEncode src).

(** The dynamic values of NewMessage's [args ...interface{}]; [ArgOther] is a
    value of any type the method cases do not assert. *)
Inductive arg : Type :=
| ArgUint64 (n : N)
| ArgBytes (b : bytes)
| ArgString (s : string)
| ArgOther.

(** [args[i].(uint64)], [args[i].([]byte)] and [args[i].(string)]: an index
    out of range or a value of another type panics. *)
Definition argUint64 (args : list arg) (i : nat) : outcome N :=
  match nth_error args i with
  | Some (ArgUint64 n) => Returns n
  | _ => Panics
  end.

Definition argBytes (args : list arg) (i : nat) : outcome bytes :=
  match nth_error args i with
  | Some (ArgBytes b) => Returns b
  | _ => Panics
  end.

Definition argString (args : list arg) (i : nat) : outcome string :=
  match nth_error args i with
  | Some (ArgString s) => Returns s
  | _ => Panics
  end.

(** The index expression [s[i]] with a signed index: outside [0, len(s))
    it panics. *)
Definition index {A : Type} (s : list A) (i : Z) : outcome A :=
  if (i <? 0)%Z then Panics
  else match nth_error s (Z.to_nat i) with
       | Some x => Returns x
       | None => Panics
       end.

(** The type a method case asserts of an argument. *)
Inductive argType : Type := TUint64 | TBytes | TString.

Definition hasType (t : argType) (a : arg) : bool :=
  match t, a with
  | TUint64, ArgUint64 _ => true
  | TBytes, ArgBytes _ => true
  | TString, ArgString _ => true
  | _, _ => false
  end.

(** The leading arguments have the asserted types; NewMessage never looks
    at arguments beyond them. *)
Fixpoint wellTyped (sig : list argType) (args : list arg) : bool :=
  match sig with
  | [] => true
  | t :: sig' =>
      match args with
      | [] => false
      | a :: args' => hasType t a && wellTyped sig' args'
      end
  end.

(** The methods NewMessage has a case for, each with the types its case
    asserts of args[0], args[1], ... *)
Definition requestSignature (method : string) : option (list argType) :=
  if String.eqb method "hello" then Some [TUint64]
  else if String.eqb method "portsend" then Some [TUint64; TBytes]
  else if String.eqb method "portclose" then Some [TUint64]
  else if String.eqb method "getblock" then Some [TUint64]
  else if String.eqb method "getblockpeak" then Some []
  else if String.eqb method "getblockheader2" then Some [TUint64]
  else if String.eqb method "getblockquick2" then Some [TUint64; TUint64]
  else if String.eqb method "getaccount" then Some [TUint64; TBytes]
  else if String.eqb method "getaccountroots" then Some [TUint64; TBytes]
  else if String.eqb method "getaccountvalue" then Some [TUint64; TBytes; TBytes]
  else if String.eqb method "ticket"
       then Some [TUint64; TBytes; TUint64; TUint64; TBytes; TBytes]
  else if String.eqb method "portopen" then Some [TBytes; TUint64; TString]
  else if String.eqb method "getobject" then Some [TBytes]
  else if String.eqb method "getnode" then Some [TBytes]
  else if String.eqb method "getstateroots" then Some [TUint64]
  else None.

(** Modelled from the spec: rlp.EncodeToBytes with its error result; on the
    request structs, whose fields are uint64, string and []byte, the encoder
    has no failing case. *)
Definition EncodeToBytes {T : Type} `{rlp.Codec T} (val : T) : bytes * option error :=
  (rlp.EncodeToBytes val, None).

(** Membership in a list given by its elements. *)
Ltac in_list := cbn [In]; repeat (first [left; reflexivity | right]).

(** ** The protocol engine RLP_V2 *)

Section RLP_V2.

Set Default Proof Using "Type".

(** Response structs no parser reads a field of, and the types of the
    packages blockquick and secp256k1. *)
Context {blockResponse blockquickItems ticketThanksResponse ticketTooOldResponse : Type}.
Context {Header : Type}.

Context {decodeBlockPeak : Decoder blockPeakResponse}
        {decodeBlock : Decoder blockResponse}
        {decodeBlockHeader : Decoder blockHeaderResponse}
        {decodeBlockquick : Decoder (blockquickResponse blockquickItems)}
        {decodeTicketThanks : Decoder ticketThanksResponse}
        {decodeTicketTooLow : Decoder ticketTooLowResponse}
        {decodeTicketTooOld : Decoder ticketTooOldResponse}
        {decodeObject : Decoder objectResponse}
        {decodeAccount : Decoder accountResponse}
        {decodeAccountRoots : Decoder accountRootsResponse}
        {decodeAccountValue : Decoder accountValueResponse}
        {decodePortOpen : Decoder portOpenResponse}
        {decodeServerObject : Decoder serverObjectResponse}
        {decodeStateRoots : Decoder stateRootsResponse}
        {decodePortOpenInbound : Decoder portOpenInboundRequest}
        {decodePortSendInbound : Decoder portSendInboundRequest}
        {decodePortCloseInbound : Decoder portCloseInboundRequest}
        {decodeGoodbyeInbound : Decoder goodbyeInboundRequest}
        {decodeError : InPlaceDecoder errorResponse}
        {decodeResponseID : InPlaceDecoder responseID}.

(** Functions of the package and of its collaborators that are not among the
    sources: findItemInItems (with the zero Item beside an error),
    secp256k1.DecompressPubkeyBytes, blockquick.NewHeader and Header.Hash,
    util.DecodeBytesToUint and util.DecodeBytesToInt, and MerkleTree.parse. *)
Variable findItemInItems : list Item -> string -> Item * option error.
Variable DecompressPubkeyBytes : bytes -> bytes.
Variable NewHeader : bytes -> bytes -> bytes -> bytes -> bytes -> N -> N -> N -> error + Header.
Variable HeaderHash : Header -> bytes.
Variable DecodeBytesToUint : bytes -> N.
Variable DecodeBytesToInt : bytes -> Z.
Variable parseTree : list rlp.item -> error + (bytes * N * list MerkleTreeLeave).

(** The values the parsers return as [interface{}]. *)
Inductive any : Type :=
| AnyUint64 (n : N)
| AnyBlockResponse (response : blockResponse)
| AnyHeader (header : Header)
| AnyBlockquickItems (items : blockquickItems)
| AnyDeviceTicket (ticket : DeviceTicket)
| AnyDeviceTicketRef (ticket : DeviceTicket)
| AnyAccount (account : Account)
| AnyAccountRoots (roots : AccountRoots)
| AnyAccountValue (value : AccountValue)
| AnyPortOpen (portOpen : PortOpen)
| AnyServerObj (serverObj : ServerObj)
| AnyStateRoots (roots : StateRoots)
| AnyPortSend (portSend : PortSend)
| AnyPortClose (portClose : PortClose)
| AnyGoodbye (goodbye : Goodbye).

(** [func(buffer []byte) (interface{}, error)] *)
Definition parser : Type := bytes -> result any.

Definition parseError (buffer : bytes) : outcome (Error * option error) :=
  let response := decodeInto zeroErrorResponse buffer in
  let payload := errorResponse_Payload response in
  message <- index payload (Z.of_nat (List.length payload) - 1) ;;
  Returns ({| Error_Message := message |}, None).

Definition parseBlockPeakResponse (buffer : bytes) : result any :=
  match Decode (T := blockPeakResponse) buffer with
  | inl err => (None, Some err)
  | inr response => (Some (AnyUint64 (blockPeak_BlockNumber response)), None)
  end.

Definition parseBlockResponse (buffer : bytes) : result any :=
  match Decode (T := blockResponse) buffer with
  | inl err => (None, Some err)
  | inr response => (Some (AnyBlockResponse response), None)
  end.

Definition parseBlockHeaderResponse (buffer : bytes) : result any :=
  match Decode (T := blockHeaderResponse) buffer with
  | inl err => (None, Some err)
  | inr response =>
      let items := blockHeader_Items response in
      let txHash := fst (findItemInItems items "transaction_hash") in
      let stateHash := fst (findItemInItems items "state_hash") in
      let blockHash := fst (findItemInItems items "block_hash") in
      let prevBlock := fst (findItemInItems items "previous_block") in
      let nonce := fst (findItemInItems items "nonce") in
      let minerSig := fst (findItemInItems items "miner_signature") in
      let timestamp := fst (findItemInItems items "timestamp") in
      let number := fst (findItemInItems items "number") in
      let dminerPubkey := DecompressPubkeyBytes (blockHeader_MinerPubkey response) in
      match NewHeader
              (Item_Value txHash)
              (Item_Value stateHash)
              (Item_Value prevBlock)
              (Item_Value minerSig)
              dminerPubkey
              (DecodeBytesToUint (Item_Value timestamp))
              (DecodeBytesToUint (Item_Value number))
              (DecodeBytesToUint (Item_Value nonce)) with
      | inl err => (None, Some err)
      | inr header =>
          let hash := HeaderHash header in
          if negb (bytesEqual hash (Item_Value blockHash))
          then (None, Some (ErrBlockhashMismatch (Item_Value blockHash)))
          else (Some (AnyHeader header), None)
      end
  end.

Definition parseBlockquickResponse (buffer : bytes) : result any :=
  match Decode (T := blockquickResponse blockquickItems) buffer with
  | inl err => (None, Some err)
  | inr response => (Some (AnyBlockquickItems (blockquick_Items response)), None)
  end.

Definition parseDeviceTicketResponse (buffer : bytes) : result any :=
  if contains buffer ticketThanksPivot then
    match Decode (T := ticketThanksResponse) buffer with
    | inl err => (None, Some err)
    | inr response =>
        let ticket := zeroDeviceTicket in
        (Some (AnyDeviceTicket ticket), None)
    end
  else if contains buffer ticketTooLowPivot then
    match Decode (T := ticketTooLowResponse) buffer with
    | inl err => (None, Some err)
    | inr response =>
        let err := ErrTicketTooLow in
        let ticket := {|
          ServerID := zero20;
          BlockNumber := 0%Z;
          BlockHash := tooLow_BlockHash response;
          FleetAddr := zero20;
          TotalConnections := tooLow_TotalConnections response;
          TotalBytes := tooLow_TotalBytes response;
          LocalAddr := tooLow_LocalAddr response;
          DeviceSig := tooLow_DeviceSig response;
          ServerSig := [];
          Err := Some err |} in
        (Some (AnyDeviceTicket ticket), None)
    end
  else if contains buffer ticketTooOldPivot then
    match Decode (T := ticketTooOldResponse) buffer with
    | inl err => (None, Some err)
    | inr response =>
        let err := ErrTicketTooOld in
        let ticket := {|
          ServerID := zero20;
          BlockNumber := 0%Z;
          BlockHash := [];
          FleetAddr := zero20;
          TotalConnections := 0;
          TotalBytes := 0;
          LocalAddr := [];
          DeviceSig := [];
          ServerSig := [];
          Err := Some err |} in
        (Some (AnyDeviceTicket ticket), None)
    end
  else (None, Some ErrFailedToParseTicket).

Definition parseDeviceObjectResponse (buffer : bytes) : result any :=
  match Decode (T := objectResponse) buffer with
  | inl err => (None, Some err)
  | inr response =>
      let serverID := copy20 (object_ServerID response) in
      let fleetAddr := copy20 (object_FleetAddr response) in
      let deviceObj := {|
        ServerID := serverID;
        BlockNumber := intOfUint64 (object_PeakBlock response);
        BlockHash := [];
        FleetAddr := fleetAddr;
        TotalConnections := object_TotalConnections response;
        TotalBytes := object_TotalBytes response;
        LocalAddr := object_LocalAddr response;
        DeviceSig := object_DeviceSig response;
        ServerSig := object_ServerSig response;
        Err := None |} in
      (Some (AnyDeviceTicketRef deviceObj), None)
  end.

(** NewMerkleTree: the tree keeps the raw proof; the parsed root, module and
    leaves are filled in only when parse succeeds. *)
Definition NewMerkleTree (rawTree : list rlp.item) : MerkleTree * option error :=
  let mt := {| RawTree := rawTree; RootHash := []; Module := 0; Leaves := [] |} in
  match parseTree rawTree with
  | inl err => (mt, Some err)
  | inr (rootHash, module, leaves) =>
      ({| RawTree := rawTree; RootHash := rootHash; Module := module; Leaves := leaves |},
       None)
  end.

Definition parseAccountResponse (buffer : bytes) : result any :=
  match Decode (T := accountResponse) buffer with
  | inl err => (None, Some err)
  | inr response =>
      let items := account_Items response in
      let storageRoot := fst (findItemInItems items "storageRoot") in
      let nonce := fst (findItemInItems items "nonce") in
      let code := fst (findItemInItems items "code") in
      let balance := fst (findItemInItems items "balance") in
      let dnonce := DecodeBytesToInt (Item_Value nonce) in
      let dbalance := DecodeBytesToInt (Item_Value balance) in
      match NewMerkleTree (account_MerkleProof response) with
      | (_, Some err) => (None, Some err)
      | (stateTree, None) =>
          let account := {|
            StorageRoot := Item_Value storageRoot;
            Nonce := dnonce;
            Code := Item_Value code;
            Balance := dbalance;
            stateTree := stateTree |} in
          (Some (AnyAccount account), None)
      end
  end.

Definition parseAccountRootsResponse (buffer : bytes) : result any :=
  match Decode (T := accountRootsResponse) buffer with
  | inl err => (None, Some err)
  | inr response =>
      let accountRoots := {|
        AccountRoots_AccountRoots := accountRoots_AccountRoots response |} in
      (Some (AnyAccountRoots accountRoots), None)
  end.

Definition parseAccountValueResponse (buffer : bytes) : result any :=
  match Decode (T := accountValueResponse) buffer with
  | inl err => (None, Some err)
  | inr response =>
      match NewMerkleTree (accountValue_MerkleProof response) with
      | (_, Some err) => (None, Some err)
      | (accountTree, None) =>
          let accountValue := {| accountTree := accountTree |} in
          (Some (AnyAccountValue accountValue), None)
      end
  end.

Definition parsePortOpenResponse (buffer : bytes) : result any :=
  match Decode (T := portOpenResponse) buffer with
  | inl err => (None, Some err)
  | inr response =>
      let portOpen := {|
        PortOpen_Port := 0;
        PortOpen_Ref := portOpen_Ref response;
        PortOpen_RawDeviceID := [];
        PortOpen_DeviceID := "";
        PortOpen_Ok := String.eqb (portOpen_Result response) "ok" |} in
      (Some (AnyPortOpen portOpen), None)
  end.

Definition parseServerObjResponse (buffer : bytes) : result any :=
  match Decode (T := serverObjectResponse) buffer with
  | inl err => (None, Some err)
  | inr response =>
      let serverObj := {|
        ServerObj_Host := serverObject_Host response;
        ServerObj_EdgePort := serverObject_EdgePort response;
        ServerObj_ServerPort := serverObject_ServerPort response;
        ServerObj_Sig := serverObject_ServerSig response |} in
      (Some (AnyServerObj serverObj), None)
  end.

Definition parseStateRootsResponse (buffer : bytes) : result any :=
  match Decode (T := stateRootsResponse) buffer with
  | inl err => (None, Some err)
  | inr response =>
      let stateRoots := {| StateRoots_StateRoots := stateRoots_StateRoots response |} in
      (Some (AnyStateRoots stateRoots), None)
  end.

Definition parseResponse (buffer : bytes) : result any :=
  if contains buffer portOpenPivot then parsePortOpenResponse buffer
  else if contains buffer blockPivot then parseBlockResponse buffer
  else if contains buffer block2Pivot then parseBlockResponse buffer
  else if contains buffer blockHeaderPivot then parseBlockHeaderResponse buffer
  else if contains buffer blockHeader2Pivot then parseBlockHeaderResponse buffer
  else if contains buffer blockquickPivot then parseBlockquickResponse buffer
  else if contains buffer blockquick2Pivot then parseBlockquickResponse buffer
  else if contains buffer blockPeakPivot then parseBlockPeakResponse buffer
  else if contains buffer accountPivot then parseAccountResponse buffer
  else if contains buffer accountValuePivot then parseAccountValueResponse buffer
  else if contains buffer accountRootsPivot then parseAccountRootsResponse buffer
  else if contains buffer stateRootsPivot then parseStateRootsResponse buffer
  else if contains buffer objectPivot then parseDeviceObjectResponse buffer
  else if contains buffer nodePivot then parseServerObjResponse buffer
  else if contains buffer ticketPivot then parseDeviceTicketResponse buffer
  else (None, Some ErrResponseHandlerNotFound).

Definition parseInboundPortOpenRequest (buffer : bytes) : result any :=
  match Decode (T := portOpenInboundRequest) buffer with
  | inl err => (None, Some err)
  | inr inboundRequest =>
      let deviceID := EncodeToString (portOpenIn_DeviceID inboundRequest) in
      let portOpen := {|
        PortOpen_Port := portOpenIn_Port inboundRequest;
        PortOpen_Ref := portOpenIn_Ref inboundRequest;
        PortOpen_RawDeviceID := portOpenIn_DeviceID inboundRequest;
        PortOpen_DeviceID := deviceID;
        PortOpen_Ok := true |} in
      (Some (AnyPortOpen portOpen), None)
  end.

Definition parseInboundPortSendRequest (buffer : bytes) : result any :=
  match Decode (T := portSendInboundRequest) buffer with
  | inl err => (None, Some err)
  | inr inboundRequest =>
      let portSend := {|
        PortSend_Ref := portSendIn_Ref inboundRequest;
        PortSend_Data := portSendIn_Data inboundRequest;
        PortSend_Ok := true |} in
      (Some (AnyPortSend portSend), None)
  end.

Definition parseInboundPortCloseRequest (buffer : bytes) : result any :=
  match Decode (T := portCloseInboundRequest) buffer with
  | inl err => (None, Some err)
  | inr inboundRequest =>
      let portClose := {|
        PortClose_Ref := portCloseIn_Ref inboundRequest;
        PortClose_Ok := true |} in
      (Some (AnyPortClose portClose), None)
  end.

Definition parseInboundGoodbyeRequest (buffer : bytes) : result any :=
  match Decode (T := goodbyeInboundRequest) buffer with
  | inl err => (None, Some err)
  | inr inboundRequest =>
      let goodbye := {| Goodbye_Reason := goodbyeIn_Reason inboundRequest |} in
      (Some (AnyGoodbye goodbye), None)
  end.

(** The named results [(req interface{}, err error)] are still nil at the
    bare [return] that ends the function. *)
Definition parseInboundRequest (buffer : bytes) : result any :=
  if contains buffer portOpenPivot then parseInboundPortOpenRequest buffer
  else if contains buffer portSendPivot then parseInboundPortSendRequest buffer
  else if contains buffer portClosePivot then parseInboundPortCloseRequest buffer
  else if contains buffer goodbyePivot then parseInboundGoodbyeRequest buffer
  else (None, None).

Definition IsResponseType (rawData : bytes) : bool := contains rawData responsePivot.

Definition IsErrorType (rawData : bytes) : bool := contains rawData errorPivot.

Definition ResponseID (buffer : bytes) : N :=
  let response := decodeInto zeroResponseID buffer in
  responseID_RequestID response.

(** What NewMessage returns: the encoded request, the parser bound to the
    method (nil for a method without a response parser), and the error. *)
Definition message : Type := (option bytes * option parser * option error)%type.

(** The tail every method case shares: encode the request, return the error
    alone if the encoder failed, the bytes and the callback otherwise. *)
Definition encoded {T : Type} `{rlp.Codec T} (request : T) (callback : option parser)
  : outcome message :=
  match EncodeToBytes request with
  | (_, Some err) => Returns (None, None, Some err)
  | (decodedRlp, None) => Returns (Some decodedRlp, callback, None)
  end.

Definition NewMessage (requestID : N) (method : string) (args : list arg)
  : outcome message :=
  if String.eqb method "hello" then
    flag <- argUint64 args 0 ;;
    encoded {| hello_RequestID := requestID; hello_Method := method; hello_Flag := flag |}
            None
  else if String.eqb method "portsend" then
    ref <- argUint64 args 0 ;;
    data <- argBytes args 1 ;;
    encoded {| portSend_RequestID := requestID; portSend_Method := method;
               portSend_Ref := ref; portSend_Data := data |}
            None
  else if String.eqb method "portclose" then
    ref <- argUint64 args 0 ;;
    encoded {| portClose_RequestID := requestID; portClose_Method := method;
               portClose_Ref := ref |}
            None
  else if String.eqb method "getblock" then
    blockNumber <- argUint64 args 0 ;;
    encoded {| block_RequestID := requestID; block_Method := method;
               block_BlockNumber := blockNumber |}
            (Some parseBlockResponse)
  else if String.eqb method "getblockpeak" then
    encoded {| blockPeak_RequestID := requestID; blockPeak_Method := method |}
            (Some parseBlockPeakResponse)
  else if String.eqb method "getblockheader2" then
    blockNumber <- argUint64 args 0 ;;
    encoded {| blockHeader_RequestID := requestID; blockHeader_Method := method;
               blockHeader_BlockNumber := blockNumber |}
            (Some parseBlockHeaderResponse)
  else if String.eqb method "getblockquick2" then
    lastValid <- argUint64 args 0 ;;
    windowSize <- argUint64 args 1 ;;
    encoded {| blockquick_RequestID := requestID; blockquick_Method := method;
               blockquick_LastValid := lastValid; blockquick_WindowSize := windowSize |}
            (Some parseBlockquickResponse)
  else if String.eqb method "getaccount" then
    blockNumber <- argUint64 args 0 ;;
    address <- argBytes args 1 ;;
    encoded {| account_RequestID := requestID; account_Method := method;
               account_BlockNumber := blockNumber; account_Address := address |}
            (Some parseAccountResponse)
  else if String.eqb method "getaccountroots" then
    blockNumber <- argUint64 args 0 ;;
    address <- argBytes args 1 ;;
    encoded {| accountRoots_RequestID := requestID; accountRoots_Method := method;
               accountRoots_BlockNumber := blockNumber; accountRoots_Address := address |}
            (Some parseAccountRootsResponse)
  else if String.eqb method "getaccountvalue" then
    blockNumber <- argUint64 args 0 ;;
    address <- argBytes args 1 ;;
    key <- argBytes args 2 ;;
    encoded {| accountValue_RequestID := requestID; accountValue_Method := method;
               accountValue_BlockNumber := blockNumber; accountValue_Address := address;
               accountValue_Key := key |}
            (Some parseAccountValueResponse)
  else if String.eqb method "ticket" then
    blockNumber <- argUint64 args 0 ;;
    fleetAddr <- argBytes args 1 ;;
    totalConnections <- argUint64 args 2 ;;
    totalBytes <- argUint64 args 3 ;;
    localAddr <- argBytes args 4 ;;
    deviceSig <- argBytes args 5 ;;
    encoded {| ticket_RequestID := requestID; ticket_Method := method;
               ticket_BlockNumber := blockNumber; ticket_FleetAddr := fleetAddr;
               ticket_TotalConnections := totalConnections;
               ticket_TotalBytes := totalBytes;
               ticket_LocalAddr := localAddr; ticket_DeviceSig := deviceSig |}
            (Some parseDeviceTicketResponse)
  else if String.eqb method "portopen" then
    deviceID <- argBytes args 0 ;;
    port <- argUint64 args 1 ;;
    mode <- argString args 2 ;;
    encoded {| portOpen_RequestID := requestID; portOpen_Method := method;
               portOpen_DeviceID := deviceID; portOpen_Port := port;
               portOpen_Mode := mode |}
            (Some parsePortOpenResponse)
  else if String.eqb method "getobject" then
    deviceID <- argBytes args 0 ;;
    encoded {| object_RequestID := requestID; object_Method := method;
               object_DeviceID := deviceID |}
            (Some parseDeviceObjectResponse)
  else if String.eqb method "getnode" then
    serverID <- argBytes args 0 ;;
    encoded {| serverObject_RequestID := requestID; serverObject_Method := method;
               serverObject_ServerID := serverID |}
            (Some parseServerObjResponse)
  else if String.eqb method "getstateroots" then
    blockNumber <- argUint64 args 0 ;;
    encoded {| stateRoots_RequestID := requestID; stateRoots_Method := method;
               stateRoots_BlockNumber := blockNumber |}
            (Some parseStateRootsResponse)
  else Returns (None, None, Some ErrRPCNotSupport).

Definition NewResponseMessage (requestID : N) (responseType method : string)
    (args : list arg) : outcome message :=
  if String.eqb method "portopen" then
    ref <- argUint64 args 0 ;;
    result <- argString args 1 ;;
    encoded {| portOpenOut_RequestID := requestID;
               portOpenOut_ResponseType := responseType;
               portOpenOut_Ref := ref; portOpenOut_Result := result |}
            None
  else if String.eqb method "portsend" then
    ref <- argUint64 args 0 ;;
    data <- argBytes args 1 ;;
    encoded {| portSend_RequestID := requestID; portSend_Method := method;
               portSend_Ref := ref; portSend_Data := data |}
            None
  else if String.eqb method "portclose" then
    ref <- argUint64 args 0 ;;
    encoded {| portClose_RequestID := requestID; portClose_Method := method;
               portClose_Ref := ref |}
            None
  else Returns (None, None, Some ErrRPCNotSupport).

(** ** Dispatch by marker *)

(** [buffer] contains the method token [m] and no other token of
    [methodTokens]. *)
Definition soleToken (buffer : bytes) (m : string) : bool :=
  contains buffer (bytesOf m)
  && forallb (fun t => String.eqb t m || negb (contains buffer (bytesOf t))) methodTokens.

(** [buffer] contains none of [markers]. *)
Definition matchesNone (markers : list bytes) (buffer : bytes) : bool :=
  forallb (fun marker => negb (contains buffer marker)) markers.

(** The markers parseResponse looks for, in the order it tests them. *)
Definition responseMarkers : list bytes :=
  [ portOpenPivot; blockPivot; block2Pivot; blockHeaderPivot; blockHeader2Pivot;
    blockquickPivot; blockquick2Pivot; blockPeakPivot; accountPivot;
    accountValuePivot; accountRootsPivot; stateRootsPivot; objectPivot;
    nodePivot; ticketPivot ].

(** The markers parseInboundRequest looks for. *)
Definition inboundMarkers : list bytes :=
  [ portOpenPivot; portSendPivot; portClosePivot; goodbyePivot ].

Lemma soleToken_present (buffer : bytes) (m : string) :
  soleToken buffer m = true -> contains buffer (bytesOf m) = true.
Proof. unfold soleToken; intros H; now apply andb_true_iff in H. Qed.

Lemma soleToken_absent (buffer : bytes) (m t : string) :
  soleToken buffer m = true ->
  In t methodTokens -> String.eqb t m = false ->
  contains buffer (bytesOf t) = false.
Proof.
  unfold soleToken; intros H Hin Hne.
  apply andb_true_iff in H as [_ H].
  rewrite forallb_forall in H; specialize (H t Hin).
  rewrite Hne in H; cbn [orb] in H.
  now apply negb_true_iff in H.
Qed.

Lemma matchesNone_absent (markers : list bytes) (buffer marker : bytes) :
  matchesNone markers buffer = true -> In marker markers ->
  contains buffer marker = false.
Proof.
  unfold matchesNone; intros H Hin.
  rewrite forallb_forall in H; specialize (H marker Hin).
  now apply negb_true_iff in H.
Qed.

(** The method tokens that extend another method token: no buffer contains
    one of them and no other token, since it contains getblock or getaccount
    with it. *)
Definition extendedTokens : list (string * string * string) :=
  [ ("getblock", "2", "getblock2");
    ("getblock", "header", "getblockheader");
    ("getblock", "header2", "getblockheader2");
    ("getblock", "quick", "getblockquick");
    ("getblock", "quick2", "getblockquick2");
    ("getblock", "peak", "getblockpeak");
    ("getaccount", "value", "getaccountvalue");
    ("getaccount", "roots", "getaccountroots") ].

Lemma soleToken_extended (buffer : bytes) (base rest m : string) :
  In (base, rest, m) extendedTokens -> soleToken buffer m = false.
Proof.
  intros Hin; destruct (soleToken buffer m) eqn:Hsole; [exfalso|reflexivity].
  pose proof (soleToken_present _ _ Hsole) as Hm.
  assert (Hbase : contains buffer (bytesOf base) = true).
  { apply (contains_prefix buffer (bytesOf base) (bytesOf rest)).
    unfold extendedTokens in Hin; cbn [In] in Hin.
    repeat (destruct Hin as [Hin|Hin]; [injection Hin as <- <- <-; exact Hm|]).
    contradiction. }
  assert (Habsent : contains buffer (bytesOf base) = false).
  { apply (soleToken_absent buffer m base Hsole);
      unfold extendedTokens in Hin; cbn [In] in Hin;
      repeat (destruct Hin as [Hin|Hin];
              [injection Hin as <- <- <-;
               first [reflexivity | unfold methodTokens; in_list]|]);
      contradiction. }
  congruence.
Qed.

(** A buffer without "ticket" is a buffer without "getticket". *)
Lemma ticketPivot_absent (buffer : bytes) :
  contains buffer (bytesOf "ticket") = false -> contains buffer ticketPivot = false.
Proof.
  intros H; destruct (contains buffer ticketPivot) eqn:E; [|reflexivity].
  change ticketPivot with (bytesOf "get" ++ bytesOf "ticket") in E.
  apply contains_suffix in E; congruence.
Qed.

(** Where parseResponse sends a buffer whose only method token is [m]: to
    the parser of [m], or nowhere when [m] has no response parser. *)
Definition soleTokenRoutes : list (string * option parser) :=
  [ ("portopen", Some parsePortOpenResponse);
    ("getblock", Some parseBlockResponse);
    ("getaccount", Some parseAccountResponse);
    ("getstateroots", Some parseStateRootsResponse);
    ("getobject", Some parseDeviceObjectResponse);
    ("getnode", Some parseServerObjResponse);
    ("hello", None);
    ("portsend", None);
    ("portclose", None);
    ("goodbye", None) ].

Definition runRoute (route : option parser) (buffer : bytes) : result any :=
  match route with
  | Some parse => parse buffer
  | None => (None, Some ErrResponseHandlerNotFound)
  end.

Ltac unfold_pivots :=
  unfold portOpenPivot, blockPivot, block2Pivot, blockHeaderPivot, blockHeader2Pivot,
    blockquickPivot, blockquick2Pivot, blockPeakPivot, accountPivot,
    accountValuePivot, accountRootsPivot, stateRootsPivot, objectPivot, nodePivot,
    portSendPivot, portClosePivot, goodbyePivot in *.

(** C1 (amended): a response buffer whose only method token is portopen,
    getblock, getaccount, getstateroots, getobject or getnode is handed by
    parseResponse to the response parser of that method; a buffer whose only
    method token is hello, portsend, portclose or goodbye, which have no
    response parser, is answered with ErrResponseHandlerNotFound. *)
Theorem parseResponse_sole_token (m : string) (route : option parser) (buffer : bytes) :
  In (m, route) soleTokenRoutes ->
  soleToken buffer m = true ->
  parseResponse buffer = runRoute route buffer.
Proof.
  intros Hin Hsole.
  pose proof (soleToken_present _ _ Hsole) as Hm.
  pose proof (soleToken_absent _ _ "ticket" Hsole) as Hticket.
  assert (Hab : forall t, In t methodTokens -> String.eqb t m = false ->
                          contains buffer (bytesOf t) = false)
    by (intros t; apply soleToken_absent; exact Hsole).
  unfold soleTokenRoutes in Hin; cbn [In] in Hin.
  repeat (destruct Hin as [Hin|Hin]; [injection Hin as <- <-|]); try contradiction;
    specialize (Hticket ltac:(unfold methodTokens; in_list) eq_refl);
    apply ticketPivot_absent in Hticket;
    unfold parseResponse, runRoute; rewrite ?Hticket; unfold_pivots;
    repeat match goal with
      | |- context [contains buffer (bytesOf ?t)] =>
          first [ rewrite Hm
                | rewrite (Hab t) by (first [reflexivity | unfold methodTokens; in_list]) ]
      end;
    reflexivity.
Qed.

(** The markers that extend "getblock". *)
Definition blockExtensions : list bytes :=
  [ block2Pivot; blockHeaderPivot; blockHeader2Pivot;
    blockquickPivot; blockquick2Pivot; blockPeakPivot ].

(** Precedence: the test for "getblock" comes before the tests for the
    markers that extend it, so a buffer with getblock2, getblockheader,
    getblockheader2, getblockquick, getblockquick2 or getblockpeak is handed
    to parsePortOpenResponse if it contains portopen and to
    parseBlockResponse otherwise; the branches of those markers are never
    taken. *)
Theorem parseResponse_block_shadows (buffer marker : bytes) :
  In marker blockExtensions ->
  contains buffer marker = true ->
  parseResponse buffer
  = if contains buffer portOpenPivot then parsePortOpenResponse buffer
    else parseBlockResponse buffer.
Proof.
  intros Hin Hmarker.
  assert (Hblock : contains buffer blockPivot = true).
  { unfold blockExtensions in Hin; cbn [In] in Hin.
    repeat (destruct Hin as [<-|Hin]); try contradiction.
    - now apply (contains_prefix buffer blockPivot (bytesOf "2")).
    - now apply (contains_prefix buffer blockPivot (bytesOf "header")).
    - now apply (contains_prefix buffer blockPivot (bytesOf "header2")).
    - now apply (contains_prefix buffer blockPivot (bytesOf "quick")).
    - now apply (contains_prefix buffer blockPivot (bytesOf "quick2")).
    - now apply (contains_prefix buffer blockPivot (bytesOf "peak")). }
  unfold parseResponse; now rewrite Hblock.
Qed.

(** The marker of the ticket branch is "getticket", not the method token
    "ticket": a buffer whose only method token is ticket reaches
    parseDeviceTicketResponse only if "get" happens to precede the token. *)
Theorem parseResponse_ticket_marker (buffer : bytes) :
  soleToken buffer "ticket" = true ->
  parseResponse buffer
  = if contains buffer ticketPivot then parseDeviceTicketResponse buffer
    else (None, Some ErrResponseHandlerNotFound).
Proof.
  intros Hsole.
  assert (Hab : forall t, In t methodTokens -> String.eqb t "ticket" = false ->
                          contains buffer (bytesOf t) = false)
    by (intros t; apply soleToken_absent; exact Hsole).
  unfold parseResponse; unfold_pivots.
  repeat match goal with
    | |- context [contains buffer (bytesOf ?t)] =>
        rewrite (Hab t) by (first [reflexivity | unfold methodTokens; in_list])
    end.
  reflexivity.
Qed.

(** A buffer that matches none of its markers makes parseResponse fail with
    ErrResponseHandlerNotFound. *)
Theorem parseResponse_unmatched (buffer : bytes) :
  matchesNone responseMarkers buffer = true ->
  parseResponse buffer = (None, Some ErrResponseHandlerNotFound).
Proof.
  intros H; unfold parseResponse.
  repeat match goal with
    | |- context [contains buffer ?marker] =>
        rewrite (matchesNone_absent responseMarkers buffer marker H)
          by (unfold responseMarkers; in_list)
    end.
  reflexivity.
Qed.

(** C3 (the inbound path): a buffer that matches none of the four inbound
    markers falls through parseInboundRequest to its bare return, which
    hands the caller a nil request and a nil error. *)
Theorem parseInboundRequest_unmatched (buffer : bytes) :
  matchesNone inboundMarkers buffer = true ->
  parseInboundRequest buffer = (None, None).
Proof.
  intros H; unfold parseInboundRequest.
  repeat match goal with
    | |- context [contains buffer ?marker] =>
        rewrite (matchesNone_absent inboundMarkers buffer marker H)
          by (unfold inboundMarkers; in_list)
    end.
  reflexivity.
Qed.

(** ** Ticket replies *)

(** The ticket of the too_old branch: the error marker and nothing else. *)
Definition tooOldTicket : DeviceTicket := {|
  ServerID := zero20; BlockNumber := 0%Z; BlockHash := []; FleetAddr := zero20;
  TotalConnections := 0; TotalBytes := 0; LocalAddr := []; DeviceSig := [];
  ServerSig := []; Err := Some ErrTicketTooOld |}.

(** The ticket of the too_low branch: what the server reported. *)
Definition tooLowTicket (response : ticketTooLowResponse) : DeviceTicket := {|
  ServerID := zero20; BlockNumber := 0%Z;
  BlockHash := tooLow_BlockHash response;
  FleetAddr := zero20;
  TotalConnections := tooLow_TotalConnections response;
  TotalBytes := tooLow_TotalBytes response;
  LocalAddr := tooLow_LocalAddr response;
  DeviceSig := tooLow_DeviceSig response;
  ServerSig := []; Err := Some ErrTicketTooLow |}.

(** C4 (amended): of the three outcomes of a ticket reply that decodes, only
    too_low returns fields the server supplied (block hash, total
    connections, total bytes, local address, device signature, with
    ErrTicketTooLow); thanks! returns the void ticket and too_old returns a
    ticket that carries the ErrTicketTooOld marker alone. *)
Theorem parseDeviceTicketResponse_outcomes (buffer : bytes) :
  (forall response : ticketThanksResponse,
      contains buffer ticketThanksPivot = true ->
      Decode buffer = inr response ->
      parseDeviceTicketResponse buffer = (Some (AnyDeviceTicket zeroDeviceTicket), None))
  /\ (forall response : ticketTooLowResponse,
      contains buffer ticketThanksPivot = false ->
      contains buffer ticketTooLowPivot = true ->
      Decode buffer = inr response ->
      parseDeviceTicketResponse buffer
      = (Some (AnyDeviceTicket (tooLowTicket response)), None))
  /\ (forall response : ticketTooOldResponse,
      contains buffer ticketThanksPivot = false ->
      contains buffer ticketTooLowPivot = false ->
      contains buffer ticketTooOldPivot = true ->
      Decode buffer = inr response ->
      parseDeviceTicketResponse buffer = (Some (AnyDeviceTicket tooOldTicket), None)).
Proof.
  unfold parseDeviceTicketResponse; repeat split.
  - intros response Hthanks Hdec; now rewrite Hthanks, Hdec.
  - intros response Hthanks Hlow Hdec; now rewrite Hthanks, Hlow, Hdec.
  - intros response Hthanks Hlow Hold Hdec; now rewrite Hthanks, Hlow, Hold, Hdec.
Qed.

(** C5: a ticket reply that contains "thanks!" and decodes yields the void
    ticket: counters zero, byte slices empty, the two address arrays zeroed,
    no error. *)
Theorem parseDeviceTicketResponse_thanks (buffer : bytes)
    (response : ticketThanksResponse) :
  contains buffer ticketThanksPivot = true ->
  Decode buffer = inr response ->
  exists ticket,
    parseDeviceTicketResponse buffer = (Some (AnyDeviceTicket ticket), None)
    /\ TotalConnections ticket = 0 /\ TotalBytes ticket = 0
    /\ BlockNumber ticket = 0%Z
    /\ BlockHash ticket = [] /\ LocalAddr ticket = []
    /\ DeviceSig ticket = [] /\ ServerSig ticket = []
    /\ ServerID ticket = repeat x00 20 /\ FleetAddr ticket = repeat x00 20
    /\ Err ticket = None.
Proof.
  intros Hthanks Hdec; exists zeroDeviceTicket.
  unfold parseDeviceTicketResponse; rewrite Hthanks, Hdec.
  repeat split.
Qed.

(** C6: a reply with none of the three outcome tokens fails with
    ErrFailedToParseTicket and returns no ticket. *)
Theorem parseDeviceTicketResponse_unrecognized (buffer : bytes) :
  contains buffer ticketThanksPivot = false ->
  contains buffer ticketTooLowPivot = false ->
  contains buffer ticketTooOldPivot = false ->
  parseDeviceTicketResponse buffer = (None, Some ErrFailedToParseTicket).
Proof.
  intros Hthanks Hlow Hold; unfold parseDeviceTicketResponse.
  now rewrite Hthanks, Hlow, Hold.
Qed.

(** ** Block headers *)

(** The [block_hash] item of a block-header response, as the parser looks it
    up. *)
Definition claimedBlockHash (response : blockHeaderResponse) : bytes :=
  Item_Value (fst (findItemInItems (blockHeader_Items response) "block_hash")).

(** The header the parser rebuilds from the other items of the response. *)
Definition recomputedHeader (response : blockHeaderResponse) : error + Header :=
  let items := blockHeader_Items response in
  let value key := Item_Value (fst (findItemInItems items key)) in
  NewHeader
    (value "transaction_hash")
    (value "state_hash")
    (value "previous_block")
    (value "miner_signature")
    (DecompressPubkeyBytes (blockHeader_MinerPubkey response))
    (DecodeBytesToUint (value "timestamp"))
    (DecodeBytesToUint (value "number"))
    (DecodeBytesToUint (value "nonce")).

(** C7: when the hash of the rebuilt header differs from the supplied
    block_hash, parseBlockHeaderResponse returns no header and the
    "Blockhash != real hash" error. *)
Theorem parseBlockHeaderResponse_hash_mismatch (buffer : bytes)
    (response : blockHeaderResponse) (header : Header) :
  Decode buffer = inr response ->
  recomputedHeader response = inr header ->
  HeaderHash header <> claimedBlockHash response ->
  parseBlockHeaderResponse buffer
  = (None, Some (ErrBlockhashMismatch (claimedBlockHash response))).
Proof.
  intros Hdec Hhdr Hne.
  unfold parseBlockHeaderResponse, recomputedHeader, claimedBlockHash in *.
  rewrite Hdec; cbv zeta in *; rewrite Hhdr.
  apply bytesEqual_neq in Hne; now rewrite Hne.
Qed.

(** The other way round: a header is returned only if its hash equals the
    supplied block_hash. *)
Theorem parseBlockHeaderResponse_header (buffer : bytes) (header : Header) :
  parseBlockHeaderResponse buffer = (Some (AnyHeader header), None) ->
  exists response,
    Decode buffer = inr response
    /\ recomputedHeader response = inr header
    /\ HeaderHash header = claimedBlockHash response.
Proof.
  unfold parseBlockHeaderResponse, recomputedHeader, claimedBlockHash.
  destruct (Decode buffer) as [err|response]; [discriminate|]; cbv zeta.
  match goal with |- context [NewHeader ?a ?b ?c ?d ?e ?f ?g ?h] =>
    destruct (NewHeader a b c d e f g h) as [err|header'] eqn:Hhdr end;
    [discriminate|].
  match goal with |- context [bytesEqual ?x ?y] =>
    destruct (bytesEqual x y) eqn:Heq end; cbn [negb]; [|discriminate].
  intros H; injection H as ->.
  exists response; split; [reflexivity|split; [exact Hhdr|now apply bytesEqual_eq]].
Qed.

(** ** Swallowed decode errors *)

(** C9: parseError never hands an error to its caller; it reads the last
    element of the payload the decoder left in the target, whatever error
    the decoder reported, so it panics on an index out of range whenever
    that payload is empty and returns its last element otherwise. *)
Theorem parseError_last_or_panic (buffer : bytes) (response : errorResponse)
    (decodeErr : option error) :
  DecodeInPlace zeroErrorResponse buffer = (response, decodeErr) ->
  (forall e err, parseError buffer = Returns (e, err) -> err = None)
  /\ (errorResponse_Payload response = [] -> parseError buffer = Panics)
  /\ (forall front message,
        errorResponse_Payload response = front ++ [message] ->
        parseError buffer = Returns ({| Error_Message := message |}, None)).
Proof.
  intros Hdec; unfold parseError, decodeInto; rewrite Hdec; cbv zeta; cbn [fst].
  repeat split.
  - intros e err.
    destruct (index _ _) as [message|]; cbn [bind]; [|discriminate].
    intros H; now injection H.
  - intros H; now rewrite H.
  - intros front message Hpay; rewrite Hpay.
    unfold index; rewrite length_app; cbn [List.length].
    replace (Z.of_nat (List.length front + 1) - 1 <? 0)%Z with false
      by (symmetry; apply Z.ltb_ge; lia).
    replace (Z.to_nat (Z.of_nat (List.length front + 1) - 1)) with (List.length front)
      by lia.
    now rewrite nth_error_app2, Nat.sub_diag by lia.
Qed.

(** C10 (amended): on a buffer that does not decode, ResponseID drops the
    error and returns the request id the decoder left in the target: 0 when
    the decoder failed before it stored one, the id it had stored otherwise.
    Either way it is the very id ResponseID returns for a genuine envelope
    that carries this request id. *)
Theorem ResponseID_undecodable (buffer : bytes) (target : responseID) (err : error) :
  DecodeInPlace zeroResponseID buffer = (target, Some err) ->
  ResponseID buffer = responseID_RequestID target
  /\ (target = zeroResponseID -> ResponseID buffer = 0)
  /\ forall genuine response,
       DecodeInPlace zeroResponseID genuine = (response, None) ->
       responseID_RequestID response = responseID_RequestID target ->
       ResponseID genuine = ResponseID buffer.
Proof.
  intros Hdec; unfold ResponseID, decodeInto; rewrite Hdec; cbn [fst].
  split; [reflexivity|split].
  - intros ->; reflexivity.
  - intros genuine response Hgen Hsame; now rewrite Hgen.
Qed.

(** On a buffer that decodes, ResponseID is the request id of the envelope. *)
Lemma ResponseID_decoded (buffer : bytes) (response : responseID) :
  DecodeInPlace zeroResponseID buffer = (response, None) ->
  ResponseID buffer = responseID_RequestID response.
Proof. intros Hdec; unfold ResponseID, decodeInto; now rewrite Hdec. Qed.

(** ** Building requests *)

Ltac split_args H args :=
  repeat (let a := fresh "a" in
          destruct args as [|a args]; [discriminate H|];
          destruct a; cbn [wellTyped hasType andb] in H; try discriminate H).

(** The wire value of an argument: an unsigned integer travels as its
    big-endian digits, a byte slice and a string as their bytes. *)
Definition argItem (a : arg) : rlp.item :=
  match a with
  | ArgUint64 n => rlp.Str (rlp.putUint n)
  | ArgBytes b => rlp.Str b
  | ArgString s => rlp.Str (bytesOf s)
  | ArgOther => rlp.Lst []
  end.

(** The request envelope of the wire format: the request id, and a payload
    that holds the method name and after it the arguments in their order. *)
Definition wireRequest (requestID : N) (method : string) (args : list arg) : rlp.item :=
  rlp.Lst [ rlp.Str (rlp.putUint requestID);
            rlp.Lst (rlp.Str (bytesOf method) :: map argItem args) ].

(** The response parser each case of NewMessage returns beside the bytes;
    hello, portsend and portclose return nil. *)
Definition boundParser (method : string) : option parser :=
  if String.eqb method "getblock" then Some parseBlockResponse
  else if String.eqb method "getblockpeak" then Some parseBlockPeakResponse
  else if String.eqb method "getblockheader2" then Some parseBlockHeaderResponse
  else if String.eqb method "getblockquick2" then Some parseBlockquickResponse
  else if String.eqb method "getaccount" then Some parseAccountResponse
  else if String.eqb method "getaccountroots" then Some parseAccountRootsResponse
  else if String.eqb method "getaccountvalue" then Some parseAccountValueResponse
  else if String.eqb method "ticket" then Some parseDeviceTicketResponse
  else if String.eqb method "portopen" then Some parsePortOpenResponse
  else if String.eqb method "getobject" then Some parseDeviceObjectResponse
  else if String.eqb method "getnode" then Some parseServerObjResponse
  else if String.eqb method "getstateroots" then Some parseStateRootsResponse
  else None.

(** The fifteen methods NewMessage has a case for. *)
Definition supportedMethods : list string :=
  [ "hello"; "portsend"; "portclose"; "getblock"; "getblockpeak"; "getblockheader2";
    "getblockquick2"; "getaccount"; "getaccountroots"; "getaccountvalue"; "ticket";
    "portopen"; "getobject"; "getnode"; "getstateroots" ].

Lemma requestSignature_supported (method : string) (sig : list argType) :
  requestSignature method = Some sig -> In method supportedMethods.
Proof.
  unfold requestSignature, supportedMethods.
  repeat match goal with
    | |- context [String.eqb method ?s] =>
        destruct (String.eqb_spec method s) as [->|_]; [intros _; in_list|]
    end.
  discriminate.
Qed.

(** C8 (amended): for the fifteen methods it has a case for (hello, portsend,
    portclose, getblock, getblockpeak, getblockheader2, getblockquick2,
    getaccount, getaccountroots, getaccountvalue, ticket, portopen,
    getobject, getnode, getstateroots), when the leading arguments have the
    asserted types, NewMessage returns the encoded request and a nil error:
    the bytes are the encoding of the envelope that holds the request id,
    the method name and these arguments in their order, and beside them
    comes the response parser of the method.  For every other method name
    it returns ErrRPCNotSupport. *)
Theorem NewMessage_supported_methods (requestID : N) (method : string) (args : list arg) :
  (forall sig,
      requestSignature method = Some sig ->
      wellTyped sig args = true ->
      NewMessage requestID method args
      = Returns (Some (rlp.encode
                         (wireRequest requestID method (firstn (List.length sig) args))),
                 boundParser method, None))
  /\ (requestSignature method = None ->
      NewMessage requestID method args = Returns (None, None, Some ErrRPCNotSupport)).
Proof.
  split.
  - intros sig Hsig Hwt.
    pose proof (requestSignature_supported method sig Hsig) as Hin.
    unfold supportedMethods in Hin; cbn [In] in Hin.
    repeat (destruct Hin as [<-|Hin];
            [ injection Hsig as <-; cbn [wellTyped] in Hwt;
              split_args Hwt args; reflexivity | ]).
    contradiction.
  - unfold requestSignature, NewMessage.
    repeat match goal with
      | |- context [String.eqb method ?s] => destruct (String.eqb method s)
      end;
      intros Hsig; try discriminate Hsig; reflexivity.
Qed.

Lemma encoded_inv {T : Type} `{rlp.Codec T} (request : T)
    (callback callback' : option parser) (decodedRlp : bytes) :
  encoded request callback = Returns (Some decodedRlp, callback', None) ->
  decodedRlp = rlp.encode (rlp.toItem request).
Proof.
  unfold encoded, EncodeToBytes, rlp.EncodeToBytes; intros Heq.
  injection Heq as Hbytes _; now symmetry.
Qed.

(** Every byte string NewMessage returns is a well-formed envelope: it
    decodes, with nothing left over, to the list of the request id and of a
    payload whose first element is the method name. *)
Theorem NewMessage_envelope (requestID : N) (method : string) (args : list arg)
    (decodedRlp : bytes) (callback : option parser) :
  NewMessage requestID method args = Returns (Some decodedRlp, callback, None) ->
  N.of_nat (List.length decodedRlp) < 2 ^ 64 ->
  exists fields,
    rlp.decode (List.length decodedRlp) decodedRlp
    = Some (rlp.Lst [ rlp.Str (rlp.putUint requestID);
                      rlp.Lst (rlp.Str (bytesOf method) :: fields) ], []).
Proof.
  unfold NewMessage.
  repeat match goal with
    | |- context [String.eqb method ?s] => destruct (String.eqb method s)
    end;
    repeat match goal with
      | |- context [bind ?e _] => destruct e; cbn [bind]
      end;
    try discriminate;
    intros H Hsize; apply encoded_inv in H; subst decodedRlp;
    match goal with
    | |- context [rlp.encode ?i] =>
        pose proof (rlp.decode_encode i (List.length (rlp.encode i)) []
                      (Nat.le_refl _) Hsize) as Hd
    end;
    rewrite app_nil_r in Hd;
    eexists; (etransitivity; [exact Hd|reflexivity]).
Qed.

(** ** What the parsers never return *)

(** A result that is a value with a nil error, or no value with an error. *)
Definition settled (r : result any) : Prop :=
  (exists v, r = (Some v, None)) \/ (exists e, r = (None, Some e)).

Ltac settle :=
  repeat match goal with
    | |- context [match ?x with _ => _ end] => destruct x
    end;
  first [ left; eexists; reflexivity | right; eexists; reflexivity ].

Lemma parseBlockPeakResponse_settled (buffer : bytes) :
  settled (parseBlockPeakResponse buffer).
Proof. unfold settled, parseBlockPeakResponse; settle. Qed.

Lemma parseBlockResponse_settled (buffer : bytes) :
  settled (parseBlockResponse buffer).
Proof. unfold settled, parseBlockResponse; settle. Qed.

Lemma parseBlockHeaderResponse_settled (buffer : bytes) :
  settled (parseBlockHeaderResponse buffer).
Proof. unfold settled, parseBlockHeaderResponse; cbv zeta; settle. Qed.

Lemma parseBlockquickResponse_settled (buffer : bytes) :
  settled (parseBlockquickResponse buffer).
Proof. unfold settled, parseBlockquickResponse; settle. Qed.

Lemma parseDeviceTicketResponse_settled (buffer : bytes) :
  settled (parseDeviceTicketResponse buffer).
Proof. unfold settled, parseDeviceTicketResponse; settle. Qed.

Lemma parseDeviceObjectResponse_settled (buffer : bytes) :
  settled (parseDeviceObjectResponse buffer).
Proof. unfold settled, parseDeviceObjectResponse; settle. Qed.

Lemma parseAccountResponse_settled (buffer : bytes) :
  settled (parseAccountResponse buffer).
Proof. unfold settled, parseAccountResponse; cbv zeta; settle. Qed.

Lemma parseAccountRootsResponse_settled (buffer : bytes) :
  settled (parseAccountRootsResponse buffer).
Proof. unfold settled, parseAccountRootsResponse; settle. Qed.

Lemma parseAccountValueResponse_settled (buffer : bytes) :
  settled (parseAccountValueResponse buffer).
Proof. unfold settled, parseAccountValueResponse; settle. Qed.

Lemma parsePortOpenResponse_settled (buffer : bytes) :
  settled (parsePortOpenResponse buffer).
Proof. unfold settled, parsePortOpenResponse; settle. Qed.

Lemma parseServerObjResponse_settled (buffer : bytes) :
  settled (parseServerObjResponse buffer).
Proof. unfold settled, parseServerObjResponse; settle. Qed.

Lemma parseStateRootsResponse_settled (buffer : bytes) :
  settled (parseStateRootsResponse buffer).
Proof. unfold settled, parseStateRootsResponse; settle. Qed.

Lemma parseInboundPortOpenRequest_settled (buffer : bytes) :
  settled (parseInboundPortOpenRequest buffer).
Proof. unfold settled, parseInboundPortOpenRequest; settle. Qed.

Lemma parseInboundPortSendRequest_settled (buffer : bytes) :
  settled (parseInboundPortSendRequest buffer).
Proof. unfold settled, parseInboundPortSendRequest; settle. Qed.

Lemma parseInboundPortCloseRequest_settled (buffer : bytes) :
  settled (parseInboundPortCloseRequest buffer).
Proof. unfold settled, parseInboundPortCloseRequest; settle. Qed.

Lemma parseInboundGoodbyeRequest_settled (buffer : bytes) :
  settled (parseInboundGoodbyeRequest buffer).
Proof. unfold settled, parseInboundGoodbyeRequest; settle. Qed.

(** Whatever the buffer, parseResponse returns either a value with a nil
    error or no value with an error: never a value beside an error, and
    never nil beside nil. *)
Theorem parseResponse_value_xor_error (buffer : bytes) :
  (exists v, parseResponse buffer = (Some v, None))
  \/ (exists e, parseResponse buffer = (None, Some e)).
Proof.
  change (settled (parseResponse buffer)); unfold parseResponse.
  repeat match goal with
    | |- context [if contains buffer ?marker then _ else _] =>
        destruct (contains buffer marker)
    end;
    first
      [ apply parsePortOpenResponse_settled | apply parseBlockResponse_settled
      | apply parseBlockHeaderResponse_settled | apply parseBlockquickResponse_settled
      | apply parseBlockPeakResponse_settled | apply parseAccountResponse_settled
      | apply parseAccountValueResponse_settled | apply parseAccountRootsResponse_settled
      | apply parseStateRootsResponse_settled | apply parseDeviceObjectResponse_settled
      | apply parseServerObjResponse_settled | apply parseDeviceTicketResponse_settled
      | right; eexists; reflexivity ].
Qed.

(** parseInboundRequest hands its caller nil beside nil exactly for the
    buffers that contain none of its four markers; a buffer with a marker
    gets a request or an error. *)
Theorem parseInboundRequest_nil_iff_unmatched (buffer : bytes) :
  parseInboundRequest buffer = (None, None)
  <-> matchesNone inboundMarkers buffer = true.
Proof.
  unfold matchesNone, inboundMarkers, parseInboundRequest; cbn [forallb].
  pose proof (parseInboundPortOpenRequest_settled buffer) as [[v Ho]|[e Ho]];
    pose proof (parseInboundPortSendRequest_settled buffer) as [[v' Hs]|[e' Hs]];
    pose proof (parseInboundPortCloseRequest_settled buffer) as [[v'' Hc]|[e'' Hc]];
    pose proof (parseInboundGoodbyeRequest_settled buffer) as [[v3 Hg]|[e3 Hg]];
    rewrite Ho, Hs, Hc, Hg;
    destruct (contains buffer portOpenPivot), (contains buffer portSendPivot),
      (contains buffer portClosePivot), (contains buffer goodbyePivot);
    cbn [negb andb]; split; intros H; first [discriminate H|reflexivity].
Qed.

(** ** Values the parsers build *)

Lemma length_copy20 (src : bytes) : List.length (copy20 src) = 20%nat.
Proof.
  unfold copy20; rewrite length_app, repeat_length.
  pose proof (firstn_le_length 20 src); lia.
Qed.

Lemma copy20_long (src : bytes) : (20 <= List.length src)%nat -> copy20 src = firstn 20 src.
Proof.
  intros H; unfold copy20; rewrite length_firstn, Nat.min_l by exact H.
  cbn [Nat.sub repeat]; apply app_nil_r.
Qed.

Lemma copy20_short (src : bytes) :
  (List.length src <= 20)%nat ->
  copy20 src = src ++ repeat x00 (20 - List.length src).
Proof. intros H; unfold copy20; now rewrite firstn_all2 by exact H. Qed.

(** The ticket parseDeviceObjectResponse builds always has a ServerID and a
    FleetAddr of exactly 20 bytes: an id the server sent longer is cut to
    its first 20 bytes without an error, a shorter one is padded with zero
    bytes.  The totals and signatures are the server's, the block hash is
    empty and no error is set. *)
Theorem parseDeviceObjectResponse_addresses (buffer : bytes) (response : objectResponse) :
  Decode buffer = inr response ->
  exists ticket,
    parseDeviceObjectResponse buffer = (Some (AnyDeviceTicketRef ticket), None)
    /\ List.length (ServerID ticket) = 20%nat
    /\ List.length (FleetAddr ticket) = 20%nat
    /\ ((20 <= List.length (object_ServerID response))%nat ->
        ServerID ticket = firstn 20 (object_ServerID response))
    /\ ((List.length (object_ServerID response) <= 20)%nat ->
        ServerID ticket
        = object_ServerID response
          ++ repeat x00 (20 - List.length (object_ServerID response)))
    /\ ((20 <= List.length (object_FleetAddr response))%nat ->
        FleetAddr ticket = firstn 20 (object_FleetAddr response))
    /\ ((List.length (object_FleetAddr response) <= 20)%nat ->
        FleetAddr ticket
        = object_FleetAddr response
          ++ repeat x00 (20 - List.length (object_FleetAddr response)))
    /\ TotalConnections ticket = object_TotalConnections response
    /\ TotalBytes ticket = object_TotalBytes response
    /\ DeviceSig ticket = object_DeviceSig response
    /\ ServerSig ticket = object_ServerSig response
    /\ LocalAddr ticket = object_LocalAddr response
    /\ BlockHash ticket = []
    /\ Err ticket = None.
Proof.
  intros Hdec; unfold parseDeviceObjectResponse; rewrite Hdec; cbv zeta.
  eexists; split; [reflexivity|]; cbn [ServerID FleetAddr TotalConnections TotalBytes
    DeviceSig ServerSig LocalAddr BlockHash Err].
  repeat split;
    first [ apply length_copy20 | apply copy20_long | apply copy20_short ].
Qed.

(** parsePortOpenResponse reports a refused open as a value, not as an
    error: whenever the reply decodes it returns a PortOpen with the
    server's ref and a nil error, and Ok is set exactly when the result
    string is "ok". *)
Theorem parsePortOpenResponse_ok (buffer : bytes) (response : portOpenResponse) :
  Decode buffer = inr response ->
  exists portOpen,
    parsePortOpenResponse buffer = (Some (AnyPortOpen portOpen), None)
    /\ PortOpen_Ref portOpen = portOpen_Ref response
    /\ (PortOpen_Ok portOpen = true <-> portOpen_Result response = "ok").
Proof.
  intros Hdec; unfold parsePortOpenResponse; rewrite Hdec; cbv zeta.
  eexists; split; [reflexivity|]; cbn [PortOpen_Ref PortOpen_Ok].
  split; [reflexivity|apply String.eqb_eq].
Qed.

(** ** Arguments of the wrong shape *)

(** For a method NewMessage has a case for, arguments that are too few or
    of another type than the case asserts make the call panic; no error is
    returned for them. *)
Theorem NewMessage_ill_typed_panics (requestID : N) (method : string)
    (sig : list argType) (args : list arg) :
  requestSignature method = Some sig ->
  wellTyped sig args = false ->
  NewMessage requestID method args = Panics.
Proof.
  intros Hsig Hwt; revert Hsig; unfold requestSignature, NewMessage.
  repeat match goal with
    | |- context [String.eqb method ?s] => destruct (String.eqb method s)
    end;
    intros Hsig; try discriminate Hsig;
    injection Hsig as <-; cbn [wellTyped] in Hwt; try discriminate Hwt;
    repeat (destruct args as [|[] args];
            cbn [wellTyped hasType andb] in Hwt;
            cbn [bind argUint64 argBytes argString nth_error];
            try reflexivity; try discriminate Hwt).
Qed.

(** The methods NewResponseMessage has a case for, with the types its case
    asserts of the arguments. *)
Definition responseSignature (method : string) : option (list argType) :=
  if String.eqb method "portopen" then Some [TUint64; TString]
  else if String.eqb method "portsend" then Some [TUint64; TBytes]
  else if String.eqb method "portclose" then Some [TUint64]
  else None.

(** The envelope NewResponseMessage encodes: the request id, and a payload
    that holds the response type for portopen and the method name for
    portsend and portclose, with the arguments after it in their order. *)
Definition wireResponse (requestID : N) (responseType method : string)
    (args : list arg) : rlp.item :=
  wireRequest requestID
    (if String.eqb method "portopen" then responseType else method) args.

Lemma responseSignature_supported (method : string) (sig : list argType) :
  responseSignature method = Some sig ->
  In method ["portopen"; "portsend"; "portclose"].
Proof.
  unfold responseSignature.
  repeat match goal with
    | |- context [String.eqb method ?s] =>
        destruct (String.eqb_spec method s) as [->|_]; [intros _; in_list|]
    end.
  discriminate.
Qed.

(** For portopen, portsend and portclose, when the leading arguments have
    the asserted types, NewResponseMessage returns with a nil parser and a
    nil error the encoding of the envelope that holds the request id, the
    response type (portopen) or the method name (portsend, portclose), and
    these arguments in their order.  For every other method it returns
    ErrRPCNotSupport, and it never returns a parser. *)
Theorem NewResponseMessage_methods (requestID : N) (responseType method : string)
    (args : list arg) :
  (forall sig,
      responseSignature method = Some sig ->
      wellTyped sig args = true ->
      NewResponseMessage requestID responseType method args
      = Returns (Some (rlp.encode
                         (wireResponse requestID responseType method
                            (firstn (List.length sig) args))),
                 None, None))
  /\ (responseSignature method = None ->
      NewResponseMessage requestID responseType method args
      = Returns (None, None, Some ErrRPCNotSupport))
  /\ (forall decodedRlp callback err,
        NewResponseMessage requestID responseType method args
        = Returns (decodedRlp, callback, err) ->
        callback = None).
Proof.
  split; [|unfold responseSignature, NewResponseMessage; split].
  - intros sig Hsig Hwt.
    pose proof (responseSignature_supported method sig Hsig) as Hin.
    cbn [In] in Hin.
    repeat (destruct Hin as [<-|Hin];
            [ injection Hsig as <-; cbn [wellTyped] in Hwt;
              split_args Hwt args; reflexivity | ]).
    contradiction.
  - repeat match goal with
      | |- context [String.eqb method ?s] => destruct (String.eqb method s)
      end;
      intros Hsig; try discriminate Hsig; reflexivity.
  - intros decodedRlp callback err;
      repeat match goal with
        | |- context [String.eqb method ?s] => destruct (String.eqb method s)
        end;
      repeat match goal with
        | |- context [bind ?e _] => destruct e; cbn [bind]
        end;
      try discriminate;
      unfold encoded, EncodeToBytes; intros H; injection H as _ <- _; reflexivity.
Qed.

(** For portsend and portclose NewResponseMessage ignores the response type
    and does what NewMessage does: the same bytes, the same panics. *)
Theorem NewResponseMessage_as_request (requestID : N) (responseType method : string)
    (args : list arg) :
  method = "portsend" \/ method = "portclose" ->
  NewResponseMessage requestID responseType method args
  = NewMessage requestID method args.
Proof. intros [->| ->]; reflexivity. Qed.

End RLP_V2.

(** ** A reference environment

    The engine above is stated over any decoders and any collaborators.  To
    run it on concrete buffers the decoders are instantiated with the rlp
    model.  Modelled from the spec: a response envelope is the request id
    and a payload whose outermost tag is the marker "response" and whose
    method-name element says which decoder applies, the fields of the method
    after them; an inbound request carries its method name first. *)

Definition responseEnvelope (P : Type) : Type :=
  rlp.Struct (N * (rlp.Struct (string * (string * P)) * unit)).

Definition responseFields {P : Type} (envelope : responseEnvelope P) : P :=
  snd (snd (rlp.fieldsOf (fst (snd (rlp.fieldsOf envelope))))).

Definition requestEnvelope (P : Type) : Type :=
  rlp.Struct (N * (rlp.Struct (string * P) * unit)).

Definition requestFields {P : Type} (envelope : requestEnvelope P) : P :=
  snd (rlp.fieldsOf (fst (snd (rlp.fieldsOf envelope)))).

(** An envelope whose payload is a slice or a raw value, not a struct. *)
Definition plainEnvelope (P : Type) : Type := rlp.Struct (N * (P * unit)).

#[global] Instance responseEnvelopeCodec {P : Type} `{rlp.Fields P}
  : rlp.Codec (responseEnvelope P) := rlp.nestedCodec.

#[global] Instance requestEnvelopeCodec {P : Type} `{rlp.Fields P}
  : rlp.Codec (requestEnvelope P) := rlp.nestedCodec.

#[global] Instance plainEnvelopeCodec {P : Type} `{rlp.Codec P}
  : rlp.Codec (plainEnvelope P) := rlp.nestedCodec.

Definition response {P : Type} (requestID : N) (method : string) (fields : P)
  : responseEnvelope P :=
  rlp.Fieldwise (requestID, (rlp.Fieldwise ("response", (method, fields)), tt)).

Definition envelope {P : Type} (requestID : N) (payload : P) : plainEnvelope P :=
  rlp.Fieldwise (requestID, (payload, tt)).

(** Modelled from the spec: a decoder that reads the wire shape [W] and keeps
    the fields of [T]. *)
Definition rlpDecoder {W T : Type} `{rlp.Codec W} (project : W -> T) : Decoder T :=
  fun buffer =>
    match rlp.Decode (T := W) buffer with
    | Some w => inr (project w)
    | None => inl (ErrForeign "rlp: the buffer does not decode into the target")
    end.

#[global] Instance ItemCodec : rlp.Codec Item :=
  rlp.structCodec
    (fun i => (Item_Key i, (Item_Value i, tt)))
    (fun '(k, (v, tt)) => Build_Item k v)
    (fun i => match i with Build_Item _ _ => eq_refl end).

Definition refDecodeBlockPeak : Decoder blockPeakResponse :=
  rlpDecoder (W := responseEnvelope (N * unit))
    (fun w => {| blockPeak_BlockNumber := fst (responseFields w) |}).

Definition refDecodeBlock : Decoder rlp.item :=
  rlpDecoder (W := rlp.item) (fun w => w).

Definition refDecodeBlockHeader : Decoder blockHeaderResponse :=
  rlpDecoder (W := responseEnvelope (list Item * (bytes * unit)))
    (fun w => let '(items, (pubkey, _)) := responseFields w in
              {| blockHeader_Items := items; blockHeader_MinerPubkey := pubkey |}).

Definition refDecodeBlockquick : Decoder (blockquickResponse (list N)) :=
  rlpDecoder (W := responseEnvelope (list N * unit))
    (fun w => {| blockquick_Items := fst (responseFields w) |}).

(** A thanks! reply carries its outcome token and nothing else. *)
Definition refDecodeTicketThanks : Decoder string :=
  rlpDecoder (W := responseEnvelope (string * unit))
    (fun w => fst (responseFields w)).

(** A too_low or too_old reply carries, after its outcome token, the block
    hash, the totals, the local address and the device signature of the
    server's claim. *)
Definition refDecodeTicketClaim : Decoder ticketTooLowResponse :=
  rlpDecoder
    (W := responseEnvelope (string * (bytes * (N * (N * (bytes * (bytes * unit)))))))
    (fun w => let '(_, (blockHash, (conns, (total, (localAddr, (sig, _)))))) :=
                responseFields w in
              {| tooLow_BlockHash := blockHash; tooLow_TotalConnections := conns;
                 tooLow_TotalBytes := total; tooLow_LocalAddr := localAddr;
                 tooLow_DeviceSig := sig |}).

Definition refDecodeObject : Decoder objectResponse :=
  rlpDecoder
    (W := responseEnvelope
            (rlp.Struct (bytes * (N * (bytes * (N * (N * (bytes * (bytes * (bytes * unit))))))))
             * unit))
    (fun w => let '(serverID, (peak, (fleet, (conns, (total, (localAddr, (dsig, (ssig, _)))))))) :=
                rlp.fieldsOf (fst (responseFields w)) in
              {| object_ServerID := serverID; object_PeakBlock := peak;
                 object_FleetAddr := fleet; object_TotalConnections := conns;
                 object_TotalBytes := total; object_DeviceSig := dsig;
                 object_ServerSig := ssig; object_LocalAddr := localAddr |}).

Definition refDecodeAccount : Decoder accountResponse :=
  rlpDecoder (W := responseEnvelope (list Item * (list rlp.item * unit)))
    (fun w => let '(items, (proof, _)) := responseFields w in
              {| account_Items := items; account_MerkleProof := proof |}).

Definition refDecodeAccountRoots : Decoder accountRootsResponse :=
  rlpDecoder (W := responseEnvelope (list bytes * unit))
    (fun w => {| accountRoots_AccountRoots := fst (responseFields w) |}).

Definition refDecodeAccountValue : Decoder accountValueResponse :=
  rlpDecoder (W := responseEnvelope (list rlp.item * unit))
    (fun w => {| accountValue_MerkleProof := fst (responseFields w) |}).

Definition refDecodePortOpen : Decoder portOpenResponse :=
  rlpDecoder (W := responseEnvelope (N * (string * unit)))
    (fun w => let '(ref, (res, _)) := responseFields w in
              {| portOpen_Result := res; portOpen_Ref := ref |}).

Definition refDecodeServerObject : Decoder serverObjectResponse :=
  rlpDecoder
    (W := responseEnvelope (rlp.Struct (bytes * (N * (N * (bytes * unit)))) * unit))
    (fun w => let '(host, (edge, (server, (sig, _)))) :=
                rlp.fieldsOf (fst (responseFields w)) in
              {| serverObject_Host := host; serverObject_EdgePort := edge;
                 serverObject_ServerPort := server; serverObject_ServerSig := sig |}).

Definition refDecodeStateRoots : Decoder stateRootsResponse :=
  rlpDecoder (W := responseEnvelope (list bytes * unit))
    (fun w => {| stateRoots_StateRoots := fst (responseFields w) |}).

Definition refDecodePortOpenInbound : Decoder portOpenInboundRequest :=
  rlpDecoder (W := requestEnvelope (N * (N * (bytes * unit))))
    (fun w => let '(port, (ref, (device, _))) := requestFields w in
              {| portOpenIn_DeviceID := device; portOpenIn_Port := port;
                 portOpenIn_Ref := ref |}).

Definition refDecodePortSendInbound : Decoder portSendInboundRequest :=
  rlpDecoder (W := requestEnvelope (N * (bytes * unit)))
    (fun w => let '(ref, (data, _)) := requestFields w in
              {| portSendIn_Ref := ref; portSendIn_Data := data |}).

Definition refDecodePortCloseInbound : Decoder portCloseInboundRequest :=
  rlpDecoder (W := requestEnvelope (N * unit))
    (fun w => {| portCloseIn_Ref := fst (requestFields w) |}).

Definition refDecodeGoodbyeInbound : Decoder goodbyeInboundRequest :=
  rlpDecoder (W := requestEnvelope (string * unit))
    (fun w => {| goodbyeIn_Reason := fst (requestFields w) |}).

(** Modelled from the spec: an in-place decoder that fills the wire shape
    [W], started from the target, and keeps the fields of [T]. *)
Definition rlpInPlaceDecoder {W T : Type} `{rlp.Filler W} (embed : T -> W)
    (project : W -> T) : InPlaceDecoder T :=
  fun target buffer =>
    match rlp.DecodeInPlace (embed target) buffer with
    | (filled, true) => (project filled, None)
    | (filled, false) =>
        (project filled,
         Some (ErrForeign "rlp: the buffer does not decode into the target"))
    end.

(** An error envelope: the request id and the list of strings whose last
    element is the message. *)
Definition refDecodeError : InPlaceDecoder errorResponse :=
  rlpInPlaceDecoder (W := plainEnvelope (list string))
    (fun target => envelope 0 (errorResponse_Payload target))
    (fun w => {| errorResponse_Payload := fst (snd (rlp.fieldsOf w)) |}).

(** The request id of any envelope, whatever its payload. *)
Definition refDecodeResponseID : InPlaceDecoder responseID :=
  rlpInPlaceDecoder (W := plainEnvelope rlp.item)
    (fun target => envelope (responseID_RequestID target) (rlp.Str []))
    (fun w => {| responseID_RequestID := fst (rlp.fieldsOf w) |}).

(** Stand-ins for the collaborators outside the package.  The digest is not
    a cryptographic hash; nothing proved above depends on which function it
    is. *)
Record refHeader := {
  ref_txHash : bytes; ref_stateHash : bytes; ref_prevBlock : bytes;
  ref_minerSig : bytes; ref_minerPubkey : bytes;
  ref_timestamp : N; ref_number : N; ref_nonce : N }.

Definition refFindItemInItems (items : list Item) (key : string) : Item * option error :=
  match find (fun i => String.eqb (Item_Key i) key) items with
  | Some i => (i, None)
  | None => (zeroItem, Some errKeyNotFoundInItems)
  end.

Definition refDecompressPubkeyBytes (pubkey : bytes) : bytes := pubkey.

Definition refNewHeader (txHash stateHash prevBlock minerSig minerPubkey : bytes)
    (timestamp number nonce : N) : error + refHeader :=
  inr {| ref_txHash := txHash; ref_stateHash := stateHash; ref_prevBlock := prevBlock;
         ref_minerSig := minerSig; ref_minerPubkey := minerPubkey;
         ref_timestamp := timestamp; ref_number := number; ref_nonce := nonce |}.

Definition refHeaderHash (header : refHeader) : bytes :=
  firstn 32 (ref_txHash header ++ ref_stateHash header ++ repeat x00 32).

Definition refDecodeBytesToUint (b : bytes) : N := rlp.fromBigEndian b mod 2 ^ 64.

Definition refDecodeBytesToInt (b : bytes) : Z := Z.of_N (refDecodeBytesToUint b).

Definition refParseTree (rawTree : list rlp.item)
  : error + (bytes * N * list MerkleTreeLeave) :=
  inl (ErrForeign "merkle tree parser: outside the reference environment").

(** The values the parsers return in the reference environment. *)
Definition refAny : Type := @any rlp.item (list N) refHeader.

Definition refParseResponse : bytes -> result refAny :=
  parseResponse
    (decodeBlockPeak := refDecodeBlockPeak) (decodeBlock := refDecodeBlock)
    (decodeBlockHeader := refDecodeBlockHeader) (decodeBlockquick := refDecodeBlockquick)
    (decodeTicketThanks := refDecodeTicketThanks)
    (decodeTicketTooLow := refDecodeTicketClaim)
    (decodeTicketTooOld := refDecodeTicketClaim)
    (decodeObject := refDecodeObject) (decodeAccount := refDecodeAccount)
    (decodeAccountRoots := refDecodeAccountRoots)
    (decodeAccountValue := refDecodeAccountValue)
    (decodePortOpen := refDecodePortOpen) (decodeServerObject := refDecodeServerObject)
    (decodeStateRoots := refDecodeStateRoots)
    refFindItemInItems refDecompressPubkeyBytes refNewHeader refHeaderHash
    refDecodeBytesToUint refDecodeBytesToInt refParseTree.

Definition refParseInboundRequest : bytes -> result refAny :=
  parseInboundRequest
    (decodePortOpenInbound := refDecodePortOpenInbound)
    (decodePortSendInbound := refDecodePortSendInbound)
    (decodePortCloseInbound := refDecodePortCloseInbound)
    (decodeGoodbyeInbound := refDecodeGoodbyeInbound).

Definition refParseDeviceTicketResponse : bytes -> result refAny :=
  parseDeviceTicketResponse
    (decodeTicketThanks := refDecodeTicketThanks)
    (decodeTicketTooLow := refDecodeTicketClaim)
    (decodeTicketTooOld := refDecodeTicketClaim).

Definition refParseBlockHeaderResponse : bytes -> result refAny :=
  parseBlockHeaderResponse (decodeBlockHeader := refDecodeBlockHeader)
    refFindItemInItems refDecompressPubkeyBytes refNewHeader refHeaderHash
    refDecodeBytesToUint.

Definition refParseServerObjResponse : bytes -> result refAny :=
  parseServerObjResponse (decodeServerObject := refDecodeServerObject).

Definition refNewMessage : N -> string -> list arg -> outcome (@message rlp.item (list N) refHeader) :=
  NewMessage
    (decodeBlockPeak := refDecodeBlockPeak) (decodeBlock := refDecodeBlock)
    (decodeBlockHeader := refDecodeBlockHeader) (decodeBlockquick := refDecodeBlockquick)
    (decodeTicketThanks := refDecodeTicketThanks)
    (decodeTicketTooLow := refDecodeTicketClaim)
    (decodeTicketTooOld := refDecodeTicketClaim)
    (decodeObject := refDecodeObject) (decodeAccount := refDecodeAccount)
    (decodeAccountRoots := refDecodeAccountRoots)
    (decodeAccountValue := refDecodeAccountValue)
    (decodePortOpen := refDecodePortOpen) (decodeServerObject := refDecodeServerObject)
    (decodeStateRoots := refDecodeStateRoots)
    refFindItemInItems refDecompressPubkeyBytes refNewHeader refHeaderHash
    refDecodeBytesToUint refDecodeBytesToInt refParseTree.

(** *** Sample buffers *)

(** The reply [1, ["response", "hello", "ok"]]. *)
Definition helloReply : bytes :=
  rlp.EncodeToBytes (response 1 "hello" ("ok", tt)).

(** The reply [2, ["response", "getnode", [host, 41046, 51054, sig]]]. *)
Definition nodeReply : bytes :=
  rlp.EncodeToBytes
    (response 2 "getnode"
       (rlp.Fieldwise (bytesOf "seed-alpha.diode.io", (41046, (51054, (bytesOf "sig", tt)))),
        tt)).

(** The reply [3, ["response", "ticket", "thanks!"]]. *)
Definition thanksReply : bytes :=
  rlp.EncodeToBytes (response 3 "ticket" ("thanks!", tt)).

(** What the server claims in the two replies below. *)
Definition serverClaim : ticketTooLowResponse := {|
  tooLow_BlockHash := bytesOf "block-hash-of-the-server";
  tooLow_TotalConnections := 3;
  tooLow_TotalBytes := 4096;
  tooLow_LocalAddr := bytesOf "10.0.0.7";
  tooLow_DeviceSig := bytesOf "device-signature" |}.

Definition ticketReply (requestID : N) (outcomeToken : string) : bytes :=
  rlp.EncodeToBytes
    (response requestID "ticket"
       (outcomeToken,
        (tooLow_BlockHash serverClaim,
         (tooLow_TotalConnections serverClaim,
          (tooLow_TotalBytes serverClaim,
           (tooLow_LocalAddr serverClaim,
            (tooLow_DeviceSig serverClaim, tt))))))).

Definition tooLowReply : bytes := ticketReply 4 "too_low".
Definition tooOldReply : bytes := ticketReply 5 "too_old".

(** A block-header reply whose block_hash item is not the digest of the
    header its other items describe. *)
Definition forgedHeaderItems : list Item :=
  [ {| Item_Key := "transaction_hash"; Item_Value := bytesOf "tx" |};
    {| Item_Key := "state_hash"; Item_Value := bytesOf "state" |};
    {| Item_Key := "block_hash"; Item_Value := bytesOf "not-the-digest" |};
    {| Item_Key := "previous_block"; Item_Value := bytesOf "prev" |};
    {| Item_Key := "nonce"; Item_Value := [x07] |};
    {| Item_Key := "miner_signature"; Item_Value := bytesOf "sig" |};
    {| Item_Key := "timestamp"; Item_Value := [x5d; x00; x00; x00] |};
    {| Item_Key := "number"; Item_Value := [x01; x00] |} ].

Definition forgedHeaderResponse : blockHeaderResponse := {|
  blockHeader_Items := forgedHeaderItems;
  blockHeader_MinerPubkey := bytesOf "pubkey" |}.

Definition forgedHeaderReply : bytes :=
  rlp.EncodeToBytes
    (response 6 "getblockheader2" (forgedHeaderItems, (bytesOf "pubkey", tt))).

(** The error envelope [7, []], whose payload list is empty, and the error
    envelope [8, ["error", "getblock", "not found"]]. *)
Definition emptyErrorReply : bytes :=
  rlp.EncodeToBytes (envelope 7 (@nil string)).

Definition errorReply : bytes :=
  rlp.EncodeToBytes (envelope 8 ["error"; "getblock"; "not found"]).

(** An envelope whose request id is 0, and a buffer cut inside its first
    element. *)
Definition idZeroReply : bytes :=
  rlp.EncodeToBytes
    (envelope 0 (rlp.Lst [rlp.Str (bytesOf "response"); rlp.Str (bytesOf "ok")])).

Definition truncatedReply : bytes := [xc9; x82; x01].

(** The list [7, ["a", "b"], 1]: an error envelope with an element too many
    after its payload. *)
Definition overlongErrorReply : bytes := [xc5; x07; xc2; x61; x62; x01].

(** A list of three bytes that holds the request id 5 and the header of a
    payload list of two bytes, of which only one is there. *)
Definition brokenPayloadReply : bytes := [xc3; x05; xc2; x01].

(** The envelope [5, ["response", "ok"]]. *)
Definition idFiveReply : bytes :=
  rlp.EncodeToBytes
    (envelope 5 (rlp.Lst [rlp.Str (bytesOf "response"); rlp.Str (bytesOf "ok")])).

(** ** The round-trip law *)

(** C2: for every record type with a shape descriptor (each request struct
    of NewMessage and NewResponseMessage, and every struct built from uint64,
    string, []byte, slices and nested structs), decoding the bytes produced
    by encoding a record yields the record. *)
Theorem record_round_trip {T : Type} `{rlp.Codec T} (record : T) :
  rlp.inRange record ->
  N.of_nat (List.length (rlp.EncodeToBytes record)) < 2 ^ 64 ->
  rlp.Decode (rlp.EncodeToBytes record) = Some record.
Proof.
  intros Hrange Hsize; unfold rlp.Decode, rlp.EncodeToBytes in *.
  pose proof (rlp.decode_encode (rlp.toItem record)
                (List.length (rlp.encode (rlp.toItem record))) []
                (Nat.le_refl _) Hsize) as Hd.
  rewrite app_nil_r in Hd; rewrite Hd.
  apply rlp.fromItem_toItem; exact Hrange.
Qed.

Definition sampleTicketRequest : ticketRequest := {|
  ticket_RequestID := 9; ticket_Method := "ticket";
  ticket_BlockNumber := 1000000;
  ticket_FleetAddr := repeat x6e 20;
  ticket_TotalConnections := 0; ticket_TotalBytes := 18446744073709551615;
  ticket_LocalAddr := [];
  ticket_DeviceSig := repeat xab 65 |}.

Lemma record_round_trip_witness :
  rlp.inRange sampleTicketRequest
  /\ N.of_nat (List.length (rlp.EncodeToBytes sampleTicketRequest)) < 2 ^ 64
  /\ rlp.Decode (rlp.EncodeToBytes sampleTicketRequest) = Some sampleTicketRequest.
Proof.
  assert (Hrange : rlp.inRange sampleTicketRequest)
    by (cbn; repeat split; reflexivity).
  assert (Hsize : N.of_nat (List.length (rlp.EncodeToBytes sampleTicketRequest)) < 2 ^ 64)
    by (vm_compute; reflexivity).
  exact (conj Hrange (conj Hsize (record_round_trip sampleTicketRequest Hrange Hsize))).
Defined.

(** ** The claims on concrete buffers *)

(** C1 as stated fails at hello: the reply [1, ["response", "hello", "ok"]]
    contains the token hello and no other method token, and parseResponse
    hands it to no decoder. *)
Lemma parseResponse_hello_unclassified :
  In "hello" methodTokens
  /\ soleToken helloReply "hello" = true
  /\ refParseResponse helloReply = (None, Some ErrResponseHandlerNotFound).
Proof. repeat split; [unfold methodTokens; in_list|vm_compute; reflexivity..]. Qed.

Lemma parseResponse_sole_token_witness :
  soleToken nodeReply "getnode" = true
  /\ refParseResponse nodeReply = refParseServerObjResponse nodeReply.
Proof.
  assert (Hsole : soleToken nodeReply "getnode" = true) by (vm_compute; reflexivity).
  split; [exact Hsole|].
  unfold refParseResponse, refParseServerObjResponse.
  refine (parseResponse_sole_token _ _ _ _ _ _ _ "getnode" (Some _) nodeReply _ Hsole).
  unfold soleTokenRoutes; cbn [In]; do 5 right; left; reflexivity.
Defined.

Lemma parseInboundRequest_unmatched_witness :
  matchesNone inboundMarkers helloReply = true
  /\ refParseInboundRequest helloReply = (None, None).
Proof.
  assert (Hnone : matchesNone inboundMarkers helloReply = true) by (vm_compute; reflexivity).
  split; [exact Hnone|].
  unfold refParseInboundRequest.
  exact (parseInboundRequest_unmatched helloReply Hnone).
Defined.

(** C4 as stated fails at too_old: the reply carries the server's block
    hash, totals, local address and device signature, and the ticket
    returned for it carries none of them. *)
Lemma tooOld_reply_drops_server_claim :
  refDecodeTicketClaim tooOldReply = inr serverClaim
  /\ tooLow_BlockHash serverClaim = bytesOf "block-hash-of-the-server"
  /\ tooLow_TotalBytes serverClaim = 4096
  /\ refParseDeviceTicketResponse tooOldReply = (Some (AnyDeviceTicket tooOldTicket), None)
  /\ BlockHash tooOldTicket = []
  /\ TotalBytes tooOldTicket = 0.
Proof. repeat split; vm_compute; reflexivity. Qed.

Lemma parseDeviceTicketResponse_outcomes_witness :
  refParseDeviceTicketResponse thanksReply
  = (Some (AnyDeviceTicket zeroDeviceTicket), None)
  /\ refParseDeviceTicketResponse tooLowReply
     = (Some (AnyDeviceTicket (tooLowTicket serverClaim)), None)
  /\ refParseDeviceTicketResponse tooOldReply
     = (Some (AnyDeviceTicket tooOldTicket), None).
Proof.
  unfold refParseDeviceTicketResponse.
  split; [|split].
  - refine (proj1 (parseDeviceTicketResponse_outcomes thanksReply) "thanks!" _ _);
      vm_compute; reflexivity.
  - refine (proj1 (proj2 (parseDeviceTicketResponse_outcomes tooLowReply))
              serverClaim _ _ _); vm_compute; reflexivity.
  - refine (proj2 (proj2 (parseDeviceTicketResponse_outcomes tooOldReply))
              serverClaim _ _ _ _); vm_compute; reflexivity.
Defined.

Lemma parseDeviceTicketResponse_thanks_witness :
  contains thanksReply ticketThanksPivot = true
  /\ refDecodeTicketThanks thanksReply = inr "thanks!"
  /\ exists ticket,
      refParseDeviceTicketResponse thanksReply = (Some (AnyDeviceTicket ticket), None)
      /\ TotalConnections ticket = 0 /\ TotalBytes ticket = 0
      /\ BlockNumber ticket = 0%Z
      /\ BlockHash ticket = [] /\ LocalAddr ticket = []
      /\ DeviceSig ticket = [] /\ ServerSig ticket = []
      /\ ServerID ticket = repeat x00 20 /\ FleetAddr ticket = repeat x00 20
      /\ Err ticket = None.
Proof.
  assert (Hthanks : contains thanksReply ticketThanksPivot = true)
    by (vm_compute; reflexivity).
  assert (Hdec : refDecodeTicketThanks thanksReply = inr "thanks!")
    by (vm_compute; reflexivity).
  split; [exact Hthanks|split; [exact Hdec|]].
  unfold refParseDeviceTicketResponse.
  exact (parseDeviceTicketResponse_thanks
           (decodeTicketThanks := refDecodeTicketThanks) thanksReply "thanks!"
           Hthanks Hdec).
Defined.

Lemma parseDeviceTicketResponse_unrecognized_witness :
  contains helloReply ticketThanksPivot = false
  /\ contains helloReply ticketTooLowPivot = false
  /\ contains helloReply ticketTooOldPivot = false
  /\ refParseDeviceTicketResponse helloReply = (None, Some ErrFailedToParseTicket).
Proof.
  assert (Hthanks : contains helloReply ticketThanksPivot = false) by (vm_compute; reflexivity).
  assert (Hlow : contains helloReply ticketTooLowPivot = false) by (vm_compute; reflexivity).
  assert (Hold : contains helloReply ticketTooOldPivot = false) by (vm_compute; reflexivity).
  repeat (split; [assumption|]).
  unfold refParseDeviceTicketResponse.
  exact (parseDeviceTicketResponse_unrecognized helloReply Hthanks Hlow Hold).
Defined.

(** The header the reference environment rebuilds from [forgedHeaderReply]. *)
Definition rebuiltHeader : refHeader := {|
  ref_txHash := bytesOf "tx"; ref_stateHash := bytesOf "state";
  ref_prevBlock := bytesOf "prev"; ref_minerSig := bytesOf "sig";
  ref_minerPubkey := bytesOf "pubkey";
  ref_timestamp := 1560281088; ref_number := 256; ref_nonce := 7 |}.

Lemma parseBlockHeaderResponse_hash_mismatch_witness :
  refDecodeBlockHeader forgedHeaderReply = inr forgedHeaderResponse
  /\ refHeaderHash rebuiltHeader <> bytesOf "not-the-digest"
  /\ refParseBlockHeaderResponse forgedHeaderReply
     = (None, Some (ErrBlockhashMismatch (bytesOf "not-the-digest"))).
Proof.
  assert (Hdec : refDecodeBlockHeader forgedHeaderReply = inr forgedHeaderResponse)
    by (vm_compute; reflexivity).
  assert (Hne : refHeaderHash rebuiltHeader <> bytesOf "not-the-digest")
    by (vm_compute; discriminate).
  split; [exact Hdec|split; [exact Hne|]].
  unfold refParseBlockHeaderResponse.
  exact (parseBlockHeaderResponse_hash_mismatch
           (decodeBlockHeader := refDecodeBlockHeader)
           refFindItemInItems refDecompressPubkeyBytes refNewHeader refHeaderHash
           refDecodeBytesToUint forgedHeaderReply forgedHeaderResponse rebuiltHeader
           Hdec eq_refl Hne).
Defined.

(** C8 as stated fails at goodbye (and at getblock2, getblockheader and
    getblockquick): the token is in the list and NewMessage has no case for
    it. *)
Lemma NewMessage_goodbye_not_supported :
  In "goodbye" methodTokens
  /\ refNewMessage 1 "goodbye" [] = Returns (None, None, Some ErrRPCNotSupport)
  /\ refNewMessage 1 "getblock2" [ArgUint64 100]
     = Returns (None, None, Some ErrRPCNotSupport)
  /\ refNewMessage 1 "getblockheader" [ArgUint64 100]
     = Returns (None, None, Some ErrRPCNotSupport)
  /\ refNewMessage 1 "getblockquick" [ArgUint64 100; ArgUint64 100]
     = Returns (None, None, Some ErrRPCNotSupport).
Proof. repeat split; [unfold methodTokens; in_list|reflexivity..]. Qed.

Definition sampleTicketArgs : list arg :=
  [ ArgUint64 1000000; ArgBytes (repeat x6e 20); ArgUint64 0;
    ArgUint64 18446744073709551615; ArgBytes []; ArgBytes (repeat xab 65) ].

Lemma NewMessage_supported_methods_witness :
  requestSignature "ticket" = Some [TUint64; TBytes; TUint64; TUint64; TBytes; TBytes]
  /\ wellTyped [TUint64; TBytes; TUint64; TUint64; TBytes; TBytes] sampleTicketArgs = true
  /\ (exists callback,
        refNewMessage 9 "ticket" sampleTicketArgs
        = Returns (Some (rlp.encode (wireRequest 9 "ticket" sampleTicketArgs)),
                   Some callback, None))
  /\ requestSignature "goodbye" = None
  /\ refNewMessage 9 "goodbye" [] = Returns (None, None, Some ErrRPCNotSupport).
Proof.
  unfold refNewMessage.
  repeat (split; [reflexivity|]).
  split.
  - eexists.
    refine (proj1 (NewMessage_supported_methods _ _ _ _ _ _ _ 9 "ticket" sampleTicketArgs)
              _ eq_refl eq_refl).
  - split; [reflexivity|].
    refine (proj2 (NewMessage_supported_methods _ _ _ _ _ _ _ 9 "goodbye" []) eq_refl).
Defined.

Lemma parseError_last_or_panic_witness :
  refDecodeError zeroErrorResponse overlongErrorReply
  = ({| errorResponse_Payload := ["a"; "b"] |},
     Some (ErrForeign "rlp: the buffer does not decode into the target"))
  /\ parseError (decodeError := refDecodeError) overlongErrorReply
     = Returns ({| Error_Message := "b" |}, None)
  /\ refDecodeError zeroErrorResponse emptyErrorReply
     = ({| errorResponse_Payload := [] |}, None)
  /\ parseError (decodeError := refDecodeError) emptyErrorReply = Panics
  /\ refDecodeError zeroErrorResponse []
     = ({| errorResponse_Payload := [] |},
        Some (ErrForeign "rlp: the buffer does not decode into the target"))
  /\ parseError (decodeError := refDecodeError) [] = Panics
  /\ parseError (decodeError := refDecodeError) errorReply
     = Returns ({| Error_Message := "not found" |}, None).
Proof.
  assert (Hlong : refDecodeError zeroErrorResponse overlongErrorReply
                  = ({| errorResponse_Payload := ["a"; "b"] |},
                     Some (ErrForeign "rlp: the buffer does not decode into the target")))
    by (vm_compute; reflexivity).
  assert (Hempty : refDecodeError zeroErrorResponse emptyErrorReply
                   = ({| errorResponse_Payload := [] |}, None))
    by (vm_compute; reflexivity).
  assert (Hnone : refDecodeError zeroErrorResponse []
                  = ({| errorResponse_Payload := [] |},
                     Some (ErrForeign "rlp: the buffer does not decode into the target")))
    by (vm_compute; reflexivity).
  assert (Hgood : refDecodeError zeroErrorResponse errorReply
                  = ({| errorResponse_Payload := ["error"; "getblock"; "not found"] |},
                     None))
    by (vm_compute; reflexivity).
  split; [exact Hlong|split; [|split; [exact Hempty|split; [|split; [exact Hnone|split]]]]].
  - exact (proj2 (proj2 (parseError_last_or_panic (decodeError := refDecodeError)
                           overlongErrorReply _ _ Hlong)) ["a"] "b" eq_refl).
  - exact (proj1 (proj2 (parseError_last_or_panic (decodeError := refDecodeError)
                           emptyErrorReply _ _ Hempty)) eq_refl).
  - exact (proj1 (proj2 (parseError_last_or_panic (decodeError := refDecodeError)
                           [] _ _ Hnone)) eq_refl).
  - exact (proj2 (proj2 (parseError_last_or_panic (decodeError := refDecodeError)
                           errorReply _ _ Hgood)) ["error"; "getblock"] "not found" eq_refl).
Defined.

(** C10 as stated fails when the decoder stops after the request id: the
    buffer does not decode, and ResponseID returns the 5 it holds, not 0. *)
Lemma ResponseID_keeps_stored_id :
  refDecodeResponseID zeroResponseID brokenPayloadReply
  = ({| responseID_RequestID := 5 |},
     Some (ErrForeign "rlp: the buffer does not decode into the target"))
  /\ ResponseID (decodeResponseID := refDecodeResponseID) brokenPayloadReply = 5
  /\ ResponseID (decodeResponseID := refDecodeResponseID) brokenPayloadReply <> 0.
Proof. repeat split; try (vm_compute; reflexivity); vm_compute; discriminate. Qed.

Lemma ResponseID_undecodable_witness :
  refDecodeResponseID zeroResponseID brokenPayloadReply
  = ({| responseID_RequestID := 5 |},
     Some (ErrForeign "rlp: the buffer does not decode into the target"))
  /\ ResponseID (decodeResponseID := refDecodeResponseID) brokenPayloadReply = 5
  /\ ResponseID (decodeResponseID := refDecodeResponseID) idFiveReply
     = ResponseID (decodeResponseID := refDecodeResponseID) brokenPayloadReply
  /\ refDecodeResponseID zeroResponseID truncatedReply
     = (zeroResponseID,
        Some (ErrForeign "rlp: the buffer does not decode into the target"))
  /\ ResponseID (decodeResponseID := refDecodeResponseID) truncatedReply = 0
  /\ ResponseID (decodeResponseID := refDecodeResponseID) idZeroReply
     = ResponseID (decodeResponseID := refDecodeResponseID) truncatedReply.
Proof.
  assert (Hbroken : refDecodeResponseID zeroResponseID brokenPayloadReply
                    = ({| responseID_RequestID := 5 |},
                       Some (ErrForeign "rlp: the buffer does not decode into the target")))
    by (vm_compute; reflexivity).
  assert (Hcut : refDecodeResponseID zeroResponseID truncatedReply
                 = (zeroResponseID,
                    Some (ErrForeign "rlp: the buffer does not decode into the target")))
    by (vm_compute; reflexivity).
  pose proof (ResponseID_undecodable (decodeResponseID := refDecodeResponseID)
                brokenPayloadReply _ _ Hbroken) as (Hfive & _ & Hsame).
  pose proof (ResponseID_undecodable (decodeResponseID := refDecodeResponseID)
                truncatedReply _ _ Hcut) as (_ & Hzero & Hsame').
  split; [exact Hbroken|split; [exact Hfive|split; [|split; [exact Hcut|split]]]].
  - apply (Hsame idFiveReply {| responseID_RequestID := 5 |}); vm_compute; reflexivity.
  - apply Hzero; reflexivity.
  - apply (Hsame' idZeroReply {| responseID_RequestID := 0 |}); vm_compute; reflexivity.
Defined.

(** *** The further properties on concrete buffers *)

Definition refParseBlockResponse : bytes -> result refAny :=
  parseBlockResponse (decodeBlock := refDecodeBlock).

Lemma parseResponse_block_shadows_witness :
  contains forgedHeaderReply blockHeader2Pivot = true
  /\ contains forgedHeaderReply portOpenPivot = false
  /\ refParseResponse forgedHeaderReply = refParseBlockResponse forgedHeaderReply.
Proof.
  assert (Hmarker : contains forgedHeaderReply blockHeader2Pivot = true)
    by (vm_compute; reflexivity).
  assert (Hopen : contains forgedHeaderReply portOpenPivot = false)
    by (vm_compute; reflexivity).
  assert (Hin : In blockHeader2Pivot blockExtensions)
    by (unfold blockExtensions; in_list).
  split; [exact Hmarker|split; [exact Hopen|]].
  unfold refParseResponse, refParseBlockResponse.
  rewrite (parseResponse_block_shadows _ _ _ _ _ _ _ forgedHeaderReply blockHeader2Pivot
             Hin Hmarker).
  now rewrite Hopen.
Defined.

Lemma parseResponse_ticket_marker_witness :
  soleToken thanksReply "ticket" = true
  /\ contains thanksReply ticketPivot = false
  /\ refParseResponse thanksReply = (None, Some ErrResponseHandlerNotFound).
Proof.
  assert (Hsole : soleToken thanksReply "ticket" = true) by (vm_compute; reflexivity).
  assert (Hget : contains thanksReply ticketPivot = false) by (vm_compute; reflexivity).
  split; [exact Hsole|split; [exact Hget|]].
  unfold refParseResponse.
  rewrite (parseResponse_ticket_marker _ _ _ _ _ _ _ thanksReply Hsole).
  now rewrite Hget.
Defined.

Lemma parseResponse_unmatched_witness :
  matchesNone responseMarkers helloReply = true
  /\ refParseResponse helloReply = (None, Some ErrResponseHandlerNotFound).
Proof.
  assert (Hnone : matchesNone responseMarkers helloReply = true)
    by (vm_compute; reflexivity).
  split; [exact Hnone|].
  unfold refParseResponse.
  exact (parseResponse_unmatched _ _ _ _ _ _ _ helloReply Hnone).
Defined.

(** A block-header reply whose block_hash item is the digest of the header
    its other items describe. *)
Definition honestHeaderItems : list Item :=
  [ {| Item_Key := "transaction_hash"; Item_Value := bytesOf "tx" |};
    {| Item_Key := "state_hash"; Item_Value := bytesOf "state" |};
    {| Item_Key := "block_hash"; Item_Value := refHeaderHash rebuiltHeader |};
    {| Item_Key := "previous_block"; Item_Value := bytesOf "prev" |};
    {| Item_Key := "nonce"; Item_Value := [x07] |};
    {| Item_Key := "miner_signature"; Item_Value := bytesOf "sig" |};
    {| Item_Key := "timestamp"; Item_Value := [x5d; x00; x00; x00] |};
    {| Item_Key := "number"; Item_Value := [x01; x00] |} ].

Definition honestHeaderReply : bytes :=
  rlp.EncodeToBytes
    (response 6 "getblockheader2" (honestHeaderItems, (bytesOf "pubkey", tt))).

Lemma parseBlockHeaderResponse_header_witness :
  refParseBlockHeaderResponse honestHeaderReply = (Some (AnyHeader rebuiltHeader), None)
  /\ exists response,
      refDecodeBlockHeader honestHeaderReply = inr response
      /\ recomputedHeader refFindItemInItems refDecompressPubkeyBytes refNewHeader
           refDecodeBytesToUint response = inr rebuiltHeader
      /\ refHeaderHash rebuiltHeader = claimedBlockHash refFindItemInItems response.
Proof.
  assert (Hparse : refParseBlockHeaderResponse honestHeaderReply
                   = (Some (AnyHeader rebuiltHeader), None))
    by (vm_compute; reflexivity).
  split; [exact Hparse|].
  exact (parseBlockHeaderResponse_header
           (decodeBlockHeader := refDecodeBlockHeader)
           refFindItemInItems refDecompressPubkeyBytes refNewHeader refHeaderHash
           refDecodeBytesToUint honestHeaderReply rebuiltHeader Hparse).
Defined.

Lemma NewMessage_envelope_witness :
  refNewMessage 9 "ticket" sampleTicketArgs
  = Returns (Some (rlp.EncodeToBytes sampleTicketRequest),
             Some refParseDeviceTicketResponse, None)
  /\ N.of_nat (List.length (rlp.EncodeToBytes sampleTicketRequest)) < 2 ^ 64
  /\ exists fields,
      rlp.decode (List.length (rlp.EncodeToBytes sampleTicketRequest))
        (rlp.EncodeToBytes sampleTicketRequest)
      = Some (rlp.Lst [ rlp.Str (rlp.putUint 9);
                        rlp.Lst (rlp.Str (bytesOf "ticket") :: fields) ], []).
Proof.
  assert (Hcall : refNewMessage 9 "ticket" sampleTicketArgs
                  = Returns (Some (rlp.EncodeToBytes sampleTicketRequest),
                             Some refParseDeviceTicketResponse, None))
    by reflexivity.
  assert (Hsize : N.of_nat (List.length (rlp.EncodeToBytes sampleTicketRequest)) < 2 ^ 64)
    by (vm_compute; reflexivity).
  split; [exact Hcall|split; [exact Hsize|]].
  exact (NewMessage_envelope _ _ _ _ _ _ _ _ _ _ _ _ Hcall Hsize).
Defined.

(** ** Error messages to the peer *)

Record Message := { Len : Z; Buffer : bytes }.

(** The double quote of the format string. *)
Definition quote : string := String (ascii_of_nat 34) "".

(** NewErrorResponse: the bytes of
    [fmt.Sprintf("[\"error\", \"%s\", \"%+v\"]", method, err.Error())];
    [errorText] is the string [err.Error()]. *)
Definition NewErrorResponse (method errorText : string) : Message :=
  let ret :=
    bytesOf
      (String.append "["
         (String.append quote
            (String.append "error"
               (String.append quote
                  (String.append ", "
                     (String.append quote
                        (String.append method
                           (String.append quote
                              (String.append ", "
                                 (String.append quote
                                    (String.append errorText
                                       (String.append quote "]")))))))))))) in
  {| Len := Z.of_nat (List.length ret); Buffer := ret |}.

Lemma bytesOf_append (s t : string) :
  bytesOf (String.append s t) = bytesOf s ++ bytesOf t.
Proof.
  unfold bytesOf, list_byte_of_string.
  induction s as [|c s IH]; [reflexivity|].
  cbn [String.append list_ascii_of_string map app]; now rewrite IH.
Qed.

Lemma hasPrefix_self_app (p q : bytes) : hasPrefix (p ++ q) p = true.
Proof.
  induction p as [|x p IH]; [now destruct q|].
  cbn [app hasPrefix]; now rewrite byte_eqb_refl, IH.
Qed.

Lemma contains_middle (front marker back : bytes) :
  contains (front ++ marker ++ back) marker = true.
Proof.
  apply (contains_skipn (List.length front)).
  rewrite skipn_app, skipn_all, Nat.sub_diag; cbn [app skipn].
  apply hasPrefix_contains, hasPrefix_self_app.
Qed.

(** Every message NewErrorResponse builds is classified as an error by
    IsErrorType, whatever the method name and the error text, and its Len
    is the length of its buffer. *)
Theorem NewErrorResponse_is_error (method errorText : string) :
  IsErrorType (Buffer (NewErrorResponse method errorText)) = true
  /\ Len (NewErrorResponse method errorText)
     = Z.of_nat (List.length (Buffer (NewErrorResponse method errorText))).
Proof.
  split; [|reflexivity].
  unfold IsErrorType, NewErrorResponse; cbv zeta; cbn [Buffer].
  rewrite (bytesOf_append "["), (bytesOf_append quote), (bytesOf_append "error").
  rewrite (app_assoc (bytesOf "[")).
  apply contains_middle.
Qed.

(** ** The hex helpers of util *)

Module util.

(** The errors of encoding/hex. *)
Inductive hexError : Type :=
| ErrLength                       (* "encoding/hex: odd length hex string" *)
| InvalidByteError (c : ascii).   (* "encoding/hex: invalid byte: ..." *)

Definition prefix : string := "0x".
Definition prefixBytes : bytes := bytesOf prefix.
Definition prefixLength : nat := String.length prefix.
Definition upperPrefix : string := "0X".
Definition upperPrefixBytes : bytes := bytesOf upperPrefix.
Definition upperPrefixLength : nat := String.length upperPrefix.

Definition IsHex (src : bytes) : bool :=
  if (List.length src <? prefixLength)%nat then false
  else if bytesEqual prefixBytes (firstn prefixLength src) then true
  else false.

Definition IsHexNumber (src : bytes) : bool :=
  if (List.length src <? upperPrefixLength)%nat then false
  else if bytesEqual upperPrefixBytes (firstn upperPrefixLength src) then true
  else false.

(** encoding/hex's fromHexChar: the value of a digit, in either case. *)
Definition fromHexChar (c : ascii) : option N :=
  let n := N_of_ascii c in
  if (48 <=? n) && (n <=? 57) then Some (n - 48)
  else if (97 <=? n) && (n <=? 102) then Some (n - 97 + 10)
  else if (65 <=? n) && (n <=? 70) then Some (n - 65 + 10)
  else None.

(** The byte [(a << 4) | b] of two digit values. *)
Definition packDigits (a b : N) : byte :=
  match Byte.of_N (N.lor (N.shiftl a 4) b mod 256) with
  | Some x => x
  | None => x00
  end.

(** hex.DecodeString: the digits are decoded in pairs from the left; at the
    first character that is no digit the bytes decoded so far are returned
    with InvalidByteError, and a single digit left at the end gives them
    with ErrLength. *)
Fixpoint hexDecodeString (s : string) : bytes * option hexError :=
  match s with
  | EmptyString => ([], None)
  | String c EmptyString =>
      match fromHexChar c with
      | None => ([], Some (InvalidByteError c))
      | Some _ => ([], Some ErrLength)
      end
  | String c1 (String c2 rest) =>
      match fromHexChar c1 with
      | None => ([], Some (InvalidByteError c1))
      | Some a =>
          match fromHexChar c2 with
          | None => ([], Some (InvalidByteError c2))
          | Some b =>
              let (decoded, err) := hexDecodeString rest in
              (packDigits a b :: decoded, err)
          end
      end
  end.

(** A string all of whose bytes are below utf8.RuneSelf. *)
Fixpoint isASCII (s : string) : bool :=
  match s with
  | EmptyString => true
  | String c s' => (N_of_ascii c <? 128) && isASCII s'
  end.

Definition isUpper (c : ascii) : bool :=
  (65 <=? N_of_ascii c) && (N_of_ascii c <=? 90).

Definition lowerChar (c : ascii) : ascii :=
  if isUpper c then ascii_of_N (N_of_ascii c + 32) else c.

Fixpoint asciiLower (s : string) : string :=
  match s with
  | EmptyString => EmptyString
  | String c s' => String (lowerChar c) (asciiLower s')
  end.

Section Helpers.

(** [strings.Map(unicode.ToLower, s)], which strings.ToLower applies to a
    string that has a byte outside ASCII; the Unicode tables are not
    modelled. *)
Variable unicodeLower : string -> string.

(** big.Int's Int64 outside the range of int64, where its documentation
    leaves the result undefined. *)
Variable int64Overflow : N -> Z.

(** strings.ToLower *)
Definition ToLower (s : string) : string :=
  if isASCII s then asciiLower s else unicodeLower s.

(** DecodeString: the slice expression [src[0:prefixLength]] panics on a
    string shorter than the prefix. *)
Definition DecodeString (src : string) : outcome (bytes * option hexError) :=
  let src := ToLower src in
  if (String.length src <? prefixLength)%nat then Panics
  else
    let src :=
      if bytesEqual prefixBytes (bytesOf (substring 0 prefixLength src))
      then substring 2 (String.length src - 2) src
      else src in
    Returns (hexDecodeString src).

(** [new(big.Int).SetBytes(b)]: the big-endian value. *)
Definition SetBytes (b : bytes) : N :=
  fold_left (fun acc x => acc * 256 + Byte.to_N x) b 0.

(** The method Int64 of a big.Int that is not negative. *)
Definition Int64 (x : N) : Z :=
  if x <? 2 ^ 63 then Z.of_N x else int64Overflow x.

Definition DecodeStringToInt (src : string) : outcome (Z * option hexError) :=
  r <- DecodeString src ;;
  match r with
  | (_, Some err) => Returns (Int64 0, Some err)
  | (outByt, None) => Returns (Int64 (SetBytes outByt), None)
  end.

End Helpers.

(** *** Digits *)

Lemma string_pair_ind (P : string -> Prop)
  (Hnil : P EmptyString)
  (Hone : forall c, P (String c EmptyString))
  (Hpair : forall c1 c2 s, P s -> P (String c1 (String c2 s))) :
  forall s, P s.
Proof.
  fix IH 1; intros [|c1 [|c2 s]].
  - exact Hnil.
  - apply Hone.
  - apply Hpair, IH.
Qed.

(** The two digits EncodeToString writes for a byte. *)
Definition highDigit (b : byte) : ascii := hexDigit (Byte.to_N b / 16).
Definition lowDigit (b : byte) : ascii := hexDigit (Byte.to_N b mod 16).

Lemma digits_of_byte (b : byte) :
  exists hi lo,
    fromHexChar (highDigit b) = Some hi
    /\ fromHexChar (lowDigit b) = Some lo
    /\ packDigits hi lo = b
    /\ lowerChar (highDigit b) = highDigit b
    /\ lowerChar (lowDigit b) = lowDigit b
    /\ (N_of_ascii (highDigit b) <? 128) = true
    /\ (N_of_ascii (lowDigit b) <? 128) = true
    /\ lowDigit b <> "x"%char.
Proof.
  destruct b; do 2 eexists; repeat split;
    try (vm_compute; reflexivity); vm_compute; discriminate.
Qed.

Lemma byte_of_digits (c : ascii) (a : N) :
  fromHexChar c = Some a -> isUpper c = false ->
  a < 16 /\ hexDigit a = c.
Proof.
  destruct c as [[] [] [] [] [] [] [] []]; vm_compute; intros H Hu;
    try discriminate H; try discriminate Hu;
    injection H as <-; split; reflexivity.
Qed.

Lemma in_below_16 (a : N) :
  a < 16 -> In a [0; 1; 2; 3; 4; 5; 6; 7; 8; 9; 10; 11; 12; 13; 14; 15].
Proof.
  intros H.
  replace a with (N.of_nat (N.to_nat a)) by apply N2Nat.id.
  change [0; 1; 2; 3; 4; 5; 6; 7; 8; 9; 10; 11; 12; 13; 14; 15]
    with (map N.of_nat (seq 0 16)).
  apply in_map, in_seq; lia.
Qed.

Lemma digits_of_packDigits (a b : N) :
  a < 16 -> b < 16 ->
  Byte.to_N (packDigits a b) / 16 = a /\ Byte.to_N (packDigits a b) mod 16 = b.
Proof.
  intros Ha Hb; apply in_below_16 in Ha, Hb; cbn [In] in Ha, Hb.
  repeat (destruct Ha as [<-|Ha]); try contradiction;
    repeat (destruct Hb as [<-|Hb]); try contradiction;
    split; vm_compute; reflexivity.
Qed.

Lemma hexDecodeString_hexEncode (src : bytes) :
  hexDecodeString (hexEncode src) = (src, None).
Proof.
  induction src as [|b src IH]; [reflexivity|].
  destruct (digits_of_byte b) as (hi & lo & Hhi & Hlo & Hpack & _).
  cbn [hexEncode hexDecodeString]; fold (highDigit b) (lowDigit b).
  now rewrite Hhi, Hlo, IH, Hpack.
Qed.

(** No character of the string is an upper-case letter. *)
Fixpoint lowered (s : string) : bool :=
  match s with
  | EmptyString => true
  | String c s' => negb (isUpper c) && lowered s'
  end.

Lemma isUpper_lowerChar (c : ascii) : isUpper (lowerChar c) = false.
Proof. destruct c as [[] [] [] [] [] [] [] []]; vm_compute; reflexivity. Qed.

Lemma lowered_asciiLower (s : string) : lowered (asciiLower s) = true.
Proof.
  induction s as [|c s IH]; [reflexivity|].
  cbn [asciiLower lowered]; now rewrite isUpper_lowerChar, IH.
Qed.

Lemma hexEncode_of_decoded (s : string) :
  forall decoded,
    lowered s = true ->
    hexDecodeString s = (decoded, None) ->
    hexEncode decoded = s.
Proof.
  induction s as [|c|c1 c2 s IH] using string_pair_ind; intros decoded Hlow Hdec.
  - injection Hdec as <-; reflexivity.
  - cbn [hexDecodeString] in Hdec; destruct (fromHexChar c); discriminate Hdec.
  - cbn [lowered] in Hlow.
    apply andb_true_iff in Hlow as [Hc1 Hlow]; apply andb_true_iff in Hlow as [Hc2 Hlow].
    apply negb_true_iff in Hc1, Hc2.
    cbn [hexDecodeString] in Hdec.
    destruct (fromHexChar c1) as [a|] eqn:Ha; [|discriminate Hdec].
    destruct (fromHexChar c2) as [b|] eqn:Hb; [|discriminate Hdec].
    destruct (hexDecodeString s) as [rest err] eqn:Hrest.
    injection Hdec as <- ->.
    destruct (byte_of_digits c1 a Ha Hc1) as [Ha16 Hd1].
    destruct (byte_of_digits c2 b Hb Hc2) as [Hb16 Hd2].
    destruct (digits_of_packDigits a b Ha16 Hb16) as [Hhi Hlo].
    cbn [hexEncode]; now rewrite Hhi, Hlo, Hd1, Hd2, (IH rest Hlow eq_refl).
Qed.

Lemma isASCII_hexEncode (src : bytes) : isASCII (hexEncode src) = true.
Proof.
  induction src as [|b src IH]; [reflexivity|].
  destruct (digits_of_byte b) as (hi & lo & _ & _ & _ & _ & _ & H1 & H2 & _).
  cbn [hexEncode isASCII]; fold (highDigit b) (lowDigit b).
  now rewrite H1, H2, IH.
Qed.

Lemma asciiLower_hexEncode (src : bytes) : asciiLower (hexEncode src) = hexEncode src.
Proof.
  induction src as [|b src IH]; [reflexivity|].
  destruct (digits_of_byte b) as (hi & lo & _ & _ & _ & H1 & H2 & _).
  cbn [hexEncode asciiLower]; fold (highDigit b) (lowDigit b).
  now rewrite H1, H2, IH.
Qed.

Lemma substring_whole (s : string) : substring 0 (String.length s) s = s.
Proof. induction s as [|c s IH]; [reflexivity|]; cbn; now rewrite IH. Qed.

(** What DecodeString does with the lower-cased string. *)
Definition decodeLowered (l : string) : outcome (bytes * option hexError) :=
  if (String.length l <? prefixLength)%nat then Panics
  else
    Returns
      (hexDecodeString
         (if bytesEqual prefixBytes (bytesOf (substring 0 prefixLength l))
          then substring 2 (String.length l - 2) l
          else l)).

Lemma DecodeString_ascii (unicodeLower : string -> string) (s : string) :
  isASCII s = true ->
  DecodeString unicodeLower s = decodeLowered (asciiLower s).
Proof. intros H; unfold DecodeString, ToLower, decodeLowered; now rewrite H. Qed.

Lemma substring_none (s : string) : substring 0 0 s = EmptyString.
Proof. now destruct s. Qed.

Lemma prefix_of_two (c1 c2 : ascii) (rest : string) :
  bytesOf (substring 0 prefixLength (String c1 (String c2 rest)))
  = [byte_of_ascii c1; byte_of_ascii c2].
Proof.
  change prefixLength with 2%nat; cbn [substring]; now rewrite substring_none.
Qed.

Lemma after_two (c1 c2 : ascii) (rest : string) :
  substring 2 (String.length (String c1 (String c2 rest)) - 2) (String c1 (String c2 rest))
  = rest.
Proof.
  cbn [String.length Nat.sub substring]; rewrite Nat.sub_0_r; apply substring_whole.
Qed.

Lemma decodeLowered_prefixed (digits : string) :
  decodeLowered (String "0" (String "x" digits)) = Returns (hexDecodeString digits).
Proof.
  unfold decodeLowered; rewrite prefix_of_two, after_two; reflexivity.
Qed.

Lemma prefixed_inv (c1 c2 : ascii) (rest : string) :
  bytesEqual prefixBytes (bytesOf (substring 0 prefixLength (String c1 (String c2 rest))))
  = true ->
  c1 = "0"%char /\ c2 = "x"%char.
Proof.
  rewrite prefix_of_two.
  change prefixBytes with [x30; x78]; cbn [bytesEqual].
  intros H; apply andb_true_iff in H as [H1 H2]; apply andb_true_iff in H2 as [H2 _].
  apply byte_dec_bl in H1, H2.
  apply (f_equal ascii_of_byte) in H1, H2.
  rewrite ascii_of_byte_of_ascii in H1, H2.
  split; symmetry; assumption.
Qed.

Lemma EncodeToString_digits (src : bytes) :
  EncodeToString src = String "0" (String "x" (hexEncode src)).
Proof. reflexivity. Qed.

Lemma length_asciiLower (s : string) : String.length (asciiLower s) = String.length s.
Proof. induction s as [|c s IH]; [reflexivity|]; cbn; now rewrite IH. Qed.

Lemma hexEncode_not_prefixed (b : byte) (src : bytes) :
  bytesEqual prefixBytes (bytesOf (substring 0 prefixLength (hexEncode (b :: src))))
  = false.
Proof.
  destruct (bytesEqual _ _) eqn:E; [exfalso|reflexivity].
  cbn [hexEncode] in E; apply prefixed_inv in E as [_ E].
  destruct (digits_of_byte b) as (hi & lo & _ & _ & _ & _ & _ & _ & _ & Hx).
  now apply Hx.
Qed.

(** *** Round trips *)

Lemma DecodeString_ascii_round_trip (unicodeLower : string -> string) (src : bytes) :
  DecodeString unicodeLower (EncodeToString src) = Returns (src, None).
Proof.
  rewrite DecodeString_ascii
    by (rewrite EncodeToString_digits; cbn [isASCII];
        rewrite isASCII_hexEncode; reflexivity).
  rewrite EncodeToString_digits; cbn [asciiLower].
  change (lowerChar "0") with "0"%char; change (lowerChar "x") with "x"%char.
  now rewrite asciiLower_hexEncode, decodeLowered_prefixed, hexDecodeString_hexEncode.
Qed.

(** DecodeString undoes EncodeToString: for every byte slice, the empty one
    included, decoding the string EncodeToString made of it returns the
    slice and a nil error, whatever the mapping of strings.ToLower outside
    ASCII is; and the string is never shorter than the prefix, so the slice
    expression of DecodeString does not panic on it. *)
Theorem DecodeString_EncodeToString (unicodeLower : string -> string) (src : bytes) :
  DecodeString unicodeLower (EncodeToString src) = Returns (src, None)
  /\ (prefixLength <= String.length (EncodeToString src))%nat.
Proof.
  split; [apply DecodeString_ascii_round_trip|].
  rewrite EncodeToString_digits; cbn [String.length]; unfold prefixLength; cbn; lia.
Qed.

(** DecodeString panics (slice bounds out of range) on the empty string and
    on every string of one ASCII character: it slices the first two
    characters off before it looks at the length. *)
Theorem DecodeString_short_panics (unicodeLower : string -> string) (s : string) :
  isASCII s = true ->
  (String.length s < 2)%nat ->
  DecodeString unicodeLower s = Panics.
Proof.
  intros Hascii Hlen; rewrite DecodeString_ascii by exact Hascii.
  unfold decodeLowered; rewrite length_asciiLower.
  now replace (String.length s <? prefixLength)%nat with true
    by (symmetry; apply Nat.ltb_lt; exact Hlen).
Qed.

(** On ASCII input DecodeString succeeds exactly on the spellings of a byte
    slice: it returns [decoded] with a nil error if and only if the string,
    lower-cased, is what EncodeToString makes of [decoded], or is the digits
    of a non-empty [decoded] without the prefix.  So upper-case digits and
    the prefix "0X" are accepted, the prefix is optional, and an odd number
    of digits or a character that is no digit never decodes. *)
Theorem DecodeString_success (unicodeLower : string -> string) (s : string)
    (decoded : bytes) :
  isASCII s = true ->
  (DecodeString unicodeLower s = Returns (decoded, None)
   <-> asciiLower s = EncodeToString decoded
       \/ (decoded <> [] /\ asciiLower s = hexEncode decoded)).
Proof.
  intros Hascii; rewrite DecodeString_ascii by exact Hascii.
  pose proof (lowered_asciiLower s) as Hlow.
  destruct (asciiLower s) as [|c1 [|c2 l]] eqn:El.
  - split; [discriminate|].
    intros [H|[Hne H]]; [discriminate H|].
    destruct decoded; [contradiction|discriminate H].
  - split; [discriminate|].
    intros [H|[Hne H]]; [discriminate H|].
    destruct decoded; [contradiction|discriminate H].
  - unfold decodeLowered.
    change (String.length (String c1 (String c2 l)) <? prefixLength)%nat with false.
    cbv iota.
    destruct (bytesEqual prefixBytes
                (bytesOf (substring 0 prefixLength (String c1 (String c2 l))))) eqn:Epre.
    + destruct (prefixed_inv _ _ _ Epre) as [-> ->].
      rewrite after_two.
      cbn [lowered] in Hlow; apply andb_true_iff in Hlow as [_ Hlow];
        apply andb_true_iff in Hlow as [_ Hlow].
      split.
      * intros H; injection H as H; left.
        rewrite EncodeToString_digits; now rewrite (hexEncode_of_decoded l decoded Hlow H).
      * intros [H|[Hne H]].
        -- rewrite EncodeToString_digits in H; injection H as ->.
           now rewrite hexDecodeString_hexEncode.
        -- destruct decoded as [|b decoded]; [contradiction|].
           rewrite H, hexEncode_not_prefixed in Epre; discriminate Epre.
    + split.
      * intros H; injection H as H; right.
        pose proof (hexEncode_of_decoded _ decoded Hlow H) as Henc.
        split; [|symmetry; exact Henc].
        intros ->; discriminate Henc.
      * intros [H|[Hne H]].
        -- rewrite EncodeToString_digits in H; injection H as -> -> _.
           rewrite prefix_of_two in Epre; discriminate Epre.
        -- rewrite H; now rewrite hexDecodeString_hexEncode.
Qed.

(** IsHex is true exactly for the slices that start with the two bytes of
    "0x" (a shorter slice is answered false, it is not sliced); the string
    EncodeToString builds passes IsHex and fails IsHexNumber. *)
Theorem IsHex_prefix (src : bytes) :
  (IsHex src = true <-> exists rest, src = prefixBytes ++ rest)
  /\ IsHex (bytesOf (EncodeToString src)) = true
  /\ IsHexNumber (bytesOf (EncodeToString src)) = false.
Proof.
  split; [|split; reflexivity].
  unfold IsHex; change prefixLength with 2%nat.
  destruct src as [|a [|b rest]].
  - split; [discriminate|]; intros [rest H]; discriminate H.
  - split; [discriminate|]; intros [rest H]; discriminate H.
  - cbn [List.length Nat.ltb Nat.leb firstn].
    destruct (bytesEqual prefixBytes [a; b]) eqn:E.
    + apply bytesEqual_eq in E; split; [|reflexivity].
      intros _; exists rest; now rewrite E.
    + apply bytesEqual_neq in E; split; [discriminate|].
      intros [rest' H]; exfalso; apply E.
      change prefixBytes with [x30; x78] in *; now injection H as -> -> _.
Qed.

(** DecodeStringToInt reads back the big-endian value of a byte slice from
    the string EncodeToString made of it, as long as the value is below
    2^63; leading zero bytes do not change it.  When DecodeString reports an
    error the value returned beside it is 0, whatever was decoded before the
    error. *)
Theorem DecodeStringToInt_EncodeToString (unicodeLower : string -> string)
    (int64Overflow : N -> Z) (src : bytes) :
  SetBytes src < 2 ^ 63 ->
  DecodeStringToInt unicodeLower int64Overflow (EncodeToString src)
  = Returns (Z.of_N (SetBytes src), None)
  /\ DecodeStringToInt unicodeLower int64Overflow (EncodeToString (x00 :: src))
     = Returns (Z.of_N (SetBytes src), None)
  /\ forall s decoded err,
       DecodeString unicodeLower s = Returns (decoded, Some err) ->
       DecodeStringToInt unicodeLower int64Overflow s = Returns (0%Z, Some err).
Proof.
  intros Hsmall; unfold DecodeStringToInt.
  rewrite !DecodeString_ascii_round_trip; cbn [bind]; unfold Int64.
  change (SetBytes (x00 :: src)) with (SetBytes src).
  apply N.ltb_lt in Hsmall; rewrite Hsmall.
  repeat split.
  intros s decoded err H; now rewrite H.
Qed.

End util.

(** ** The device id of an inbound portopen request *)

(** parseInboundPortOpenRequest, on a buffer that decodes, returns a PortOpen
    that is marked ok, carries the port, the reference and the raw device id
    of the request, and whose DeviceID is a spelling of the raw device id
    that util.DecodeString reads back to it. *)
Theorem parseInboundPortOpenRequest_device_id
    {blockResponse blockquickItems Header : Type}
    {decodePortOpenInbound : Decoder portOpenInboundRequest}
    (unicodeLower : string -> string) (buffer : bytes)
    (inboundRequest : portOpenInboundRequest) :
  Decode buffer = inr inboundRequest ->
  exists portOpen,
    parseInboundPortOpenRequest (blockResponse := blockResponse)
      (blockquickItems := blockquickItems) (Header := Header) buffer
    = (Some (AnyPortOpen portOpen), None)
    /\ PortOpen_Ok portOpen = true
    /\ PortOpen_Port portOpen = portOpenIn_Port inboundRequest
    /\ PortOpen_Ref portOpen = portOpenIn_Ref inboundRequest
    /\ PortOpen_RawDeviceID portOpen = portOpenIn_DeviceID inboundRequest
    /\ util.DecodeString unicodeLower (PortOpen_DeviceID portOpen)
       = Returns (PortOpen_RawDeviceID portOpen, None).
Proof.
  intros Hdecode; unfold parseInboundPortOpenRequest; rewrite Hdecode.
  eexists; split; [reflexivity|]; cbn.
  repeat (split; [reflexivity|]).
  apply util.DecodeString_ascii_round_trip.
Qed.

(** * Package crypto: private keys and addresses *)

Module crypto.

Definition ecPrivKeyVersion : Z := 1.

Definition secp256k1N : N :=
  0xfffffffffffffffffffffffffffffffebaaedce6af48a03bbfd25e8cd0364141.

Inductive keyError : Type :=
| ErrAsn1 (msg : string)               (* the error of asn1.Unmarshal, as it is *)
| ErrParseECPrivateKey (msg : string)  (* "x509: failed to parse EC private key: " + msg *)
| ErrUnknownVersion (version : Z)      (* "x509: unknown EC private key version %d" *)
| ErrInvalidLength (bits : Z)          (* "invalid length, need %d bits" *)
| ErrNotBelowN                         (* "invalid private key, >=N" *)
| ErrZeroOrNegative                    (* "invalid private key, zero or negative" *)
| ErrInvalidPrivateKey.                (* "invalid private key" *)

(** asn1.BitString and asn1.ObjectIdentifier *)
Record BitString := { Bytes : bytes; BitLength : Z }.
Definition ObjectIdentifier : Type := list Z.

Record ECPEMPrivateKey := {
  E1 : option Z;
  KeyType : ObjectIdentifier;
  CurveName : ObjectIdentifier;
  KeyData : bytes }.

Record ECPrivateKey := {
  Version : Z;
  PrivateKey : bytes;
  NamedCurveOID : ObjectIdentifier;
  PublicKey : BitString }.

(** ecdsa.PrivateKey on the curve S256(): the coordinates of the public key,
    nil or a number each, and the secret D. *)
Record ecdsaPrivateKey := { X : option Z; Y : option Z; D : N }.

Section Curve.

(** [S256().Params().BitSize] and [S256().ScalarBaseMult]: the package
    secp256k1 is not part of the sources.  The curve may panic on a scalar
    it cannot handle, so its result is an outcome. *)
Variable BitSize : Z.
Variable ScalarBaseMult : bytes -> outcome (option Z * option Z).

(** asn1.Unmarshal into the two structures: the error text or the value
    (the rest of the input is dropped by the callers). *)
Variable unmarshalECPEMPrivateKey : bytes -> string + ECPEMPrivateKey.
Variable unmarshalECPrivateKey : bytes -> string + ECPrivateKey.

(** Keccak-256: Write followed by Sum(nil) on sha3.NewKeccak256(). *)
Variable Keccak256 : bytes -> bytes.

Definition toECDSA (d : bytes) (strict : bool)
  : outcome (option ecdsaPrivateKey * option keyError) :=
  if strict && negb (8 * Z.of_nat (List.length d) =? BitSize)%Z
  then Returns (None, Some (ErrInvalidLength BitSize))
  else
    let privD := util.SetBytes d in
    if secp256k1N <=? privD then Returns (None, Some ErrNotBelowN)
    else if privD <=? 0 then Returns (None, Some ErrZeroOrNegative)
    else
      point <- ScalarBaseMult d ;;
      let (x, y) := point in
      match x with
      | None => Returns (None, Some ErrInvalidPrivateKey)
      | Some _ => Returns (Some {| X := x; Y := y; D := privD |}, None)
      end.

Definition ToECDSA (d : bytes) : outcome (option ecdsaPrivateKey * option keyError) :=
  toECDSA d true.

Definition ToECDSAUnsafe (d : bytes) : outcome (option ecdsaPrivateKey) :=
  r <- toECDSA d false ;;
  let (priv, _) := r in Returns priv.

Definition DerToECDSA (derD : bytes)
  : outcome (option ecdsaPrivateKey * option keyError) :=
  match unmarshalECPrivateKey derD with
  | inl msg => Returns (None, Some (ErrParseECPrivateKey msg))
  | inr privKey =>
      if negb (Version privKey =? ecPrivKeyVersion)%Z
      then Returns (None, Some (ErrUnknownVersion (Version privKey)))
      else toECDSA (PrivateKey privKey) true
  end.

Definition PemToECDSA (pem : bytes)
  : outcome (option ecdsaPrivateKey * option keyError) :=
  match unmarshalECPEMPrivateKey pem with
  | inl msg => Returns (None, Some (ErrAsn1 msg))
  | inr privKey => DerToECDSA (KeyData privKey)
  end.

(** PubkeyToAddress: [pubkey[1:]] panics on an empty slice and
    [hashPubkey[12:]] on a digest shorter than twelve bytes. *)
Definition PubkeyToAddress (pubkey : bytes) : outcome (bytes * option keyError) :=
  match pubkey with
  | [] => Panics
  | _ :: rest =>
      let hashPubkey := Keccak256 rest in
      if (List.length hashPubkey <? 12)%nat then Panics
      else Returns (skipn 12 hashPubkey, None)
  end.

(** The checks toECDSA makes of [d] before it calls the curve. *)
Definition admitted (d : bytes) (strict : bool) : Prop :=
  (strict = true -> (8 * Z.of_nat (List.length d))%Z = BitSize)
  /\ 0 < util.SetBytes d < secp256k1N.

(** A key toECDSA may return for [d]. *)
Definition validKey (d : bytes) (key : ecdsaPrivateKey) : Prop :=
  D key = util.SetBytes d
  /\ 0 < D key < secp256k1N
  /\ X key <> None
  /\ ScalarBaseMult d = Returns (X key, Y key).

Lemma toECDSA_inv (d : bytes) (strict : bool) (key : ecdsaPrivateKey) :
  toECDSA d strict = Returns (Some key, None) ->
  validKey d key /\ (strict = true -> (8 * Z.of_nat (List.length d))%Z = BitSize).
Proof.
  unfold toECDSA, validKey.
  destruct (strict && negb (8 * Z.of_nat (List.length d) =? BitSize)%Z) eqn:Elen;
    [discriminate|].
  destruct (secp256k1N <=? util.SetBytes d) eqn:EN; [discriminate|].
  destruct (util.SetBytes d <=? 0) eqn:E0; [discriminate|].
  destruct (ScalarBaseMult d) as [[x y]|]; cbn [bind]; [|discriminate].
  destruct x as [x|]; [|discriminate].
  intros H; injection H as <-; cbn.
  apply N.leb_gt in EN, E0.
  repeat split; try assumption; try discriminate.
  intros ->; cbn in Elen; apply negb_false_iff, Z.eqb_eq in Elen; exact Elen.
Qed.

Lemma toECDSA_cases (d : bytes) (strict : bool) :
  (toECDSA d strict = Panics /\ ScalarBaseMult d = Panics /\ admitted d strict)
  \/ (exists key, toECDSA d strict = Returns (Some key, None))
  \/ (exists err, toECDSA d strict = Returns (None, Some err)).
Proof.
  unfold toECDSA, admitted.
  destruct (strict && negb (8 * Z.of_nat (List.length d) =? BitSize)%Z) eqn:Elen;
    [right; right; eexists; reflexivity|].
  destruct (secp256k1N <=? util.SetBytes d) eqn:EN; [right; right; eexists; reflexivity|].
  destruct (util.SetBytes d <=? 0) eqn:E0; [right; right; eexists; reflexivity|].
  apply N.leb_gt in EN, E0.
  destruct (ScalarBaseMult d) as [[[x|] y]|]; cbn [bind].
  - right; left; eexists; reflexivity.
  - right; right; eexists; reflexivity.
  - left; repeat split; try assumption.
    intros ->; cbn in Elen; apply negb_false_iff, Z.eqb_eq in Elen; exact Elen.
Qed.

(** toECDSA panics only inside the curve, on a [d] that passed its checks;
    when it returns, it returns an error and no key or a key and no error,
    and then the secret D is the big-endian value of [d], 0 < D <
    secp256k1N, the public point is the one ScalarBaseMult gave for [d] and
    its X is not nil, and in strict mode [d] has exactly BitSize bits.  In
    strict mode the curve only ever sees scalars of BitSize bits: if it
    handles those, toECDSA does not panic. *)
Theorem toECDSA_key_in_range (d : bytes) (strict : bool) :
  ((toECDSA d strict = Panics /\ ScalarBaseMult d = Panics /\ admitted d strict)
   \/ (exists key,
          toECDSA d strict = Returns (Some key, None)
          /\ validKey d key /\ admitted d strict)
   \/ (exists err, toECDSA d strict = Returns (None, Some err)))
  /\ ((forall scalar,
          (8 * Z.of_nat (List.length scalar))%Z = BitSize ->
          ScalarBaseMult scalar <> Panics) ->
      toECDSA d true <> Panics).
Proof.
  split.
  - destruct (toECDSA_cases d strict) as [H|[[key H]|[err H]]].
    + left; exact H.
    + right; left; exists key; split; [exact H|].
      destruct (toECDSA_inv _ _ _ H) as [Hvalid Hlen].
      split; [exact Hvalid|]; split; [exact Hlen|].
      destruct Hvalid as (HD & Hrange & _); now rewrite <- HD.
    + right; right; exists err; exact H.
  - intros Hcurve Hpanic.
    destruct (toECDSA_cases d true) as [(_ & Hcurve' & Hlen & _)|[[key H]|[err H]]];
      [|rewrite H in Hpanic; discriminate Hpanic..].
    exact (Hcurve d (Hlen eq_refl) Hcurve').
Qed.

Lemma ToECDSAUnsafe_panics (d : bytes) :
  ToECDSAUnsafe d = Panics
  <-> ScalarBaseMult d = Panics /\ 0 < util.SetBytes d < secp256k1N.
Proof.
  unfold ToECDSAUnsafe, toECDSA; cbn [andb].
  destruct (N.leb_spec secp256k1N (util.SetBytes d)); cbn [bind];
    [split; [discriminate|intros [_ Hr]; lia]|].
  destruct (N.leb_spec (util.SetBytes d) 0); cbn [bind];
    [split; [discriminate|intros [_ Hr]; lia]|].
  destruct (ScalarBaseMult d) as [[[x|] y]|]; cbn [bind].
  - split; [discriminate|intros [Hp _]; discriminate Hp].
  - split; [discriminate|intros [Hp _]; discriminate Hp].
  - split; [intros _; split; [reflexivity|lia]|reflexivity].
Qed.

Lemma ToECDSA_key_iff (d : bytes) (key : ecdsaPrivateKey) :
  ToECDSA d = Returns (Some key, None)
  <-> ToECDSAUnsafe d = Returns (Some key)
      /\ (8 * Z.of_nat (List.length d))%Z = BitSize.
Proof.
  unfold ToECDSA, ToECDSAUnsafe, toECDSA; cbn [andb].
  destruct (Z.eqb_spec (8 * Z.of_nat (List.length d)) BitSize) as [Elen|Elen];
    cbn [andb negb].
  - destruct (N.leb_spec secp256k1N (util.SetBytes d)); cbn [bind];
      [split; [discriminate|intros [Hk _]; discriminate Hk]|].
    destruct (N.leb_spec (util.SetBytes d) 0); cbn [bind];
      [split; [discriminate|intros [Hk _]; discriminate Hk]|].
    destruct (ScalarBaseMult d) as [[[x|] y]|]; cbn [bind].
    + split.
      * intros Hk; injection Hk as <-; split; [reflexivity|exact Elen].
      * intros [Hk _]; injection Hk as <-; reflexivity.
    + split; [discriminate|intros [Hk _]; discriminate Hk].
    + split; [discriminate|intros [Hk _]; discriminate Hk].
  - split; [discriminate|intros [_ Hk]; contradiction].
Qed.

(** The strict conversion is the blind one restricted to inputs of exactly
    BitSize bits: ToECDSA returns a key for [d] if and only if
    ToECDSAUnsafe returns that key and [d] has BitSize bits.  On a [d] of
    any other length ToECDSA returns the length error without calling the
    curve, whatever ToECDSAUnsafe makes of that [d]; and ToECDSAUnsafe
    panics exactly when the curve does on a [d] that passed the range
    checks. *)
Theorem ToECDSA_iff_unsafe (d : bytes) :
  (forall key,
      ToECDSA d = Returns (Some key, None)
      <-> ToECDSAUnsafe d = Returns (Some key)
          /\ (8 * Z.of_nat (List.length d))%Z = BitSize)
  /\ ((8 * Z.of_nat (List.length d))%Z <> BitSize ->
      ToECDSA d = Returns (None, Some (ErrInvalidLength BitSize)))
  /\ (ToECDSAUnsafe d = Panics
      <-> ScalarBaseMult d = Panics /\ 0 < util.SetBytes d < secp256k1N).
Proof.
  split; [intros key; apply ToECDSA_key_iff|].
  split; [|apply ToECDSAUnsafe_panics].
  intros Hlen; unfold ToECDSA, toECDSA.
  apply Z.eqb_neq in Hlen; now rewrite Hlen.
Qed.

(** A key read from a PEM or a DER blob went through every check: if
    PemToECDSA returns a key, the outer structure parsed, its KeyData parsed
    as an EC private key of version 1 whose PrivateKey has exactly BitSize
    bits, and the key is the one ToECDSA makes of it, with 0 < D <
    secp256k1N.  An EC private key of another version is refused by
    DerToECDSA whatever its key bytes are. *)
Theorem PemToECDSA_checked (pem : bytes) (key : ecdsaPrivateKey) :
  PemToECDSA pem = Returns (Some key, None) ->
  (exists outer inner,
      unmarshalECPEMPrivateKey pem = inr outer
      /\ unmarshalECPrivateKey (KeyData outer) = inr inner
      /\ DerToECDSA (KeyData outer) = Returns (Some key, None)
      /\ Version inner = ecPrivKeyVersion
      /\ (8 * Z.of_nat (List.length (PrivateKey inner)))%Z = BitSize
      /\ ToECDSA (PrivateKey inner) = Returns (Some key, None)
      /\ validKey (PrivateKey inner) key)
  /\ (forall derD privKey,
         unmarshalECPrivateKey derD = inr privKey ->
         Version privKey <> ecPrivKeyVersion ->
         DerToECDSA derD = Returns (None, Some (ErrUnknownVersion (Version privKey)))).
Proof.
  intros H; split.
  - unfold PemToECDSA in H.
    destruct (unmarshalECPEMPrivateKey pem) as [msg|outer]; [discriminate|].
    pose proof H as Hder; unfold DerToECDSA in H.
    destruct (unmarshalECPrivateKey (KeyData outer)) as [msg|inner] eqn:Einner;
      [discriminate|].
    destruct (Version inner =? ecPrivKeyVersion)%Z eqn:Ev; cbn [negb] in H;
      [|discriminate].
    apply Z.eqb_eq in Ev.
    destruct (toECDSA_inv _ _ _ H) as [Hvalid Hlen].
    exists outer, inner; repeat split; try assumption; try reflexivity;
      try (apply Hlen; reflexivity); apply Hvalid.
  - intros derD privKey Hparse Hv; unfold DerToECDSA; rewrite Hparse.
    apply Z.eqb_neq in Hv; now rewrite Hv.
Qed.

(** With a hash of 32 bytes, PubkeyToAddress panics on the empty slice and
    on nothing else; on a slice that is not empty it returns, with a nil
    error, the last twenty bytes of the hash of everything after the first
    byte, so the first byte (the format tag of the key) has no part in the
    address. *)
Theorem PubkeyToAddress_address (pubkey : bytes) :
  (forall data, List.length (Keccak256 data) = 32%nat) ->
  (pubkey = [] -> PubkeyToAddress pubkey = Panics)
  /\ (forall tag rest,
         pubkey = tag :: rest ->
         exists address,
           PubkeyToAddress pubkey = Returns (address, None)
           /\ List.length address = 20%nat
           /\ Keccak256 rest = firstn 12 (Keccak256 rest) ++ address
           /\ forall tag', PubkeyToAddress (tag' :: rest) = Returns (address, None)).
Proof.
  intros Hhash; split; [intros ->; reflexivity|].
  intros tag rest ->; unfold PubkeyToAddress.
  replace (List.length (Keccak256 rest) <? 12)%nat with false
    by (rewrite Hhash; reflexivity).
  exists (skipn 12 (Keccak256 rest)); repeat split.
  - rewrite length_skipn, Hhash; reflexivity.
  - symmetry; apply firstn_skipn.
Qed.

End Curve.

End crypto.

(** * Runs of the further properties *)

(** ** Replies and requests *)

Definition refParseDeviceObjectResponse : bytes -> result refAny :=
  parseDeviceObjectResponse (decodeObject := refDecodeObject).

Definition refParsePortOpenResponse : bytes -> result refAny :=
  parsePortOpenResponse (decodePortOpen := refDecodePortOpen).

Definition refParseInboundPortOpenRequest : bytes -> result refAny :=
  parseInboundPortOpenRequest (decodePortOpenInbound := refDecodePortOpenInbound).

Definition refNewResponseMessage : N -> string -> string -> list arg -> outcome message :=
  NewResponseMessage (blockResponse := rlp.item) (blockquickItems := list N)
    (Header := refHeader).

(** A device object whose server id has 24 bytes and whose fleet address
    has 5. *)
Definition sampleObject : objectResponse := {|
  object_ServerID := bytesOf "server-id-of-twenty-four";
  object_PeakBlock := 77;
  object_FleetAddr := bytesOf "fleet";
  object_TotalConnections := 3;
  object_TotalBytes := 4096;
  object_DeviceSig := bytesOf "device-signature";
  object_ServerSig := bytesOf "server-signature";
  object_LocalAddr := bytesOf "10.0.0.7" |}.

(** The reply [6, ["response", "getobject", [server id, 77, fleet, ...]]]. *)
Definition objectReply : bytes :=
  rlp.EncodeToBytes
    (response 6 "getobject"
       (rlp.Fieldwise
          (object_ServerID sampleObject,
           (object_PeakBlock sampleObject,
            (object_FleetAddr sampleObject,
             (object_TotalConnections sampleObject,
              (object_TotalBytes sampleObject,
               (object_LocalAddr sampleObject,
                (object_DeviceSig sampleObject,
                 (object_ServerSig sampleObject, tt)))))))),
        tt)).

Lemma parseDeviceObjectResponse_addresses_witness :
  refDecodeObject objectReply = inr sampleObject
  /\ exists ticket,
       refParseDeviceObjectResponse objectReply = (Some (AnyDeviceTicketRef ticket), None)
       /\ ServerID ticket = bytesOf "server-id-of-twenty-"
       /\ FleetAddr ticket = bytesOf "fleet" ++ repeat x00 15.
Proof.
  assert (Hdecode : refDecodeObject objectReply = inr sampleObject)
    by (vm_compute; reflexivity).
  split; [exact Hdecode|].
  destruct (parseDeviceObjectResponse_addresses (blockResponse := rlp.item)
              (blockquickItems := list N) (Header := refHeader)
              (decodeObject := refDecodeObject) objectReply sampleObject Hdecode)
    as (ticket & Hparse & _ & _ & Hserver & _ & _ & Hfleet & _).
  exists ticket; split; [exact Hparse|]; split.
  - rewrite Hserver by (vm_compute; lia); reflexivity.
  - rewrite Hfleet by (vm_compute; lia); reflexivity.
Defined.

(** The reply [7, ["response", "portopen", 5, "ok"]]. *)
Definition portOpenReply : bytes :=
  rlp.EncodeToBytes (response 7 "portopen" (5, ("ok", tt))).

Lemma parsePortOpenResponse_ok_witness :
  refDecodePortOpen portOpenReply = inr {| portOpen_Result := "ok"; portOpen_Ref := 5 |}
  /\ exists portOpen,
       refParsePortOpenResponse portOpenReply = (Some (AnyPortOpen portOpen), None)
       /\ PortOpen_Ref portOpen = 5
       /\ PortOpen_Ok portOpen = true.
Proof.
  assert (Hdecode : refDecodePortOpen portOpenReply
                    = inr {| portOpen_Result := "ok"; portOpen_Ref := 5 |})
    by (vm_compute; reflexivity).
  split; [exact Hdecode|].
  destruct (parsePortOpenResponse_ok (blockResponse := rlp.item)
              (blockquickItems := list N) (Header := refHeader)
              (decodePortOpen := refDecodePortOpen) portOpenReply _ Hdecode)
    as (portOpen & Hparse & Href & Hok).
  exists portOpen; repeat split; [exact Hparse|exact Href|].
  apply Hok; reflexivity.
Defined.

Lemma NewMessage_ill_typed_panics_witness :
  requestSignature "getblock" = Some [TUint64]
  /\ wellTyped [TUint64] [ArgString "7"] = false
  /\ refNewMessage 10 "getblock" [ArgString "7"] = Panics.
Proof.
  split; [reflexivity|]; split; [reflexivity|].
  unfold refNewMessage.
  apply (NewMessage_ill_typed_panics _ _ _ _ _ _ _ 10 "getblock" [TUint64]
           [ArgString "7"]); reflexivity.
Defined.

Lemma NewResponseMessage_methods_witness :
  responseSignature "portopen" = Some [TUint64; TString]
  /\ wellTyped [TUint64; TString] [ArgUint64 5; ArgString "ok"] = true
  /\ refNewResponseMessage 11 "response" "portopen" [ArgUint64 5; ArgString "ok"]
     = Returns (Some (rlp.encode (wireRequest 11 "response"
                                    [ArgUint64 5; ArgString "ok"])),
                None, None)
  /\ responseSignature "goodbye" = None
  /\ refNewResponseMessage 11 "response" "goodbye" []
     = Returns (None, None, Some ErrRPCNotSupport).
Proof.
  split; [reflexivity|]; split; [reflexivity|]; split; [|split; [reflexivity|]].
  - apply (proj1 (NewResponseMessage_methods (blockResponse := rlp.item)
                    (blockquickItems := list N) (Header := refHeader)
                    11 "response" "portopen" [ArgUint64 5; ArgString "ok"])
             [TUint64; TString]); reflexivity.
  - apply (proj1 (proj2 (NewResponseMessage_methods (blockResponse := rlp.item)
                           (blockquickItems := list N) (Header := refHeader)
                           11 "response" "goodbye" []))); reflexivity.
Defined.

Lemma NewResponseMessage_as_request_witness :
  refNewResponseMessage 12 "response" "portsend" [ArgUint64 5; ArgBytes (bytesOf "data")]
  = refNewMessage 12 "portsend" [ArgUint64 5; ArgBytes (bytesOf "data")].
Proof.
  unfold refNewResponseMessage, refNewMessage.
  apply NewResponseMessage_as_request; left; reflexivity.
Defined.

(** The inbound request [13, ["portopen", 80, 5, device id]]. *)
Definition sampleDeviceID : bytes := [xde; xad; xbe; xef; x00; x2a].

Definition portOpenRequestBuffer : bytes :=
  rlp.EncodeToBytes
    (rlp.Fieldwise (13, (rlp.Fieldwise ("portopen", (80, (5, (sampleDeviceID, tt)))), tt))
     : requestEnvelope (N * (N * (bytes * unit)))).

Lemma parseInboundPortOpenRequest_device_id_witness :
  refDecodePortOpenInbound portOpenRequestBuffer
  = inr {| portOpenIn_DeviceID := sampleDeviceID; portOpenIn_Port := 80;
           portOpenIn_Ref := 5 |}
  /\ exists portOpen,
       refParseInboundPortOpenRequest portOpenRequestBuffer
       = (Some (AnyPortOpen portOpen), None)
       /\ PortOpen_RawDeviceID portOpen = sampleDeviceID
       /\ util.DecodeString (fun s => s) (PortOpen_DeviceID portOpen)
          = Returns (sampleDeviceID, None).
Proof.
  assert (Hdecode : refDecodePortOpenInbound portOpenRequestBuffer
                    = inr {| portOpenIn_DeviceID := sampleDeviceID; portOpenIn_Port := 80;
                             portOpenIn_Ref := 5 |})
    by (vm_compute; reflexivity).
  split; [exact Hdecode|].
  destruct (parseInboundPortOpenRequest_device_id (blockResponse := rlp.item)
              (blockquickItems := list N) (Header := refHeader)
              (decodePortOpenInbound := refDecodePortOpenInbound)
              (fun s => s) portOpenRequestBuffer _ Hdecode)
    as (portOpen & Hparse & _ & _ & _ & Hraw & Hid).
  exists portOpen; split; [exact Hparse|]; split; [exact Hraw|].
  rewrite Hid, Hraw; reflexivity.
Defined.

(** ** Hexadecimal strings *)

Lemma DecodeString_short_panics_witness :
  util.isASCII "7" = true
  /\ (String.length "7" < 2)%nat
  /\ util.DecodeString (fun s => s) "7" = Panics.
Proof.
  split; [reflexivity|]; split; [apply Nat.lt_succ_diag_r|].
  apply util.DecodeString_short_panics; [reflexivity|apply Nat.lt_succ_diag_r].
Defined.

Lemma DecodeString_success_witness :
  util.isASCII "0XDEADbeef" = true
  /\ util.DecodeString (fun s => s) "0XDEADbeef" = Returns ([xde; xad; xbe; xef], None)
  /\ util.isASCII "DEADbeef" = true
  /\ util.DecodeString (fun s => s) "DEADbeef" = Returns ([xde; xad; xbe; xef], None).
Proof.
  split; [reflexivity|]; split; [|split; [reflexivity|]].
  - apply (util.DecodeString_success (fun s => s) "0XDEADbeef"); [reflexivity|].
    left; reflexivity.
  - apply (util.DecodeString_success (fun s => s) "DEADbeef"); [reflexivity|].
    right; split; [discriminate|reflexivity].
Defined.

Lemma DecodeStringToInt_EncodeToString_witness :
  util.SetBytes [x01; x00] < 2 ^ 63
  /\ util.DecodeStringToInt (fun s => s) (fun _ => 0%Z) "0x0100" = Returns (256%Z, None)
  /\ util.DecodeStringToInt (fun s => s) (fun _ => 0%Z) "0x000100" = Returns (256%Z, None).
Proof.
  assert (Hsmall : util.SetBytes [x01; x00] < 2 ^ 63) by reflexivity.
  split; [exact Hsmall|].
  destruct (util.DecodeStringToInt_EncodeToString (fun s => s) (fun _ => 0%Z)
              [x01; x00] Hsmall) as (Hvalue & Hpadded & _).
  split; [exact Hvalue|exact Hpadded].
Defined.

(** ** Keys and addresses *)

(** Stand-ins for the curve and for asn1: the public point of a secret is a
    number made of it, a PEM blob is a tag byte before its key data, and a
    DER blob is a version byte before the secret. *)
Definition standInScalarBaseMult (d : bytes) : outcome (option Z * option Z) :=
  if (32 <? List.length d)%nat then Panics
  else Returns (Some (Z.of_N (util.SetBytes d)), Some 0%Z).

Definition standInUnmarshalPEM (pem : bytes) : string + crypto.ECPEMPrivateKey :=
  match pem with
  | [] => inl "asn1: syntax error: sequence truncated"
  | _ :: keyData =>
      inr {| crypto.E1 := Some 1%Z; crypto.KeyType := []; crypto.CurveName := [];
             crypto.KeyData := keyData |}
  end.

Definition standInUnmarshalDER (derD : bytes) : string + crypto.ECPrivateKey :=
  match derD with
  | [] => inl "asn1: syntax error: sequence truncated"
  | version :: secret =>
      inr {| crypto.Version := Z.of_N (Byte.to_N version);
             crypto.PrivateKey := secret;
             crypto.NamedCurveOID := [];
             crypto.PublicKey := {| crypto.Bytes := []; crypto.BitLength := 0 |} |}
  end.

Definition standInKeccak256 (data : bytes) : bytes :=
  firstn 32 (data ++ repeat x00 32).

Lemma length_standInKeccak256 (data : bytes) :
  List.length (standInKeccak256 data) = 32%nat.
Proof.
  unfold standInKeccak256; rewrite length_firstn, length_app, repeat_length; lia.
Qed.

Definition refPemToECDSA
  : bytes -> outcome (option crypto.ecdsaPrivateKey * option crypto.keyError) :=
  crypto.PemToECDSA 256 standInScalarBaseMult standInUnmarshalPEM standInUnmarshalDER.

Definition samplePem : bytes := x30 :: x01 :: repeat x11 32.

Definition sampleKey : crypto.ecdsaPrivateKey :=
  {| crypto.X := Some (Z.of_N (util.SetBytes (repeat x11 32)));
     crypto.Y := Some 0%Z;
     crypto.D := util.SetBytes (repeat x11 32) |}.

Lemma PemToECDSA_checked_witness :
  refPemToECDSA samplePem = Returns (Some sampleKey, None)
  /\ 0 < crypto.D sampleKey < crypto.secp256k1N
  /\ refPemToECDSA (x30 :: x02 :: repeat x11 32)
     = Returns (None, Some (crypto.ErrUnknownVersion 2)).
Proof.
  assert (Hkey : refPemToECDSA samplePem = Returns (Some sampleKey, None))
    by (vm_compute; reflexivity).
  split; [exact Hkey|].
  destruct (crypto.PemToECDSA_checked 256 standInScalarBaseMult standInUnmarshalPEM
              standInUnmarshalDER samplePem sampleKey Hkey)
    as [(outer & inner & _ & _ & _ & _ & _ & _ & Hvalid) Hversion].
  split; [apply Hvalid|].
  unfold refPemToECDSA, crypto.PemToECDSA; cbn [standInUnmarshalPEM crypto.KeyData].
  apply (Hversion (x02 :: repeat x11 32)
           {| crypto.Version := 2; crypto.PrivateKey := repeat x11 32;
              crypto.NamedCurveOID := [];
              crypto.PublicKey := {| crypto.Bytes := []; crypto.BitLength := 0 |} |});
    [reflexivity|discriminate].
Defined.

Lemma standInScalarBaseMult_handles (scalar : bytes) :
  (8 * Z.of_nat (List.length scalar))%Z = 256%Z ->
  standInScalarBaseMult scalar <> Panics.
Proof.
  intros Hlen; unfold standInScalarBaseMult.
  replace (32 <? List.length scalar)%nat with false
    by (symmetry; apply Nat.ltb_ge; lia).
  discriminate.
Qed.

(** A blob of 33 bytes with a leading zero passes the checks of the blind
    conversion and reaches the curve, which panics; the strict conversion
    refuses its length before the curve is called. *)
Lemma toECDSA_key_in_range_witness :
  (forall scalar,
      (8 * Z.of_nat (List.length scalar))%Z = 256%Z ->
      standInScalarBaseMult scalar <> Panics)
  /\ crypto.toECDSA 256 standInScalarBaseMult (x00 :: repeat x11 32) false = Panics
  /\ crypto.toECDSA 256 standInScalarBaseMult (x00 :: repeat x11 32) true <> Panics.
Proof.
  split; [exact standInScalarBaseMult_handles|].
  split; [vm_compute; reflexivity|].
  exact (proj2 (crypto.toECDSA_key_in_range 256 standInScalarBaseMult
                  (x00 :: repeat x11 32) true) standInScalarBaseMult_handles).
Defined.

(** A secret of one byte: the strict conversion refuses its length, the
    blind one makes a key of it. *)
Lemma ToECDSA_iff_unsafe_witness :
  (8 * Z.of_nat (List.length [x01]))%Z <> 256%Z
  /\ crypto.ToECDSA 256 standInScalarBaseMult [x01]
     = Returns (None, Some (crypto.ErrInvalidLength 256))
  /\ crypto.ToECDSAUnsafe 256 standInScalarBaseMult [x01]
     = Returns (Some {| crypto.X := Some 1%Z; crypto.Y := Some 0%Z; crypto.D := 1 |})
  /\ crypto.ToECDSAUnsafe 256 standInScalarBaseMult (x00 :: repeat x11 32) = Panics.
Proof.
  assert (Hlen : (8 * Z.of_nat (List.length [x01]))%Z <> 256%Z) by (cbn; lia).
  split; [exact Hlen|].
  split; [exact (proj1 (proj2 (crypto.ToECDSA_iff_unsafe 256 standInScalarBaseMult [x01]))
                   Hlen)|].
  split; [vm_compute; reflexivity|].
  apply (proj2 (crypto.ToECDSA_iff_unsafe 256 standInScalarBaseMult
                  (x00 :: repeat x11 32))).
  split; [vm_compute; reflexivity|split; vm_compute; reflexivity].
Defined.

Lemma PubkeyToAddress_address_witness :
  (forall data, List.length (standInKeccak256 data) = 32%nat)
  /\ crypto.PubkeyToAddress standInKeccak256 [] = Panics
  /\ exists address,
       crypto.PubkeyToAddress standInKeccak256 (x04 :: repeat x22 64)
       = Returns (address, None)
       /\ List.length address = 20%nat
       /\ crypto.PubkeyToAddress standInKeccak256 (x02 :: repeat x22 64)
          = Returns (address, None).
Proof.
  split; [exact length_standInKeccak256|]; split.
  - apply (proj1 (crypto.PubkeyToAddress_address standInKeccak256 []
                    length_standInKeccak256)); reflexivity.
  - destruct (proj2 (crypto.PubkeyToAddress_address standInKeccak256
                       (x04 :: repeat x22 64) length_standInKeccak256)
                x04 (repeat x22 64) eq_refl)
      as (address & Haddress & Hlength & _ & Htag).
    exists address; split; [exact Haddress|]; split; [exact Hlength|apply Htag].
Defined.
